(** * bitlbee-steam: the Steam web-API engine (steam-api.c, steam-json.c)

    A shallow embedding of the response parsers, the dispatcher
    [steam_api_cb] and the summary batching of [steam-api.c], together with
    the JSON accessors of [steam-json.c].

    Conventions of the embedding:
    - [gint64] is a [Z] kept in range by [int64] (two's complement
      wrap-around written out);
    - a [gchar *] that may be [NULL] is an [option string];
    - heap objects shared between two lists ([SteamFriendSummary]) live in a
      store and are referred to by address;
    - calls into modules that are not part of these two files (transport,
      credential module, user callbacks) are recorded in a trace;
    - code whose behaviour C leaves undefined (a read outside an array, a
      [NULL] dereference) makes the model stop with [None]. *)

From Stdlib Require Import ZArith List String Ascii Bool Lia DecimalString.
Import ListNotations.
Local Open Scope string_scope.
Local Open Scope Z_scope.
#[local] Set Warnings "-register-all".

(** ** Machine integers *)

Definition INT64_MIN : Z := - 2 ^ 63.
Definition INT64_MAX : Z := 2 ^ 63 - 1.

(** Reduction of a mathematical integer to the [gint64] it is stored as. *)
Definition int64 (z : Z) : Z := (z + 2 ^ 63) mod 2 ^ 64 - 2 ^ 63.

Definition in_int64 (z : Z) : Prop := INT64_MIN <= z <= INT64_MAX.

(** [printf("%" G_GINT64_FORMAT)]. *)
Definition string_of_Z (z : Z) : string := NilZero.string_of_int (Z.to_int z).

(** ** GLib string helpers *)

Definition g_ascii_tolower (c : ascii) : ascii :=
  let n := nat_of_ascii c in
  if ((65 <=? n) && (n <=? 90))%nat then ascii_of_nat (n + 32) else c.

Definition char_code (c : ascii) : Z := Z.of_nat (nat_of_ascii c).

Fixpoint g_ascii_strcasecmp (s1 s2 : string) : Z :=
  match s1, s2 with
  | String a r1, String b r2 =>
      let c1 := g_ascii_tolower a in
      let c2 := g_ascii_tolower b in
      if Ascii.eqb c1 c2 then g_ascii_strcasecmp r1 r2
      else char_code c1 - char_code c2
  | String a _, EmptyString => char_code a
  | EmptyString, String b _ => - char_code b
  | EmptyString, EmptyString => 0
  end.

(** [g_strcmp0]: [strcmp] that accepts [NULL] on either side. *)
Definition g_strcmp0 (a b : option string) : Z :=
  match a, b with
  | None, None => 0
  | None, Some _ => -1
  | Some _, None => 1
  | Some x, Some y =>
      match String.compare x y with Eq => 0 | Lt => -1 | Gt => 1 end
  end.

(** [printf("%s")] of a possibly [NULL] pointer, as glibc prints it. *)
Definition fmt_s (s : option string) : string :=
  match s with Some x => x | None => "(null)" end.

(** ** Call types and their labels

    [steam-api.h] is not among the sources.  The enumerators are numbered in
    the order in which the designated initialisers of [strs] list them, and
    the [LAST] sentinel follows the last of them, so that the table declared
    as [strs[STEAM_API_TYPE_LAST]] has one slot per enumerator. *)

Inductive SteamApiType :=
| STEAM_API_TYPE_AUTH
| STEAM_API_TYPE_AUTH_RDIR
| STEAM_API_TYPE_CHATLOG
| STEAM_API_TYPE_FRIEND_ACCEPT
| STEAM_API_TYPE_FRIEND_ADD
| STEAM_API_TYPE_FRIEND_IGNORE
| STEAM_API_TYPE_FRIEND_REMOVE
| STEAM_API_TYPE_FRIEND_SEARCH
| STEAM_API_TYPE_FRIENDS
| STEAM_API_TYPE_KEY
| STEAM_API_TYPE_LOGON
| STEAM_API_TYPE_RELOGON
| STEAM_API_TYPE_LOGOFF
| STEAM_API_TYPE_MESSAGE
| STEAM_API_TYPE_POLL
| STEAM_API_TYPE_SUMMARY.

(** The integer a call type is stored as. *)
Definition type_int (t : SteamApiType) : Z :=
  match t with
  | STEAM_API_TYPE_AUTH => 0
  | STEAM_API_TYPE_AUTH_RDIR => 1
  | STEAM_API_TYPE_CHATLOG => 2
  | STEAM_API_TYPE_FRIEND_ACCEPT => 3
  | STEAM_API_TYPE_FRIEND_ADD => 4
  | STEAM_API_TYPE_FRIEND_IGNORE => 5
  | STEAM_API_TYPE_FRIEND_REMOVE => 6
  | STEAM_API_TYPE_FRIEND_SEARCH => 7
  | STEAM_API_TYPE_FRIENDS => 8
  | STEAM_API_TYPE_KEY => 9
  | STEAM_API_TYPE_LOGON => 10
  | STEAM_API_TYPE_RELOGON => 11
  | STEAM_API_TYPE_LOGOFF => 12
  | STEAM_API_TYPE_MESSAGE => 13
  | STEAM_API_TYPE_POLL => 14
  | STEAM_API_TYPE_SUMMARY => 15
  end.

Definition STEAM_API_TYPE_LAST : Z := 16.

(** Read of [arr[i]]; [None] when [i] is not a position of the array. *)
Definition array_read {A : Type} (arr : list A) (i : Z) : option A :=
  if i <? 0 then None else nth_error arr (Z.to_nat i).

Definition steam_api_type_strs : list string :=
  [ "Authentication"; "Authentication (redirect)"; "ChatLog";
    "Friend Acceptance"; "Friend Addition"; "Friend Ignore";
    "Friend Removal"; "Friend Search"; "Friends"; "Key"; "Logon";
    "Relogon"; "Logoff"; "Message"; "Polling"; "Summary" ].

(** [steam_api_type_str].  The result is [None] when the function reads
    [strs[type]] outside the table. *)
Definition steam_api_type_str (type : Z) : option string :=
  if (type <? 0) || (type >? STEAM_API_TYPE_LAST) then Some "Generic"
  else array_read steam_api_type_strs type.

(** ** Message types *)

Definition STEAM_API_MESSAGE_TYPE_SAYTEXT : Z := 0.
Definition STEAM_API_MESSAGE_TYPE_EMOTE : Z := 1.
Definition STEAM_API_MESSAGE_TYPE_LEFT_CONV : Z := 2.
Definition STEAM_API_MESSAGE_TYPE_RELATIONSHIP : Z := 3.
Definition STEAM_API_MESSAGE_TYPE_STATE : Z := 4.
Definition STEAM_API_MESSAGE_TYPE_TYPING : Z := 5.
Definition STEAM_API_MESSAGE_TYPE_LAST : Z := 6.

Definition steam_api_message_type_strs : list string :=
  [ "saytext"; "emote"; "leftconversation"; "personarelationship";
    "personastate"; "typing" ].

(** [steam_api_message_type_str], with [None] for a read outside [strs]. *)
Definition steam_api_message_type_str (type : Z) : option string :=
  if (type <? 0) || (type >? STEAM_API_MESSAGE_TYPE_LAST) then Some ""
  else array_read steam_api_message_type_strs type.

(** The [for] loop of [steam_api_message_type_from_str], from index [i],
    with [n] iterations left. *)
Fixpoint message_type_scan (type : string) (i : Z) (n : nat) : Z :=
  match n with
  | O => STEAM_API_MESSAGE_TYPE_LAST
  | S n' =>
      match steam_api_message_type_str i with
      | Some s =>
          if g_ascii_strcasecmp type s =? 0 then i
          else message_type_scan type (i + 1) n'
      | None => message_type_scan type (i + 1) n'
      end
  end.

Definition steam_api_message_type_from_str (type : option string) : Z :=
  match type with
  | None => STEAM_API_MESSAGE_TYPE_LAST
  | Some t => message_type_scan t 0 (Z.to_nat STEAM_API_MESSAGE_TYPE_LAST)
  end.

(** ** JSON value trees (the json-parser library's [json_value]) *)

Inductive json_type :=
| json_none | json_object | json_array | json_integer | json_double
| json_string | json_boolean | json_null.

(** A double carries the text [printf("%f")] gives for it: no arithmetic is
    done on doubles in these files. *)
Inductive json_value :=
| JObject (entries : list (string * json_value))
| JArray (values : list json_value)
| JInteger (i : Z)
| JDouble (printed : string)
| JString (s : string)
| JBoolean (b : bool)
| JNull.

Definition json_type_of (v : json_value) : json_type :=
  match v with
  | JObject _ => json_object
  | JArray _ => json_array
  | JInteger _ => json_integer
  | JDouble _ => json_double
  | JString _ => json_string
  | JBoolean _ => json_boolean
  | JNull => json_null
  end.

Definition json_type_eqb (a b : json_type) : bool :=
  match a, b with
  | json_none, json_none | json_object, json_object
  | json_array, json_array | json_integer, json_integer
  | json_double, json_double | json_string, json_string
  | json_boolean, json_boolean | json_null, json_null => true
  | _, _ => false
  end.

(** BitlBee's [json_o_get]: the value of the first entry called [name]. *)
Fixpoint json_entries_get (es : list (string * json_value)) (name : string)
  : option json_value :=
  match es with
  | [] => None
  | (k, v) :: rest => if String.eqb k name then Some v else json_entries_get rest name
  end.

Definition json_o_get (obj : option json_value) (name : string)
  : option json_value :=
  match obj with
  | Some (JObject es) => json_entries_get es name
  | _ => None
  end.

(** *** steam-json.c

    A C accessor that returns a [gboolean] and writes through an out
    pointer returns the pair here. *)

Definition steam_json_val (json : option json_value) (name : string)
  (type : json_type) : bool * option json_value :=
  match json with
  | None => (false, None)
  | Some _ =>
      let val := json_o_get json name in
      (match val with
       | Some v => json_type_eqb (json_type_of v) type
       | None => false
       end, val)
  end.

Definition steam_json_bool (json : option json_value) (name : string) : bool :=
  match steam_json_val json name json_boolean with
  | (true, Some (JBoolean b)) => b
  | _ => false
  end.

Definition steam_json_int (json : option json_value) (name : string)
  : bool * Z :=
  match steam_json_val json name json_integer with
  | (true, Some (JInteger i)) => (true, i)
  | _ => (false, 0)
  end.

Definition steam_json_str (json : option json_value) (name : string)
  : bool * option string :=
  match steam_json_val json name json_string with
  | (true, Some (JString s)) =>
      if (Z.of_nat (String.length s) <? 1) then (false, None)
      else (true, Some s)
  | _ => (false, None)
  end.

Definition steam_json_scmp (json : option json_value) (name : string)
  (match_ : option string) : bool * option string :=
  match steam_json_str json name with
  | (true, Some s) =>
      (match match_ with
       | Some m => g_ascii_strcasecmp m s =? 0
       | None => false
       end, Some s)
  | _ => (false, None)
  end.

(** ** Errors ([GError]) *)

Inductive SteamApiError :=
| STEAM_API_ERROR_AUTH
| STEAM_API_ERROR_AUTH_CAPTCHA
| STEAM_API_ERROR_AUTH_GUARD
| STEAM_API_ERROR_FRIEND_ACCEPT
| STEAM_API_ERROR_FRIEND_ADD
| STEAM_API_ERROR_FRIEND_REMOVE
| STEAM_API_ERROR_KEY
| STEAM_API_ERROR_LOGOFF
| STEAM_API_ERROR_LOGON
| STEAM_API_ERROR_LOGON_EXPIRED
| STEAM_API_ERROR_RELOGON
| STEAM_API_ERROR_POLL.

(** Error domain and code: the API's own errors, the JSON parser error of
    [steam_json_new], and whatever the transport reports. *)
Inductive ErrorCode :=
| STEAM_API_ERROR (c : SteamApiError)
| STEAM_JSON_ERROR_PARSER
| TransportError (domain code : Z).

Record GError := { err_code : ErrorCode; err_message : string }.

(** [g_set_error] and [g_propagate_error] leave an error that is already set
    in place (GLib only warns). *)
Definition g_set_error (err : option GError) (c : ErrorCode) (msg : string)
  : option GError :=
  match err with
  | Some _ => err
  | None => Some {| err_code := c; err_message := msg |}
  end.

Definition g_propagate_error (dest src : option GError) : option GError :=
  match dest with
  | Some _ => dest
  | None => src
  end.

Definition g_prefix_error (err : option GError) (prefix : string)
  : option GError :=
  match err with
  | Some e => Some {| err_code := err_code e; err_message := prefix ++ err_message e |}
  | None => None
  end.

(** ** Data

    [steam-api.h], [steam-friend.h], [steam-auth.h] and [steam-http.h] are
    not among the sources; the records below have the fields the two source
    files read and write.  Integer fields hold the [gint64] they are assigned
    from. *)

Inductive SteamFriendRelation :=
| STEAM_FRIEND_RELATION_NONE
| STEAM_FRIEND_RELATION_FRIEND
| STEAM_FRIEND_RELATION_IGNORE.

Record SteamFriendSummary := {
  steamid : option string;
  nick : option string;
  fullname : option string;
  game : option string;
  server : option string;
  state : Z;
  relation : SteamFriendRelation;
  action : Z
}.

(** Address of a [SteamFriendSummary] in the store. *)
Definition addr := nat.

Record SteamApiMessage := {
  mtype : Z;
  smry : addr;
  text : option string;
  tstamp : Z
}.

Record SteamAuth := {
  cgid : option string;
  esid : option string;
  time : option string;
  key_mod : option string;
  key_exp : option string
}.

(** The bit flags of a call context and of a transport request.  The masks
    are defined in the absent headers; distinct flags are distinct bits, so a
    set of flags is a record of booleans. *)
Record SteamApiFlags := {
  STEAM_API_FLAG_NOCALL : bool;
  STEAM_API_FLAG_NOFREE : bool;
  STEAM_API_FLAG_NOJSON : bool
}.

Record SteamHttpReqFlags := {
  STEAM_HTTP_REQ_FLAG_SSL : bool;
  STEAM_HTTP_REQ_FLAG_POST : bool;
  STEAM_HTTP_REQ_FLAG_QUEUED : bool;
  STEAM_HTTP_REQ_FLAG_NOFREE : bool
}.

Inductive SteamHost := STEAM_API_HOST | STEAM_COM_HOST.

Inductive SteamPath :=
| STEAM_API_PATH_FRIENDS
| STEAM_API_PATH_LOGON
| STEAM_API_PATH_MESSAGE
| STEAM_API_PATH_POLL
| STEAM_API_PATH_SUMMARIES
| STEAM_COM_PATH_AUTH_RDIR
| STEAM_COM_PATH_CHATLOG (accid : Z).

Record SteamHttpReq := {
  host : SteamHost;
  port : Z;
  path : SteamPath;
  headers : list (string * option string);
  params : list (string * option string);
  rflags : SteamHttpReqFlags;
  body : string;
  body_size : Z;
  rerr : option GError
}.

Record SteamHttp := {
  cookies : list (string * string);
  queue_paused : bool
}.

Record SteamApi := {
  auth : option SteamAuth;
  http : SteamHttp;
  sessid : option string;
  token : option string;
  umqid : option string;
  api_steamid : option string;
  lmid : Z;
  api_tstamp : Z
}.

(** [rdata] together with [rfunc], the destroy function that tells which
    shape [rdata] has. *)
Inductive ResultData :=
| RNull
| RString (s : option string)
| RMessages (l : list SteamApiMessage)
| RSummaries (l : list addr)
| RSummary (p : addr).

(** The call context [SteamApiData].  [func] is [None] for a [NULL]
    callback; [data] is the caller's opaque pointer. *)
Record SteamApiData := {
  type : SteamApiType;
  func : option nat;
  data : nat;
  flags : SteamApiFlags;
  rdata : ResultData;
  sums : list addr;
  err : option GError;
  req : option SteamHttpReq
}.

(** What [steam_api_data_func] hands to the user's callback, one
    constructor per callback signature. *)
Inductive UserCall :=
| SteamApiFunc (e : option GError) (d : nat)
| SteamApiIdFunc (r : ResultData) (e : option GError) (d : nat)
| SteamApiListFunc (r : ResultData) (e : option GError) (d : nat)
| SteamApiSummaryFunc (r : ResultData) (e : option GError) (d : nat).

(** Calls that leave the two source files: the credential module's
    [steam_auth_captcha] and [steam_auth_email] (the spec's
    [recordCaptchaChallenge] and [recordEmailChallenge]), the transport's
    [steam_http_req_send] and [steam_http_req_resend], the user's callback,
    and the release of a context by [steam_api_data_free]. *)
Inductive Event :=
| steam_auth_captcha (gid : string)
| steam_auth_email (id : string)
| steam_http_req_send (r : SteamHttpReq)
| steam_http_req_resend (r : SteamHttpReq)
| user_callback (f : nat) (c : UserCall)
| steam_api_data_free_ev.

Record World := {
  api : SteamApi;
  heap : list SteamFriendSummary;
  trace : list Event
}.

(** ** What the two files take from elsewhere

    Constants of [steam-api.h], functions of GLib, json-parser, BitlBee and
    of the repository's transport and credential modules. *)
Class Externals := {
  STEAM_API_STEAMID : Z;
  STEAM_API_TIMEOUT : Z;
  (** [g_ascii_strtoll (s, NULL, 10)] *)
  g_ascii_strtoll : string -> Z;
  (** [json_parse_ex]: the tree, or the text of the parser's complaint *)
  json_parse_ex : string -> json_value + string;
  (** what [steam_http_req_resend] does to the flags of the request *)
  resend_flags : SteamHttpReqFlags -> SteamHttpReqFlags;
  steam_http_cookies_parse_req :
    list (string * string) -> SteamHttpReq -> list (string * string);
  steam_auth_new : SteamAuth;
  steam_auth_key_mod : SteamAuth -> string -> bool * SteamAuth;
  steam_auth_key_exp : SteamAuth -> string -> bool * SteamAuth;
  bool2int : string -> bool
}.

(** ** The monad of the embedding: a store passed along, [None] when the C
    code leaves defined behaviour. *)

Definition M (A : Type) : Type := World -> option (A * World).

Definition ret {A} (a : A) : M A := fun w => Some (a, w).

Definition bind {A B} (m : M A) (k : A -> M B) : M B :=
  fun w => match m w with
           | Some (a, w') => k a w'
           | None => None
           end.

Definition undefined {A} : M A := fun _ => None.

Notation "x <- m ;; k" := (bind m (fun x => k))
  (at level 61, m at next level, right associativity).
Notation "m ;;; k" := (bind m (fun _ => k))
  (at level 61, right associativity).

Definition get_api : M SteamApi := fun w => Some (api w, w).

Definition set_api (a : SteamApi) : M unit :=
  fun w => Some (tt, {| api := a; heap := heap w; trace := trace w |}).

Definition emit (e : Event) : M unit :=
  fun w => Some (tt, {| api := api w; heap := heap w; trace := trace w ++ [e] |}).

(** [g_new0] of a summary: it gets the next free address. *)
Definition smry_alloc (s : SteamFriendSummary) : M addr :=
  fun w => Some (List.length (heap w),
                 {| api := api w; heap := heap w ++ [s]; trace := trace w |}).

Definition smry_get (p : addr) : M SteamFriendSummary :=
  fun w => match nth_error (heap w) p with
           | Some s => Some (s, w)
           | None => None
           end.

Fixpoint list_set {A} (l : list A) (n : nat) (a : A) : list A :=
  match l, n with
  | [], _ => []
  | _ :: r, O => a :: r
  | x :: r, S n' => x :: list_set r n' a
  end.

Definition smry_put (p : addr) (s : SteamFriendSummary) : M unit :=
  fun w => match nth_error (heap w) p with
           | Some _ => Some (tt, {| api := api w; heap := list_set (heap w) p s;
                                   trace := trace w |})
           | None => None
           end.

(** ** Field updates *)

Definition sata_set_type (s : SteamApiData) (t : SteamApiType) : SteamApiData :=
  {| type := t; func := func s; data := data s; flags := flags s;
     rdata := rdata s; sums := sums s; err := err s; req := req s |}.

Definition sata_set_flags (s : SteamApiData) (f : SteamApiFlags) : SteamApiData :=
  {| type := type s; func := func s; data := data s; flags := f;
     rdata := rdata s; sums := sums s; err := err s; req := req s |}.

Definition sata_set_rdata (s : SteamApiData) (r : ResultData) : SteamApiData :=
  {| type := type s; func := func s; data := data s; flags := flags s;
     rdata := r; sums := sums s; err := err s; req := req s |}.

Definition sata_set_sums (s : SteamApiData) (l : list addr) : SteamApiData :=
  {| type := type s; func := func s; data := data s; flags := flags s;
     rdata := rdata s; sums := l; err := err s; req := req s |}.

Definition sata_set_err (s : SteamApiData) (e : option GError) : SteamApiData :=
  {| type := type s; func := func s; data := data s; flags := flags s;
     rdata := rdata s; sums := sums s; err := e; req := req s |}.

Definition sata_set_req (s : SteamApiData) (r : option SteamHttpReq) : SteamApiData :=
  {| type := type s; func := func s; data := data s; flags := flags s;
     rdata := rdata s; sums := sums s; err := err s; req := r |}.

(** [g_set_error (&sata->err, STEAM_API_ERROR, c, msg)]. *)
Definition sata_error (s : SteamApiData) (c : SteamApiError) (msg : string)
  : SteamApiData :=
  sata_set_err s (g_set_error (err s) (STEAM_API_ERROR c) msg).

(** [flags |= STEAM_API_FLAG_NOCALL | STEAM_API_FLAG_NOFREE]. *)
Definition flags_or_nocall_nofree (f : SteamApiFlags) : SteamApiFlags :=
  {| STEAM_API_FLAG_NOCALL := true; STEAM_API_FLAG_NOFREE := true;
     STEAM_API_FLAG_NOJSON := STEAM_API_FLAG_NOJSON f |}.

(** [flags &= ~(STEAM_API_FLAG_NOCALL | STEAM_API_FLAG_NOFREE)]. *)
Definition flags_clear_nocall_nofree (f : SteamApiFlags) : SteamApiFlags :=
  {| STEAM_API_FLAG_NOCALL := false; STEAM_API_FLAG_NOFREE := false;
     STEAM_API_FLAG_NOJSON := STEAM_API_FLAG_NOJSON f |}.

Definition flags_or_nofree (f : SteamApiFlags) : SteamApiFlags :=
  {| STEAM_API_FLAG_NOCALL := STEAM_API_FLAG_NOCALL f;
     STEAM_API_FLAG_NOFREE := true;
     STEAM_API_FLAG_NOJSON := STEAM_API_FLAG_NOJSON f |}.

Definition flags_or_nojson (f : SteamApiFlags) : SteamApiFlags :=
  {| STEAM_API_FLAG_NOCALL := STEAM_API_FLAG_NOCALL f;
     STEAM_API_FLAG_NOFREE := STEAM_API_FLAG_NOFREE f;
     STEAM_API_FLAG_NOJSON := true |}.

Definition no_flags : SteamApiFlags :=
  {| STEAM_API_FLAG_NOCALL := false; STEAM_API_FLAG_NOFREE := false;
     STEAM_API_FLAG_NOJSON := false |}.

Definition req_set_rflags (r : SteamHttpReq) (f : SteamHttpReqFlags) : SteamHttpReq :=
  {| host := host r; port := port r; path := path r; headers := headers r;
     params := params r; rflags := f; body := body r;
     body_size := body_size r; rerr := rerr r |}.

Definition req_set_rerr (r : SteamHttpReq) (e : option GError) : SteamHttpReq :=
  {| host := host r; port := port r; path := path r; headers := headers r;
     params := params r; rflags := rflags r; body := body r;
     body_size := body_size r; rerr := e |}.

(** [req->flags = STEAM_HTTP_REQ_FLAG_SSL]. *)
Definition rflags_ssl : SteamHttpReqFlags :=
  {| STEAM_HTTP_REQ_FLAG_SSL := true; STEAM_HTTP_REQ_FLAG_POST := false;
     STEAM_HTTP_REQ_FLAG_QUEUED := false; STEAM_HTTP_REQ_FLAG_NOFREE := false |}.

Definition rflags_or_post (f : SteamHttpReqFlags) : SteamHttpReqFlags :=
  {| STEAM_HTTP_REQ_FLAG_SSL := STEAM_HTTP_REQ_FLAG_SSL f;
     STEAM_HTTP_REQ_FLAG_POST := true;
     STEAM_HTTP_REQ_FLAG_QUEUED := STEAM_HTTP_REQ_FLAG_QUEUED f;
     STEAM_HTTP_REQ_FLAG_NOFREE := STEAM_HTTP_REQ_FLAG_NOFREE f |}.

Definition rflags_or_queued_post (f : SteamHttpReqFlags) : SteamHttpReqFlags :=
  {| STEAM_HTTP_REQ_FLAG_SSL := STEAM_HTTP_REQ_FLAG_SSL f;
     STEAM_HTTP_REQ_FLAG_POST := true;
     STEAM_HTTP_REQ_FLAG_QUEUED := true;
     STEAM_HTTP_REQ_FLAG_NOFREE := STEAM_HTTP_REQ_FLAG_NOFREE f |}.

(** Modelled from the spec: [steam_http_req_params_set] and
    [steam_http_req_headers_set] are functions of steam-http.c, which is not
    among the sources.  The spec's transport takes the headers and the
    parameters of a request; the pairs are kept in the order given. *)
Definition steam_http_req_params_set (r : SteamHttpReq)
  (ps : list (string * option string)) : SteamHttpReq :=
  {| host := host r; port := port r; path := path r; headers := headers r;
     params := params r ++ ps; rflags := rflags r; body := body r;
     body_size := body_size r; rerr := rerr r |}.

Definition steam_http_req_headers_set (r : SteamHttpReq)
  (hs : list (string * option string)) : SteamHttpReq :=
  {| host := host r; port := port r; path := path r; headers := headers r ++ hs;
     params := params r; rflags := rflags r; body := body r;
     body_size := body_size r; rerr := rerr r |}.

(** Modelled from the spec: [steam_http_req_new] is a function of
    steam-http.c, which is not among the sources.  A new request has the
    host, port and path of the spec's [send], and nothing else yet. *)
Definition steam_http_req_new (h : SteamHost) (p : Z) (pa : SteamPath) : SteamHttpReq :=
  {| host := h; port := p; path := pa; headers := []; params := [];
     rflags := {| STEAM_HTTP_REQ_FLAG_SSL := false; STEAM_HTTP_REQ_FLAG_POST := false;
                  STEAM_HTTP_REQ_FLAG_QUEUED := false;
                  STEAM_HTTP_REQ_FLAG_NOFREE := false |};
     body := ""; body_size := 0; rerr := None |}.

Definition api_set_http (a : SteamApi) (h : SteamHttp) : SteamApi :=
  {| auth := auth a; http := h; sessid := sessid a; token := token a;
     umqid := umqid a; api_steamid := api_steamid a; lmid := lmid a;
     api_tstamp := api_tstamp a |}.

Definition api_set_auth (a : SteamApi) (x : option SteamAuth) : SteamApi :=
  {| auth := x; http := http a; sessid := sessid a; token := token a;
     umqid := umqid a; api_steamid := api_steamid a; lmid := lmid a;
     api_tstamp := api_tstamp a |}.

Definition api_set_sessid (a : SteamApi) (x : option string) : SteamApi :=
  {| auth := auth a; http := http a; sessid := x; token := token a;
     umqid := umqid a; api_steamid := api_steamid a; lmid := lmid a;
     api_tstamp := api_tstamp a |}.

Definition api_set_token (a : SteamApi) (x : option string) : SteamApi :=
  {| auth := auth a; http := http a; sessid := sessid a; token := x;
     umqid := umqid a; api_steamid := api_steamid a; lmid := lmid a;
     api_tstamp := api_tstamp a |}.

Definition api_set_umqid (a : SteamApi) (x : option string) : SteamApi :=
  {| auth := auth a; http := http a; sessid := sessid a; token := token a;
     umqid := x; api_steamid := api_steamid a; lmid := lmid a;
     api_tstamp := api_tstamp a |}.

Definition api_set_steamid (a : SteamApi) (x : option string) : SteamApi :=
  {| auth := auth a; http := http a; sessid := sessid a; token := token a;
     umqid := umqid a; api_steamid := x; lmid := lmid a;
     api_tstamp := api_tstamp a |}.

Definition api_set_lmid (a : SteamApi) (x : Z) : SteamApi :=
  {| auth := auth a; http := http a; sessid := sessid a; token := token a;
     umqid := umqid a; api_steamid := api_steamid a; lmid := x;
     api_tstamp := api_tstamp a |}.

Definition api_set_tstamp (a : SteamApi) (x : Z) : SteamApi :=
  {| auth := auth a; http := http a; sessid := sessid a; token := token a;
     umqid := umqid a; api_steamid := api_steamid a; lmid := lmid a;
     api_tstamp := x |}.

Definition auth_set_time (a : SteamAuth) (x : option string) : SteamAuth :=
  {| cgid := cgid a; esid := esid a; time := x; key_mod := key_mod a;
     key_exp := key_exp a |}.

(** Modelled from the spec: [steam_friend_summary_new] is a function of
    steam-friend.c, which is not among the sources.  A profile summary made
    for an identity has that identity, relationship none, and its other
    attributes empty or zero. *)
Definition steam_friend_summary_new (id : option string) : SteamFriendSummary :=
  {| steamid := id; nick := None; fullname := None; game := None;
     server := None; state := 0; relation := STEAM_FRIEND_RELATION_NONE;
     action := 0 |}.

Definition smry_set_steamid (s : SteamFriendSummary) (x : option string) :=
  {| steamid := x; nick := nick s; fullname := fullname s; game := game s;
     server := server s; state := state s; relation := relation s;
     action := action s |}.

Definition smry_set_nick (s : SteamFriendSummary) (x : option string) :=
  {| steamid := steamid s; nick := x; fullname := fullname s; game := game s;
     server := server s; state := state s; relation := relation s;
     action := action s |}.

Definition smry_set_relation (s : SteamFriendSummary) (x : SteamFriendRelation) :=
  {| steamid := steamid s; nick := nick s; fullname := fullname s; game := game s;
     server := server s; state := state s; relation := x;
     action := action s |}.

Definition smry_set_action (s : SteamFriendSummary) (x : Z) :=
  {| steamid := steamid s; nick := nick s; fullname := fullname s; game := game s;
     server := server s; state := state s; relation := relation s;
     action := x |}.

(** Modelled from the spec: [steam_http_queue_pause] is a function of
    steam-http.c, which is not among the sources.  The spec's transport has
    [pauseQueue(bool)]: a pause flag on the queue of requests. *)
Definition steam_http_queue_pause (pause : bool) : M unit :=
  a <- get_api ;;
  set_api (api_set_http a {| cookies := cookies (http a); queue_paused := pause |}).

(** ** [GTree] keyed by [g_ascii_strcasecmp], as [steam_json_tree] builds
    it: the bindings in key order. *)

Fixpoint g_tree_lookup (t : list (string * string)) (k : string) : option string :=
  match t with
  | [] => None
  | (k', v) :: r =>
      if g_ascii_strcasecmp k k' =? 0 then Some v else g_tree_lookup r k
  end.

Fixpoint g_tree_replace (t : list (string * string)) (k v : string)
  : list (string * string) :=
  match t with
  | [] => [(k, v)]
  | (k', v') :: r =>
      let c := g_ascii_strcasecmp k k' in
      if c =? 0 then (k, v) :: r
      else if c <? 0 then (k, v) :: t
      else (k', v') :: g_tree_replace r k v
  end.

(** The tail of [steam_json_tree_prop], after the [switch]. *)
Definition tree_prop_leaf (tree : list (string * string)) (key : option string)
  (val : string) : list (string * string) :=
  match key with
  | None => tree
  | Some k =>
      match g_tree_lookup tree k with
      | Some cval => g_tree_replace tree k (cval ++ "," ++ val)
      | None => g_tree_replace tree k val
      end
  end.

Fixpoint steam_json_tree_prop (tree : list (string * string))
  (key : option string) (json : json_value) {struct json}
  : list (string * string) :=
  match json with
  | JObject es =>
      (fix entries (l : list (string * json_value)) (t : list (string * string)) :=
         match l with
         | [] => t
         | (k, jv) :: r => entries r (steam_json_tree_prop t (Some k) jv)
         end) es tree
  | JArray vs =>
      (fix values (l : list json_value) (t : list (string * string)) :=
         match l with
         | [] => t
         | jv :: r => values r (steam_json_tree_prop t key jv)
         end) vs tree
  | JInteger i => tree_prop_leaf tree key (string_of_Z i)
  | JDouble d => tree_prop_leaf tree key d
  | JString s => tree_prop_leaf tree key s
  | JBoolean b => tree_prop_leaf tree key (if b then "true" else "false")
  | JNull => tree_prop_leaf tree key "null"
  end.

Definition steam_json_tree (json : json_value) : list (string * string) :=
  match json with
  | JObject _ => steam_json_tree_prop [] None json
  | _ => []
  end.

(** ** steam-api.c *)

Section Engine.

Context {ext : Externals}.

Definition steam_api_accountid_int (id : Z) : Z :=
  int64 (id - STEAM_API_STEAMID).

Definition steam_api_accountid_str (id : option string) : Z :=
  match id with
  | None => 0
  | Some s => steam_api_accountid_int (g_ascii_strtoll s)
  end.

Definition steam_api_steamid_int (accid : Z) : Z :=
  int64 (accid + STEAM_API_STEAMID).

Definition steam_api_steamid_str (accid : option string) : Z :=
  match accid with
  | None => 0
  | Some s => steam_api_steamid_int (g_ascii_strtoll s)
  end.

(** [steam_json_new] of steam-json.c: the tree, and the caller's error
    slot after the call. *)
Definition steam_json_new (data_ : string) (e : option GError)
  : option json_value * option GError :=
  match json_parse_ex data_ with
  | inl json => (Some json, e)
  | inr estr => (None, g_set_error e STEAM_JSON_ERROR_PARSER ("Parser: " ++ estr))
  end.

Definition steam_api_data_new (t : SteamApiType) (f : option nat) (d : nat)
  : SteamApiData :=
  {| type := t; func := f; data := d; flags := no_flags; rdata := RNull;
     sums := []; err := None; req := None |}.

Definition steam_api_data_free : M unit := emit steam_api_data_free_ev.

(** The [switch] of [steam_api_data_func]: the callback signature the call
    type selects, with the arguments it is given. *)
Definition data_call (sata : SteamApiData) : UserCall :=
  match type sata with
  | STEAM_API_TYPE_AUTH | STEAM_API_TYPE_AUTH_RDIR | STEAM_API_TYPE_KEY
  | STEAM_API_TYPE_LOGOFF | STEAM_API_TYPE_LOGON | STEAM_API_TYPE_RELOGON
  | STEAM_API_TYPE_MESSAGE =>
      SteamApiFunc (err sata) (data sata)
  | STEAM_API_TYPE_FRIEND_ACCEPT | STEAM_API_TYPE_FRIEND_ADD
  | STEAM_API_TYPE_FRIEND_IGNORE | STEAM_API_TYPE_FRIEND_REMOVE =>
      SteamApiIdFunc (rdata sata) (err sata) (data sata)
  | STEAM_API_TYPE_CHATLOG | STEAM_API_TYPE_FRIEND_SEARCH
  | STEAM_API_TYPE_FRIENDS | STEAM_API_TYPE_POLL =>
      SteamApiListFunc (rdata sata) (err sata) (data sata)
  | STEAM_API_TYPE_SUMMARY =>
      SteamApiSummaryFunc (rdata sata) (err sata) (data sata)
  end.

Definition steam_api_data_func (sata : SteamApiData) : M unit :=
  match func sata with
  | None => ret tt
  | Some f => emit (user_callback f (data_call sata))
  end.

Definition steam_api_message_new (id : option string) : M SteamApiMessage :=
  p <- smry_alloc (steam_friend_summary_new id) ;;
  ret {| mtype := 0; smry := p; text := None; tstamp := 0 |}.

Definition steam_friend_summary_json (p : addr) (json : option json_value)
  : M unit :=
  s <- smry_get p ;;
  smry_put p
    {| steamid := steamid s;
       nick := snd (steam_json_str json "personaname");
       fullname := snd (steam_json_str json "realname");
       game := snd (steam_json_str json "gameextrainfo");
       server := snd (steam_json_str json "gameserverip");
       state := snd (steam_json_int json "personastate");
       relation := relation s;
       action := action s |}.

Definition steam_api_data_req (sata : SteamApiData) (h : SteamHost)
  (pa : SteamPath) : SteamApiData :=
  sata_set_req sata (Some (req_set_rflags (steam_http_req_new h 443 pa) rflags_ssl)).

(** The request of the context, which the code dereferences unchecked. *)
Definition sata_req (sata : SteamApiData) : M SteamHttpReq :=
  match req sata with
  | Some r => ret r
  | None => undefined
  end.

Definition steam_api_data_relogon (sata : SteamApiData) : M SteamApiData :=
  let sata := sata_error sata STEAM_API_ERROR_LOGON_EXPIRED "Logon session expired" in
  steam_http_queue_pause true ;;;
  r <- sata_req sata ;;
  emit (steam_http_req_resend r) ;;;
  ret (sata_set_req sata (Some (req_set_rflags r (resend_flags (rflags r))))).

(** [g_tree_foreach (params, steam_api_params, req)]. *)
Definition steam_api_params (r : SteamHttpReq) (prms : list (string * string))
  : SteamHttpReq :=
  fold_left (fun r kv => steam_http_req_params_set r [(fst kv, Some (snd kv))])
            prms r.

Definition steam_api_auth_rdir (sata : SteamApiData)
  (prms : list (string * string)) : M SteamApiData :=
  let sata := steam_api_data_req sata STEAM_COM_HOST STEAM_COM_PATH_AUTH_RDIR in
  r <- sata_req sata ;;
  let r := steam_api_params r prms in
  let sata := sata_set_type sata STEAM_API_TYPE_AUTH_RDIR in
  let sata := sata_set_flags sata (flags_or_nojson (flags sata)) in
  let r := req_set_rflags r (rflags_or_post (rflags r)) in
  emit (steam_http_req_send r) ;;;
  ret (sata_set_req sata (Some r)).

Definition steam_api_auth_cb (sata : SteamApiData) (json : option json_value)
  : M SteamApiData :=
  match steam_json_str json "captcha_gid" with
  | (true, Some str) => emit (steam_auth_captcha str)
  | _ => ret tt
  end ;;;
  match steam_json_str json "emailsteamid" with
  | (true, Some str) => emit (steam_auth_email str)
  | _ => ret tt
  end ;;;
  if negb (steam_json_bool json "success") then
    let e := if steam_json_bool json "emailauth_needed" then STEAM_API_ERROR_AUTH_GUARD
             else if steam_json_bool json "captcha_needed" then STEAM_API_ERROR_AUTH_CAPTCHA
             else STEAM_API_ERROR_AUTH in
    let str := match steam_json_str json "message" with
               | (true, s) => s
               | (false, _) => Some "Failed to authenticate"
               end in
    ret (sata_error sata e (fmt_s str))
  else
    match steam_json_str json "oauth" with
    | (true, Some str) =>
        match steam_json_new str (err sata) with
        | (None, e) => ret (sata_set_err sata e)
        | (Some json2, e) =>
            let sata := sata_set_err sata e in
            match steam_json_str (Some json2) "oauth_token" with
            | (true, tok) =>
                a <- get_api ;;
                set_api (api_set_token a tok) ;;;
                let prms := steam_json_tree json2 in
                let sata := sata_set_flags sata (flags_or_nocall_nofree (flags sata)) in
                steam_api_auth_rdir sata prms
            | (false, _) =>
                ret (sata_error sata STEAM_API_ERROR_AUTH "Failed to obtain OAuth token")
            end
        end
    | _ => ret (sata_error sata STEAM_API_ERROR_AUTH "Failed to obtain OAuth sata")
    end.

(** The cookie jar is a [GTree] of the transport; a name is looked up as it
    is written. *)
Fixpoint cookies_lookup (c : list (string * string)) (name : string)
  : option string :=
  match c with
  | [] => None
  | (k, v) :: r => if String.eqb k name then Some v else cookies_lookup r name
  end.

Definition steam_api_auth_rdir_cb (sata : SteamApiData)
  (json : option json_value) : M SteamApiData :=
  a <- get_api ;;
  r <- sata_req sata ;;
  let c := steam_http_cookies_parse_req (cookies (http a)) r in
  let a := api_set_http a {| cookies := c; queue_paused := queue_paused (http a) |} in
  set_api a ;;;
  match cookies_lookup c "sessionid" with
  | None =>
      ret (sata_error sata STEAM_API_ERROR_AUTH "Failed to obtain OAuth session ID")
  | Some str => set_api (api_set_sessid a (Some str)) ;;; ret sata
  end.

(** The loop of [steam_api_chatlog_cb]; [messages] is the list built by
    prepending. *)
Fixpoint chatlog_loop (accid : Z) (vs : list json_value)
  (messages : list SteamApiMessage) : M (list SteamApiMessage) :=
  match vs with
  | [] => ret messages
  | jv :: rest =>
      match steam_json_int (Some jv) "m_unAccountID" with
      | (true, i) =>
          if i =? accid then chatlog_loop accid rest messages
          else
            let i := steam_api_steamid_int i in
            mesg <- steam_api_message_new None ;;
            s <- smry_get (smry mesg) ;;
            smry_put (smry mesg) (smry_set_steamid s (Some (string_of_Z i))) ;;;
            let mesg :=
              {| mtype := STEAM_API_MESSAGE_TYPE_SAYTEXT;
                 smry := smry mesg;
                 text := snd (steam_json_str (Some jv) "m_strMessage");
                 tstamp := snd (steam_json_int (Some jv) "m_tsTimestamp") |} in
            chatlog_loop accid rest (mesg :: messages)
      | (false, _) => chatlog_loop accid rest messages
      end
  end.

(** A body that is not an array is read through the array member of the
    union all the same; the model stops there. *)
Definition steam_api_chatlog_cb (sata : SteamApiData)
  (json : option json_value) : M SteamApiData :=
  a <- get_api ;;
  let accid := steam_api_accountid_str (api_steamid a) in
  match json with
  | Some (JArray vs) =>
      messages <- chatlog_loop accid vs [] ;;
      ret (sata_set_rdata sata (RMessages (rev messages)))
  | _ => undefined
  end.

Definition steam_api_friend_accept_cb (sata : SteamApiData)
  (json : option json_value) : M SteamApiData :=
  match steam_json_scmp json "error_text" (Some "") with
  | (true, str) => ret (sata_error sata STEAM_API_ERROR_FRIEND_ACCEPT (fmt_s str))
  | (false, _) => ret sata
  end.

Definition steam_api_friend_add_cb (sata : SteamApiData)
  (json : option json_value) : M SteamApiData :=
  match steam_json_val json "failed_invites_result" json_array with
  | (true, Some (JArray vs)) =>
      if Z.of_nat (List.length vs) <? 1 then ret sata
      else ret (sata_error sata STEAM_API_ERROR_FRIEND_ADD "Failed to add friend")
  | _ => ret sata
  end.

Definition steam_api_friend_ignore_cb (sata : SteamApiData)
  (json : option json_value) : M SteamApiData := ret sata.

Definition steam_api_friend_remove_cb (sata : SteamApiData)
  (json : option json_value) : M SteamApiData :=
  r <- sata_req sata ;;
  if (body_size r >? 0) && bool2int (body r) then ret sata
  else ret (sata_error sata STEAM_API_ERROR_FRIEND_REMOVE "Failed to remove friend").

Fixpoint friend_search_loop (vs : list json_value) (results : list addr)
  : M (list addr) :=
  match vs with
  | [] => ret results
  | je :: rest =>
      match steam_json_scmp (Some je) "type" (Some "user") with
      | (true, _) =>
          match steam_json_str (Some je) "steamid" with
          | (true, str) =>
              p <- smry_alloc (smry_set_nick (steam_friend_summary_new str)
                                 (snd (steam_json_str (Some je) "matchingtext"))) ;;
              friend_search_loop rest (p :: results)
          | (false, _) => friend_search_loop rest results
          end
      | (false, _) => friend_search_loop rest results
      end
  end.

Definition steam_api_friend_search_cb (sata : SteamApiData)
  (json : option json_value) : M SteamApiData :=
  match steam_json_val json "results" json_array with
  | (true, Some (JArray vs)) =>
      results <- friend_search_loop vs [] ;;
      ret (sata_set_rdata sata (RSummaries (rev results)))
  | _ => ret sata
  end.

(** The relationship a friends entry is kept under, if it is kept. *)
Definition friends_relation (str : string) : option SteamFriendRelation :=
  if g_ascii_strcasecmp str "friend" =? 0 then Some STEAM_FRIEND_RELATION_FRIEND
  else if g_ascii_strcasecmp str "ignoredfriend" =? 0 then Some STEAM_FRIEND_RELATION_IGNORE
  else None.

(** The loop of [steam_api_friends_cb]: [friends] and [sata->sums] are both
    built by prepending the address of the new summary. *)
Fixpoint friends_loop (vs : list json_value) (friends : list addr)
  (sata : SteamApiData) : M (list addr * SteamApiData) :=
  match vs with
  | [] => ret (friends, sata)
  | je :: rest =>
      match snd (steam_json_str (Some je) "relationship") with
      | None => friends_loop rest friends sata
      | Some str =>
          match friends_relation str with
          | None => friends_loop rest friends sata
          | Some rlat =>
              match steam_json_str (Some je) "steamid" with
              | (true, id) =>
                  p <- smry_alloc (smry_set_relation (steam_friend_summary_new id) rlat) ;;
                  friends_loop rest (p :: friends)
                               (sata_set_sums sata (p :: sums sata))
              | (false, _) => friends_loop rest friends sata
              end
          end
      end
  end.

Definition steam_api_friends_cb (sata : SteamApiData)
  (json : option json_value) : M SteamApiData :=
  match steam_json_val json "friends" json_array with
  | (true, Some (JArray vs)) =>
      fs <- friends_loop vs [] sata ;;
      ret (sata_set_rdata (snd fs) (RSummaries (fst fs)))
  | _ => ret sata
  end.

Definition key_error (sata : SteamApiData) : SteamApiData :=
  sata_error sata STEAM_API_ERROR_KEY "Failed to retrieve authentication key".

(** [auth] is [api->auth] itself when that is set, so what the key setters
    do to it stays; a fresh [steam_auth_new ()] is only stored on success. *)
Definition steam_api_key_cb (sata : SteamApiData) (json : option json_value)
  : M SteamApiData :=
  if fst (steam_json_scmp json "success" (Some "false")) then ret (key_error sata)
  else
    a <- get_api ;;
    let keep (x : SteamAuth) : M unit :=
      match auth a with
      | Some _ => set_api (api_set_auth a (Some x))
      | None => ret tt
      end in
    let au := match auth a with Some x => x | None => steam_auth_new end in
    match steam_json_str json "publickey_mod" with
    | (true, Some str) =>
        let (ok, au) := steam_auth_key_mod au str in
        if negb ok then keep au ;;; ret (key_error sata)
        else
          match steam_json_str json "publickey_exp" with
          | (true, Some str) =>
              let (ok, au) := steam_auth_key_exp au str in
              if negb ok then keep au ;;; ret (key_error sata)
              else
                let au := match steam_json_str json "timestamp" with
                          | (true, t) => auth_set_time au t
                          | (false, _) => au
                          end in
                set_api (api_set_auth a (Some au)) ;;; ret sata
          | _ => keep au ;;; ret (key_error sata)
          end
    | _ => ret (key_error sata)
    end.

Definition steam_api_logon_cb (sata : SteamApiData) (json : option json_value)
  : M SteamApiData :=
  match steam_json_scmp json "error" (Some "OK") with
  | (false, str) => ret (sata_error sata STEAM_API_ERROR_LOGON (fmt_s str))
  | (true, _) =>
      a <- get_api ;;
      let a := api_set_lmid a (snd (steam_json_int json "message")) in
      let a := api_set_tstamp a (snd (steam_json_int json "utc_timestamp")) in
      let a := match steam_json_scmp json "steamid" (api_steamid a) with
               | (false, str) => api_set_steamid a str
               | (true, _) => a
               end in
      let a := match steam_json_scmp json "umqid" (umqid a) with
               | (false, str) => api_set_umqid a str
               | (true, _) => a
               end in
      set_api a ;;; ret sata
  end.

Definition steam_api_relogon_cb (sata : SteamApiData) (json : option json_value)
  : M SteamApiData :=
  steam_http_queue_pause false ;;;
  match steam_json_scmp json "error" (Some "OK") with
  | (true, _) => ret sata
  | (false, str) => ret (sata_error sata STEAM_API_ERROR_RELOGON (fmt_s str))
  end.

Definition steam_api_logoff_cb (sata : SteamApiData) (json : option json_value)
  : M SteamApiData :=
  match steam_json_scmp json "error" (Some "OK") with
  | (true, _) => ret sata
  | (false, str) => ret (sata_error sata STEAM_API_ERROR_LOGOFF (fmt_s str))
  end.

(** [g_ascii_strcasecmp] called with a pointer that may be [NULL]: GLib's
    [g_return_val_if_fail] makes it answer [0] then. *)
Definition g_ascii_strcasecmp_ptr (s1 : option string) (s2 : string) : Z :=
  match s1 with
  | None => 0
  | Some s => g_ascii_strcasecmp s s2
  end.

Definition steam_api_message_cb (sata : SteamApiData) (json : option json_value)
  : M SteamApiData :=
  match steam_json_scmp json "error" (Some "OK") with
  | (true, _) => ret sata
  | (false, str) =>
      if g_ascii_strcasecmp_ptr str "Not Logged On" =? 0 then
        steam_api_data_relogon sata
      else ret (sata_error sata STEAM_API_ERROR_LOGOFF (fmt_s str))
  end.

(** The loop of [steam_api_poll_cb]. *)
Fixpoint poll_loop (vs : list json_value) (messages : list SteamApiMessage)
  (sata : SteamApiData) : M (list SteamApiMessage * SteamApiData) :=
  match vs with
  | [] => ret (messages, sata)
  | je :: rest =>
      a <- get_api ;;
      match steam_json_scmp (Some je) "steamid_from" (api_steamid a) with
      | (true, _) => poll_loop rest messages sata
      | (false, str) =>
          mesg <- steam_api_message_new str ;;
          let str := snd (steam_json_str (Some je) "type") in
          let i := snd (steam_json_int (Some je) "utc_timestamp") in
          let ty := steam_api_message_type_from_str str in
          let mesg := {| mtype := ty; smry := smry mesg; text := text mesg;
                         tstamp := i |} in
          if (ty =? STEAM_API_MESSAGE_TYPE_SAYTEXT) || (ty =? STEAM_API_MESSAGE_TYPE_EMOTE)
          then
            let mesg := {| mtype := ty; smry := smry mesg;
                           text := snd (steam_json_str (Some je) "text");
                           tstamp := i |} in
            poll_loop rest (mesg :: messages) sata
          else if ty =? STEAM_API_MESSAGE_TYPE_STATE then
            s <- smry_get (smry mesg) ;;
            smry_put (smry mesg)
                     (smry_set_nick s (snd (steam_json_str (Some je) "persona_name"))) ;;;
            poll_loop rest (mesg :: messages)
                      (sata_set_sums sata (smry mesg :: sums sata))
          else if ty =? STEAM_API_MESSAGE_TYPE_RELATIONSHIP then
            s <- smry_get (smry mesg) ;;
            smry_put (smry mesg)
                     (smry_set_action s (snd (steam_json_int (Some je) "persona_state"))) ;;;
            poll_loop rest (mesg :: messages)
                      (sata_set_sums sata (smry mesg :: sums sata))
          else if (ty =? STEAM_API_MESSAGE_TYPE_TYPING) || (ty =? STEAM_API_MESSAGE_TYPE_LEFT_CONV)
          then poll_loop rest (mesg :: messages) sata
          else poll_loop rest messages sata
      end
  end.

(** The condition of the first [if] of [steam_api_poll_cb]: the error
    string, when there is one and it is neither "Timeout" nor "OK". *)
Definition poll_error_gate (json : option json_value) : option string :=
  match steam_json_str json "error" with
  | (true, Some str) =>
      if negb (g_ascii_strcasecmp str "Timeout" =? 0)
         && negb (g_ascii_strcasecmp str "OK" =? 0)
      then Some str else None
  | _ => None
  end.

(** [size]: the length of the ["messages"] array, [0] without one. *)
Definition poll_size (json : option json_value) : Z :=
  match steam_json_val json "messages" json_array with
  | (true, Some (JArray vs)) => Z.of_nat (List.length vs)
  | _ => 0
  end.

(** The condition of the timeout check. *)
Definition poll_timeout_low (json : option json_value) : bool :=
  let (ok, i) := steam_json_int json "sectimeout" in
  negb ok || ((i <? STEAM_API_TIMEOUT) && (poll_size json <? 1)).

(** The three early exits of [steam_api_poll_cb] are kept as written: the
    error-string gate, the timeout check, the cursor check.  After them the
    loop reads [jv->u.array] whatever [steam_json_val] answered: with no
    ["messages"] member that is a [NULL] dereference, with a member of
    another kind a read of the wrong union member. *)
Definition steam_api_poll_cb (sata : SteamApiData) (json : option json_value)
  : M SteamApiData :=
  match poll_error_gate json with
  | Some str =>
      if g_ascii_strcasecmp str "Not Logged On" =? 0 then
        steam_api_data_relogon sata
      else ret (sata_error sata STEAM_API_ERROR_POLL str)
  | None =>
      let jv := snd (steam_json_val json "messages" json_array) in
      if poll_timeout_low json then
        ret (sata_error sata STEAM_API_ERROR_POLL
               ("Timeout of " ++ string_of_Z (snd (steam_json_int json "sectimeout"))
                  ++ " too low"))
      else
        a <- get_api ;;
        let (ok, i) := steam_json_int json "messagelast" in
        if negb ok || (i =? lmid a) then ret sata
        else
          set_api (api_set_lmid a i) ;;;
          match jv with
          | Some (JArray vs) =>
              ms <- poll_loop vs [] sata ;;
              ret (sata_set_rdata (snd ms) (RMessages (rev (fst ms))))
          | _ => undefined
          end
  end.

(** [gstr->str[gstr->len - 1] = 0]. *)
Fixpoint string_drop_last (s : string) : string :=
  match s with
  | EmptyString => EmptyString
  | String c EmptyString => EmptyString
  | String c r => String c (string_drop_last r)
  end.

(** The loop of [steam_api_summaries] from list position [l], with the keys
    of the hash table [tbl] in the order they were added, the text [gstr]
    and the counter [i].  [g_str_hash] dereferences its key: a summary
    without an identity stops the model. *)
Fixpoint summaries_collect (l : list addr) (tbl : list string) (gstr : string)
  (i : Z) : M (list string * string) :=
  match l with
  | [] => ret (tbl, gstr)
  | p :: rest =>
      s <- smry_get p ;;
      match steamid s with
      | None => undefined
      | Some id =>
          if existsb (String.eqb id) tbl then summaries_collect rest tbl gstr i
          else
            let tbl := (tbl ++ [id])%list in
            let gstr := gstr ++ id ++ "," in
            if (i + 1) mod 100 =? 0 then ret (tbl, gstr)
            else summaries_collect rest tbl gstr (i + 1)
      end
  end.

Definition steam_api_summaries (sata : SteamApiData) : M SteamApiData :=
  match sums sata with
  | [] => ret sata
  | _ :: _ =>
      let sata := sata_set_flags sata (flags_or_nocall_nofree (flags sata)) in
      tg <- summaries_collect (sums sata) [] "" 0 ;;
      let sata := steam_api_data_req sata STEAM_API_HOST STEAM_API_PATH_SUMMARIES in
      a <- get_api ;;
      r <- sata_req sata ;;
      let r := steam_http_req_params_set r
                 [ ("access_token", token a);
                   ("steamids", Some (string_drop_last (snd tg))) ] in
      emit (steam_http_req_send r) ;;;
      ret (sata_set_req sata (Some r))
  end.

(** The inner loop of [steam_api_summaries_cb]: every pending summary whose
    identity is [str] is unlinked from the list and filled from [je]. *)
Fixpoint summaries_fill (str : string) (je : json_value) (l : list addr)
  : M (list addr) :=
  match l with
  | [] => ret []
  | p :: rest =>
      s <- smry_get p ;;
      if negb (g_strcmp0 (steamid s) (Some str) =? 0) then
        l' <- summaries_fill str je rest ;;
        ret (p :: l')
      else
        steam_friend_summary_json p (Some je) ;;;
        summaries_fill str je rest
  end.

Fixpoint summaries_players (vs : list json_value) (sata : SteamApiData)
  : M SteamApiData :=
  match vs with
  | [] => ret sata
  | je :: rest =>
      match steam_json_str (Some je) "steamid" with
      | (true, Some str) =>
          l <- summaries_fill str je (sums sata) ;;
          summaries_players rest (sata_set_sums sata l)
      | _ => summaries_players rest sata
      end
  end.

Definition steam_api_summaries_cb (sata : SteamApiData)
  (json : option json_value) : M SteamApiData :=
  match steam_json_val json "players" json_array with
  | (true, Some (JArray vs)) =>
      if Z.of_nat (List.length vs) <? 1 then ret sata
      else
        sata <- summaries_players vs sata ;;
        steam_api_summaries sata
  | _ => ret sata
  end.

Definition steam_api_summary_cb (sata : SteamApiData) (json : option json_value)
  : M SteamApiData :=
  match steam_json_val json "players" json_array with
  | (true, Some (JArray (jv :: _))) =>
      match steam_json_str (Some jv) "steamid" with
      | (true, str) =>
          p <- smry_alloc (steam_friend_summary_new str) ;;
          steam_friend_summary_json p (Some jv) ;;;
          ret (sata_set_rdata sata (RSummary p))
      | (false, _) => ret sata
      end
  | _ => ret sata
  end.

(** The table [pfuncs] of [steam_api_cb]. *)
Definition pfuncs (t : SteamApiType)
  : SteamApiData -> option json_value -> M SteamApiData :=
  match t with
  | STEAM_API_TYPE_AUTH => steam_api_auth_cb
  | STEAM_API_TYPE_AUTH_RDIR => steam_api_auth_rdir_cb
  | STEAM_API_TYPE_CHATLOG => steam_api_chatlog_cb
  | STEAM_API_TYPE_FRIEND_ACCEPT => steam_api_friend_accept_cb
  | STEAM_API_TYPE_FRIEND_ADD => steam_api_friend_add_cb
  | STEAM_API_TYPE_FRIEND_IGNORE => steam_api_friend_ignore_cb
  | STEAM_API_TYPE_FRIEND_REMOVE => steam_api_friend_remove_cb
  | STEAM_API_TYPE_FRIEND_SEARCH => steam_api_friend_search_cb
  | STEAM_API_TYPE_FRIENDS => steam_api_friends_cb
  | STEAM_API_TYPE_KEY => steam_api_key_cb
  | STEAM_API_TYPE_LOGOFF => steam_api_logoff_cb
  | STEAM_API_TYPE_LOGON => steam_api_logon_cb
  | STEAM_API_TYPE_RELOGON => steam_api_relogon_cb
  | STEAM_API_TYPE_MESSAGE => steam_api_message_cb
  | STEAM_API_TYPE_POLL => steam_api_poll_cb
  | STEAM_API_TYPE_SUMMARY => steam_api_summary_cb
  end.

(** The first part of [steam_api_cb]: the transport's error is adopted, or
    the body is parsed.  [r] is the request the transport hands back, which
    is the request of the context. *)
Definition steam_api_cb_input (r : SteamHttpReq) (sata : SteamApiData)
  : option json_value * SteamApiData :=
  match rerr r with
  | Some e =>
      (None, sata_set_req (sata_set_err sata (g_propagate_error (err sata) (Some e)))
                          (Some (req_set_rerr r None)))
  | None =>
      if negb (STEAM_API_FLAG_NOJSON (flags sata)) then
        let (json, e) := steam_json_new (body r) (err sata) in
        (json, sata_set_req (sata_set_err sata e) (Some r))
      else (None, sata_set_req sata (Some r))
  end.

(** The middle part of [steam_api_cb]: with no error so far, a context
    without pending summaries goes to the parser of its call type and then,
    if the parser left summaries pending, to [steam_api_summaries]; a context
    with pending summaries takes the response as a summaries response. *)
Definition steam_api_cb_parse (sata : SteamApiData) (json : option json_value)
  : M SteamApiData :=
  match err sata with
  | None =>
      match sums sata with
      | [] =>
          sata <- pfuncs (type sata) sata json ;;
          match sums sata with
          | [] => ret sata
          | _ :: _ => steam_api_summaries sata
          end
      | _ :: _ =>
          match json with
          | Some _ => steam_api_summaries_cb sata json
          | None => ret sata
          end
      end
  | Some _ => ret sata
  end.

(** The last part of [steam_api_cb]: the error is prefixed with the label of
    the call type, the user's callback is called unless [NOCALL] is set, and
    the context is released unless it or its request is flagged [NOFREE].
    The result is the context when it is kept, [None] when it has been
    released. *)
Definition steam_api_cb_finish (sata : SteamApiData) : M (option SteamApiData) :=
  sata <- match err sata with
          | Some _ =>
              match steam_api_type_str (type_int (type sata)) with
              | Some label =>
                  ret (sata_set_err sata (g_prefix_error (err sata) (label ++ ": ")))
              | None => undefined
              end
          | None => ret sata
          end ;;
  (if negb (STEAM_API_FLAG_NOCALL (flags sata)) then steam_api_data_func sata
   else ret tt) ;;;
  rq <- sata_req sata ;;
  let sata := if STEAM_HTTP_REQ_FLAG_NOFREE (rflags rq)
              then sata_set_flags sata (flags_or_nofree (flags sata))
              else sata in
  if negb (STEAM_API_FLAG_NOFREE (flags sata)) then
    steam_api_data_free ;;; ret None
  else ret (Some (sata_set_flags sata (flags_clear_nocall_nofree (flags sata)))).

(** [steam_api_cb]. *)
Definition steam_api_cb (r : SteamHttpReq) (sata : SteamApiData)
  : M (option SteamApiData) :=
  if (type_int (type sata) <? 0) || (type_int (type sata) >? STEAM_API_TYPE_LAST)
  then ret (Some sata)
  else
    let (json, sata) := steam_api_cb_input r sata in
    sata <- steam_api_cb_parse sata json ;;
    steam_api_cb_finish sata.

(** ** Senders *)

Definition steam_api_chatlog (id : option string) (f : option nat) (d : nat)
  : M SteamApiData :=
  a <- get_api ;;
  let i := steam_api_accountid_str id in
  let sata := steam_api_data_new STEAM_API_TYPE_CHATLOG f d in
  let sata := steam_api_data_req sata STEAM_COM_HOST (STEAM_COM_PATH_CHATLOG i) in
  r <- sata_req sata ;;
  let r := steam_http_req_params_set r [ ("sessionid", sessid a) ] in
  let r := req_set_rflags r (rflags_or_post (rflags r)) in
  emit (steam_http_req_send r) ;;;
  ret (sata_set_req sata (Some r)).

Definition steam_api_friends (f : option nat) (d : nat) : M SteamApiData :=
  a <- get_api ;;
  let sata := steam_api_data_new STEAM_API_TYPE_FRIENDS f d in
  let sata := steam_api_data_req sata STEAM_API_HOST STEAM_API_PATH_FRIENDS in
  r <- sata_req sata ;;
  let r := steam_http_req_params_set r
             [ ("access_token", token a); ("steamid", api_steamid a);
               ("relationship", Some "friend,ignoredfriend") ] in
  emit (steam_http_req_send r) ;;;
  ret (sata_set_req sata (Some r)).

Definition steam_api_relogon (f : option nat) (d : nat) : M SteamApiData :=
  a <- get_api ;;
  let sata := steam_api_data_new STEAM_API_TYPE_RELOGON f d in
  let sata := steam_api_data_req sata STEAM_API_HOST STEAM_API_PATH_LOGON in
  r <- sata_req sata ;;
  let r := steam_http_req_params_set r
             [ ("access_token", token a); ("umqid", umqid a) ] in
  let r := req_set_rflags r (rflags_or_post (rflags r)) in
  steam_http_queue_pause true ;;;
  emit (steam_http_req_send r) ;;;
  ret (sata_set_req sata (Some r)).

(** [steam_api_message].  The label of the message type is looked up
    before the [switch] on the type; for a type that is not sent the request
    is dropped and nothing is returned. *)
Definition steam_api_message (mesg : SteamApiMessage) (f : option nat) (d : nat)
  : M (option SteamApiData) :=
  a <- get_api ;;
  match steam_api_message_type_str (mtype mesg) with
  | None => undefined
  | Some ty =>
      let sata := steam_api_data_new STEAM_API_TYPE_MESSAGE f d in
      let sata := steam_api_data_req sata STEAM_API_HOST STEAM_API_PATH_MESSAGE in
      r <- sata_req sata ;;
      s <- smry_get (smry mesg) ;;
      let r := steam_http_req_params_set r
                 [ ("access_token", token a); ("umqid", umqid a);
                   ("steamid_dst", steamid s); ("type", Some ty) ] in
      let send (r : SteamHttpReq) : M (option SteamApiData) :=
        let r := req_set_rflags r (rflags_or_queued_post (rflags r)) in
        emit (steam_http_req_send r) ;;;
        ret (Some (sata_set_req sata (Some r))) in
      if (mtype mesg =? STEAM_API_MESSAGE_TYPE_SAYTEXT)
         || (mtype mesg =? STEAM_API_MESSAGE_TYPE_EMOTE)
      then send (steam_http_req_params_set r [ ("text", text mesg) ])
      else if mtype mesg =? STEAM_API_MESSAGE_TYPE_TYPING then send r
      else ret None
  end.

Definition steam_api_poll (f : option nat) (d : nat) : M SteamApiData :=
  a <- get_api ;;
  let lm := string_of_Z (lmid a) in
  let tout := string_of_Z STEAM_API_TIMEOUT in
  let sata := steam_api_data_new STEAM_API_TYPE_POLL f d in
  let sata := steam_api_data_req sata STEAM_API_HOST STEAM_API_PATH_POLL in
  r <- sata_req sata ;;
  let r := steam_http_req_headers_set r [ ("Connection", Some "Keep-Alive") ] in
  let r := steam_http_req_params_set r
             [ ("access_token", token a); ("umqid", umqid a);
               ("message", Some lm); ("sectimeout", Some tout) ] in
  let r := req_set_rflags r (rflags_or_post (rflags r)) in
  emit (steam_http_req_send r) ;;;
  ret (sata_set_req sata (Some r)).

End Engine.

(** ** A sample environment for the worked examples

    The identity base and the poll timeout have the values of the upstream
    header; [g_ascii_strtoll] reads an optional sign and decimal digits; the
    JSON parser is a parameter, so that an example can fix the tree a body
    parses to. *)

Fixpoint digits_value (s : string) (acc : Z) : Z :=
  match s with
  | String c r =>
      let n := nat_of_ascii c in
      if ((48 <=? n) && (n <=? 57))%nat
      then digits_value r (10 * acc + (Z.of_nat n - 48))
      else acc
  | EmptyString => acc
  end.

Definition decimal_strtoll (s : string) : Z :=
  match s with
  | String "-" r => - digits_value r 0
  | String "+" r => digits_value r 0
  | _ => digits_value s 0
  end.

Definition rflags_or_nofree (f : SteamHttpReqFlags) : SteamHttpReqFlags :=
  {| STEAM_HTTP_REQ_FLAG_SSL := STEAM_HTTP_REQ_FLAG_SSL f;
     STEAM_HTTP_REQ_FLAG_POST := STEAM_HTTP_REQ_FLAG_POST f;
     STEAM_HTTP_REQ_FLAG_QUEUED := STEAM_HTTP_REQ_FLAG_QUEUED f;
     STEAM_HTTP_REQ_FLAG_NOFREE := true |}.

Definition sample_auth : SteamAuth :=
  {| cgid := None; esid := None; time := None; key_mod := None; key_exp := None |}.

Definition sample_ext (parse : string -> json_value + string) : Externals :=
  {| STEAM_API_STEAMID := 76561197960265728;
     STEAM_API_TIMEOUT := 30;
     g_ascii_strtoll := decimal_strtoll;
     json_parse_ex := parse;
     resend_flags := rflags_or_nofree;
     steam_http_cookies_parse_req := fun c _ => c;
     steam_auth_new := sample_auth;
     steam_auth_key_mod := fun a s =>
       (true, {| cgid := cgid a; esid := esid a; time := time a;
                 key_mod := Some s; key_exp := key_exp a |});
     steam_auth_key_exp := fun a s =>
       (true, {| cgid := cgid a; esid := esid a; time := time a;
                 key_mod := key_mod a; key_exp := Some s |});
     bool2int := fun s => String.eqb s "true" |}.

(** A logged-on session whose identity is 76561197960265729 (account 1) and
    whose cursor is [cursor]. *)
Definition sample_api (cursor : Z) (paused : bool) : SteamApi :=
  {| auth := Some sample_auth;
     http := {| cookies := []; queue_paused := paused |};
     sessid := Some "s"; token := Some "t"; umqid := Some "u";
     api_steamid := Some "76561197960265729";
     lmid := cursor; api_tstamp := 0 |}.

Definition sample_world (cursor : Z) (paused : bool) : World :=
  {| api := sample_api cursor paused; heap := []; trace := [] |}.

(** ** Inputs of the worked examples *)

(** An environment whose JSON parser is not consulted. *)
Definition sample_env : Externals := sample_ext (fun _ => inr "unused").

(** An environment in which every body parses to [j]. *)
Definition parsing_to (j : json_value) : Externals := sample_ext (fun _ => inl j).

(** A poll body with one message and no ["sectimeout"] member. *)
Definition poll_body_no_sectimeout : json_value :=
  JObject [ ("messages", JArray [ JObject [] ]) ].

(** A poll body that repeats the cursor 5 and has no ["sectimeout"]. *)
Definition poll_body_same_cursor : json_value :=
  JObject [ ("messagelast", JInteger 5) ].

(** A poll body that repeats the cursor 5, with no message and a
    ["sectimeout"] of 20. *)
Definition poll_body_same_cursor_low : json_value :=
  JObject [ ("messagelast", JInteger 5); ("sectimeout", JInteger 20);
            ("messages", JArray []) ].

(** A poll body that repeats the cursor 5 and passes the timeout check. *)
Definition poll_body_same_cursor_ok : json_value :=
  JObject [ ("messagelast", JInteger 5); ("sectimeout", JInteger 30) ].

(** A relogon body that reports a failure. *)
Definition relogon_body_failed : json_value :=
  JObject [ ("error", JString "Failed") ].

(** A context as [steam_api_data_new] makes it, with its request. *)
Definition fresh_context (t : SteamApiType) (h : SteamHost) (p : SteamPath)
  : SteamApiData :=
  steam_api_data_req (steam_api_data_new t (Some 7%nat) 0%nat) h p.

Definition fresh_request (h : SteamHost) (p : SteamPath) : SteamHttpReq :=
  req_set_rflags (steam_http_req_new h 443 p) rflags_ssl.

(** ** Vocabulary of the statements about the dispatcher *)

(** What [steam_api_cb_finish] calls for a context: the user's callback,
    unless [NOCALL] is set or there is none. *)
Definition callback_events (sata : SteamApiData) : list Event :=
  if STEAM_API_FLAG_NOCALL (flags sata) then []
  else match func sata with
       | Some f => [ user_callback f (data_call sata) ]
       | None => []
       end.

(** Whether [steam_api_cb_finish] keeps a context whose request is [rq]. *)
Definition kept_alive (sata : SteamApiData) (rq : SteamHttpReq) : bool :=
  STEAM_HTTP_REQ_FLAG_NOFREE (rflags rq) || STEAM_API_FLAG_NOFREE (flags sata).

Definition release_events (sata : SteamApiData) (rq : SteamHttpReq) : list Event :=
  if kept_alive sata rq then [] else [ steam_api_data_free_ev ].

(** The context [steam_api_cb_finish] returns when it keeps it. *)
Definition kept_context (sata : SteamApiData) : SteamApiData :=
  sata_set_flags sata (flags_clear_nocall_nofree (flags sata)).

Definition world_add_trace (w : World) (es : list Event) : World :=
  {| api := api w; heap := heap w; trace := trace w ++ es |}.

Definition world_set_paused (w : World) (p : bool) : World :=
  {| api := api_set_http (api w)
              {| cookies := cookies (http (api w)); queue_paused := p |};
     heap := heap w; trace := trace w |}.





(** A rejected auth response that carries a captcha challenge. *)
Definition auth_body_with_gid : json_value :=
  JObject [ ("success", JBoolean false); ("captcha_needed", JBoolean true);
            ("captcha_gid", JString "1234"); ("message", JString "bad") ].

Definition poll_body_not_logged_on : json_value :=
  JObject [ ("error", JString "Not Logged On") ].

(** A call followed by the arrival of its response. *)
Definition poll_round_trip {ext : Externals} (f : option nat) (d : nat)
  : M (option SteamApiData) :=
  sata <- steam_api_poll f d ;;
  r <- sata_req sata ;;
  steam_api_cb r sata.


(** ** Vocabulary of the statements about the friends and chatlog parsers *)

(** Whether [steam_api_friends_cb] keeps an entry. *)
Definition friends_kept (je : json_value) : bool :=
  match snd (steam_json_str (Some je) "relationship") with
  | Some str =>
      match friends_relation str with
      | Some _ => fst (steam_json_str (Some je) "steamid")
      | None => false
      end
  | None => false
  end.

(** The summary made for a kept entry. *)
Definition friends_summary (je : json_value) : SteamFriendSummary :=
  smry_set_relation
    (steam_friend_summary_new (snd (steam_json_str (Some je) "steamid")))
    match snd (steam_json_str (Some je) "relationship") with
    | Some str =>
        match friends_relation str with
        | Some rlat => rlat
        | None => STEAM_FRIEND_RELATION_NONE
        end
    | None => STEAM_FRIEND_RELATION_NONE
    end.

(** Whether [steam_api_chatlog_cb] returns an entry, for a session whose
    account identity is [accid]. *)
Definition chatlog_kept (accid : Z) (jv : json_value) : bool :=
  fst (steam_json_int (Some jv) "m_unAccountID")
  && negb (snd (steam_json_int (Some jv) "m_unAccountID") =? accid).

(** The sender summary and the message made for a returned entry. *)
Definition chatlog_summary {ext : Externals} (jv : json_value) : SteamFriendSummary :=
  smry_set_steamid (steam_friend_summary_new None)
    (Some (string_of_Z
             (steam_api_steamid_int (snd (steam_json_int (Some jv) "m_unAccountID"))))).

Definition chatlog_message (p : addr) (jv : json_value) : SteamApiMessage :=
  {| mtype := STEAM_API_MESSAGE_TYPE_SAYTEXT;
     smry := p;
     text := snd (steam_json_str (Some jv) "m_strMessage");
     tstamp := snd (steam_json_int (Some jv) "m_tsTimestamp") |}.

(** The messages for the entries [kept], their senders stored from address
    [base] on. *)
Fixpoint chatlog_messages (base : addr) (kept : list json_value)
  : list SteamApiMessage :=
  match kept with
  | [] => []
  | jv :: rest => chatlog_message base jv :: chatlog_messages (S base) rest
  end.

(** A friends body that lists one identity twice. *)
Definition friends_body_twice : json_value :=
  JObject
    [ ("friends",
       JArray
         [ JObject [ ("steamid", JString "76561197960287930");
                     ("relationship", JString "friend") ];
           JObject [ ("steamid", JString "76561197960287930");
                     ("relationship", JString "Friend") ] ]) ].

(** A chat log with one entry of the session's own account (account 1) and
    one of account 2. *)
Definition chatlog_own_entry : json_value :=
  JObject [ ("m_unAccountID", JInteger 1); ("m_strMessage", JString "mine");
            ("m_tsTimestamp", JInteger 10) ].

Definition chatlog_other_entry : json_value :=
  JObject [ ("m_unAccountID", JInteger 2); ("m_strMessage", JString "theirs");
            ("m_tsTimestamp", JInteger 11) ].

(** ** Vocabulary of the statements about summary batching *)

(** The identities of the summaries on a pending list, in list order;
    [None] when an address is dangling or a summary has no identity. *)
Fixpoint sums_ids (h : list SteamFriendSummary) (l : list addr)
  : option (list string) :=
  match l with
  | [] => Some []
  | p :: rest =>
      match nth_error h p with
      | Some s =>
          match steamid s, sums_ids h rest with
          | Some id, Some ids => Some (id :: ids)
          | _, _ => None
          end
      | None => None
      end
  end.

(** The first [n] identities of [ids] that are neither in [seen] nor
    repeated. *)
Fixpoint first_new (seen : list string) (n : nat) (ids : list string)
  : list string :=
  match ids with
  | [] => []
  | id :: rest =>
      match n with
      | O => []
      | S n' =>
          if existsb (String.eqb id) seen then first_new seen n rest
          else id :: first_new (seen ++ [id]) n' rest
      end
  end.

(** The identities one summaries request lists. *)
Definition summaries_batch (ids : list string) : list string :=
  first_new [] 100 ids.

(** The text [steam_api_summaries] accumulates: every identity followed by
    a comma. *)
Fixpoint comma_list (ids : list string) : string :=
  match ids with
  | [] => ""
  | id :: rest => id ++ "," ++ comma_list rest
  end.

(** The summaries request for a batch. *)
Definition summaries_request (tok : option string) (batch : list string)
  : SteamHttpReq :=
  steam_http_req_params_set
    (req_set_rflags (steam_http_req_new STEAM_API_HOST 443 STEAM_API_PATH_SUMMARIES)
       rflags_ssl)
    [ ("access_token", tok);
      ("steamids", Some (string_drop_last (comma_list batch))) ].

(** A summaries response with one player object for each identity. *)
Definition player_of (id : string) : json_value :=
  JObject [ ("steamid", JString id) ].

Definition players_body (ids : list string) : json_value :=
  JObject [ ("players", JArray (map player_of ids)) ].

(** A server that answers the outstanding summaries request of a context
    with a player object for every identity the request lists. *)
Definition summaries_response_for (sata : SteamApiData) : M json_value :=
  tg <- summaries_collect (sums sata) [] "" 0 ;;
  ret (players_body (fst tg)).

(** The exchange that follows a summaries request: every response goes to
    [steam_api_summaries_cb], which sends the next request while summaries
    are pending; at most [rounds] responses. *)
Fixpoint summaries_exchange (rounds : nat) (sata : SteamApiData)
  : M SteamApiData :=
  match rounds with
  | O => ret sata
  | S n =>
      match sums sata with
      | [] => ret sata
      | _ :: _ =>
          json <- summaries_response_for sata ;;
          sata <- steam_api_summaries_cb sata (Some json) ;;
          summaries_exchange n sata
      end
  end.

(** The context after [steam_api_summaries] has sent the request [r]. *)
Definition summaries_sent (sata : SteamApiData) (r : SteamHttpReq) : SteamApiData :=
  sata_set_req (sata_set_flags sata (flags_or_nocall_nofree (flags sata))) (Some r).

(** The identities left pending once each identity of [batch] has been
    answered. *)
Fixpoint remove_ids (batch ids : list string) : list string :=
  match batch with
  | [] => ids
  | b :: rest => remove_ids rest (filter (fun id => negb (String.eqb id b)) ids)
  end.

(** A context with 250 pending summaries of the identities "1" to "250",
    stored at the addresses 0 to 249. *)
Definition ids250 : list string :=
  map (fun n => string_of_Z (Z.of_nat n + 1)) (seq 0 250).

Definition world250 : World :=
  {| api := sample_api 5 false;
     heap := map (fun id => steam_friend_summary_new (Some id)) ids250;
     trace := [] |}.

Definition context250 : SteamApiData :=
  sata_set_sums
    (fresh_context STEAM_API_TYPE_FRIENDS STEAM_API_HOST STEAM_API_PATH_FRIENDS)
    (seq 0 250).

(** A check that no string occurs twice in a list. *)
Fixpoint distinctb (l : list string) : bool :=
  match l with
  | [] => true
  | x :: rest => negb (existsb (String.eqb x) rest) && distinctb rest
  end.

(** ** Vocabulary of the further properties *)

(** The label the dispatcher prefixes an error of a call type with. *)
Definition type_label (t : SteamApiType) : string :=
  match steam_api_type_str (type_int t) with
  | Some label => label
  | None => ""
  end.

(** A context with its error prefixed as [steam_api_cb_finish] does it. *)
Definition labelled (sata : SteamApiData) : SteamApiData :=
  sata_set_err sata (g_prefix_error (err sata) (type_label (type sata) ++ ": ")).

(** The NUL character, which ends a C string. *)
Definition nul : ascii := ascii_of_nat 0.

(** A message-send response without an ["error"] member. *)
Definition message_body_no_error : json_value :=
  JObject [ ("utc_timestamp", JInteger 1) ].

(** A friend-acceptance response that reports a failure. *)
Definition accept_body_failed : json_value :=
  JObject [ ("error_text", JString "The invitation has expired") ].

(** A poll response with an error string of its own. *)
Definition poll_body_other_error : json_value :=
  JObject [ ("error", JString "Internal Server Error") ].

(** ** Vocabulary of the parameter tree *)

(** A string as C sees it: no NUL inside. *)
Definition c_string (s : string) : bool :=
  negb (existsb (Ascii.eqb nul) (list_ascii_of_string s)).

(** A string with its ASCII capitals lowered. *)
Definition casefold (s : string) : list ascii :=
  map g_ascii_tolower (list_ascii_of_string s).

(** The text [steam_json_tree_prop] prints for a scalar. *)
Definition leaf_text (json : json_value) : string :=
  match json with
  | JInteger i => string_of_Z i
  | JDouble d => d
  | JString s => s
  | JBoolean b => if b then "true" else "false"
  | _ => "null"
  end.

(** The scalars of a document in document order, each with the name of the
    closest enclosing object member ([key] for those that have none). *)
Fixpoint json_leaves (key : option string) (json : json_value) {struct json}
  : list (option string * string) :=
  match json with
  | JObject es =>
      (fix entries (l : list (string * json_value)) :=
         match l with
         | [] => []
         | (k, jv) :: r => (json_leaves (Some k) jv ++ entries r)%list
         end) es
  | JArray vs =>
      (fix values (l : list json_value) :=
         match l with
         | [] => []
         | jv :: r => (json_leaves key jv ++ values r)%list
         end) vs
  | _ => [ (key, leaf_text json) ]
  end.

(** The texts of the leaves named [q], letter case ignored. *)
Fixpoint leaves_under (q : string) (l : list (option string * string))
  : list string :=
  match l with
  | [] => []
  | (Some k, v) :: r =>
      if g_ascii_strcasecmp q k =? 0 then v :: leaves_under q r
      else leaves_under q r
  | (None, _) :: r => leaves_under q r
  end.

(** Texts joined by commas onto what is already there. *)
Definition comma_joined (cval : option string) (vals : list string)
  : option string :=
  fold_left
    (fun acc v =>
       match acc with
       | Some c => Some (c ++ "," ++ v)
       | None => Some v
       end) vals cval.

(** Every name in the list is a C string. *)
Definition c_names (l : list (option string * string)) : bool :=
  forallb (fun kv => match fst kv with Some k => c_string k | None => true end) l.

(** One leaf entered into the tree, as the tail of [steam_json_tree_prop]
    does it. *)
Definition add_leaf (t : list (string * string)) (kv : option string * string)
  : list (string * string) :=
  tree_prop_leaf t (fst kv) (snd kv).

(** Every key of the tree is a C string. *)
Definition c_keys (t : list (string * string)) : bool :=
  forallb (fun kv => c_string (fst kv)) t.

(** ** Vocabulary of the statements about single parsers *)

(** The summary [steam_api_summary_cb] makes from a player object. *)
Definition player_summary (jv : json_value) : SteamFriendSummary :=
  {| steamid := snd (steam_json_str (Some jv) "steamid");
     nick := snd (steam_json_str (Some jv) "personaname");
     fullname := snd (steam_json_str (Some jv) "realname");
     game := snd (steam_json_str (Some jv) "gameextrainfo");
     server := snd (steam_json_str (Some jv) "gameserverip");
     state := snd (steam_json_int (Some jv) "personastate");
     relation := relation (steam_friend_summary_new None);
     action := action (steam_friend_summary_new None) |}.

(** Whether [steam_api_friend_search_cb] returns an entry of ["results"]. *)
Definition search_kept (je : json_value) : bool :=
  fst (steam_json_scmp (Some je) "type" (Some "user"))
  && fst (steam_json_str (Some je) "steamid").

(** The summary made for a returned entry. *)
Definition search_summary (je : json_value) : SteamFriendSummary :=
  smry_set_nick
    (steam_friend_summary_new (snd (steam_json_str (Some je) "steamid")))
    (snd (steam_json_str (Some je) "matchingtext")).

(** The session after [steam_api_auth_rdir_cb] has read the cookies [c]. *)
Definition api_with_cookies (a : SteamApi) (c : list (string * string)) : SteamApi :=
  api_set_http a {| cookies := c; queue_paused := queue_paused (http a) |}.

Definition world_set_api (w : World) (a : SteamApi) : World :=
  {| api := a; heap := heap w; trace := trace w |}.

Definition world_add_heap (w : World) (l : list SteamFriendSummary) : World :=
  {| api := api w; heap := (heap w ++ l)%list; trace := trace w |}.

(** ** Vocabulary of the statements about enrichment through the dispatcher *)

(** The identity of a kept friends entry. *)
Definition friends_id (je : json_value) : string :=
  match snd (steam_json_str (Some je) "steamid") with
  | Some id => id
  | None => ""
  end.

(** The identities a summaries response answers, in response order. *)
Fixpoint answered (vs : list json_value) : list string :=
  match vs with
  | [] => []
  | je :: rest =>
      match steam_json_str (Some je) "steamid" with
      | (true, Some str) => str :: answered rest
      | _ => answered rest
      end
  end.

(** ** Vocabulary of the statements about polling *)

(** Whether the loop of [steam_api_poll_cb] makes a message for an entry:
    its sender is not the session's own identity [own]. *)
Definition poll_foreign (own : option string) (je : json_value) : bool :=
  negb (fst (steam_json_scmp (Some je) "steamid_from" own)).

(** The message type of an entry. *)
Definition poll_type (je : json_value) : Z :=
  steam_api_message_type_from_str (snd (steam_json_str (Some je) "type")).

(** The cases of the [switch] that keep the message. *)
Definition poll_delivered (je : json_value) : bool :=
  let ty := poll_type je in
  (ty =? STEAM_API_MESSAGE_TYPE_SAYTEXT) || (ty =? STEAM_API_MESSAGE_TYPE_EMOTE)
  || (ty =? STEAM_API_MESSAGE_TYPE_STATE)
  || (ty =? STEAM_API_MESSAGE_TYPE_RELATIONSHIP)
  || (ty =? STEAM_API_MESSAGE_TYPE_TYPING) || (ty =? STEAM_API_MESSAGE_TYPE_LEFT_CONV).

(** The sender summary stored for an entry. *)
Definition poll_summary (je : json_value) : SteamFriendSummary :=
  let ty := poll_type je in
  let s := steam_friend_summary_new (snd (steam_json_str (Some je) "steamid_from")) in
  if (ty =? STEAM_API_MESSAGE_TYPE_SAYTEXT) || (ty =? STEAM_API_MESSAGE_TYPE_EMOTE)
  then s
  else if ty =? STEAM_API_MESSAGE_TYPE_STATE
  then smry_set_nick s (snd (steam_json_str (Some je) "persona_name"))
  else if ty =? STEAM_API_MESSAGE_TYPE_RELATIONSHIP
  then smry_set_action s (snd (steam_json_int (Some je) "persona_state"))
  else s.

(** The message made for an entry whose sender is stored at [p]. *)
Definition poll_message (p : addr) (je : json_value) : SteamApiMessage :=
  let ty := poll_type je in
  {| mtype := ty;
     smry := p;
     text := if (ty =? STEAM_API_MESSAGE_TYPE_SAYTEXT)
                || (ty =? STEAM_API_MESSAGE_TYPE_EMOTE)
             then snd (steam_json_str (Some je) "text") else None;
     tstamp := snd (steam_json_int (Some je) "utc_timestamp") |}.

(** The messages for the entries [foreign], their senders stored from
    address [base] on. *)
Fixpoint poll_messages (base : addr) (foreign : list json_value)
  : list SteamApiMessage :=
  match foreign with
  | [] => []
  | je :: rest =>
      if poll_delivered je
      then poll_message base je :: poll_messages (S base) rest
      else poll_messages (S base) rest
  end.

(** Whether the sender of a message is put on the pending list. *)
Definition needs_summary (m : SteamApiMessage) : bool :=
  (mtype m =? STEAM_API_MESSAGE_TYPE_STATE)
  || (mtype m =? STEAM_API_MESSAGE_TYPE_RELATIONSHIP).

(** The senders [steam_api_poll_cb] leaves pending for the messages [ms]. *)
Definition poll_pending (ms : list SteamApiMessage) : list addr :=
  rev (map smry (filter needs_summary ms)).

(** The poll request sent for the cursor [cursor]. *)
Definition poll_request {ext : Externals} (a : SteamApi) (cursor : Z) : SteamHttpReq :=
  req_set_rflags
    (steam_http_req_params_set
       (steam_http_req_headers_set
          (req_set_rflags (steam_http_req_new STEAM_API_HOST 443 STEAM_API_PATH_POLL)
             rflags_ssl)
          [ ("Connection", Some "Keep-Alive") ])
       [ ("access_token", token a); ("umqid", umqid a);
         ("message", Some (string_of_Z cursor));
         ("sectimeout", Some (string_of_Z STEAM_API_TIMEOUT)) ])
    {| STEAM_HTTP_REQ_FLAG_SSL := true; STEAM_HTTP_REQ_FLAG_POST := true;
       STEAM_HTTP_REQ_FLAG_QUEUED := false; STEAM_HTTP_REQ_FLAG_NOFREE := false |}.

(** ** Vocabulary of the statements about sending *)

(** Whether [steam_api_message] sends a message of type [ty]. *)
Definition message_sent (ty : Z) : bool :=
  (ty =? STEAM_API_MESSAGE_TYPE_SAYTEXT) || (ty =? STEAM_API_MESSAGE_TYPE_EMOTE)
  || (ty =? STEAM_API_MESSAGE_TYPE_TYPING).

(** The request [steam_api_message] sends for a message to the summary [s],
    under the type label [label]. *)
Definition message_request (a : SteamApi) (s : SteamFriendSummary)
  (mesg : SteamApiMessage) (label : string) : SteamHttpReq :=
  req_set_rflags
    (steam_http_req_params_set
       (req_set_rflags (steam_http_req_new STEAM_API_HOST 443 STEAM_API_PATH_MESSAGE)
          rflags_ssl)
       ([ ("access_token", token a); ("umqid", umqid a);
          ("steamid_dst", steamid s); ("type", Some label) ]
          ++ (if (mtype mesg =? STEAM_API_MESSAGE_TYPE_SAYTEXT)
                 || (mtype mesg =? STEAM_API_MESSAGE_TYPE_EMOTE)
              then [ ("text", text mesg) ] else []))%list)
    {| STEAM_HTTP_REQ_FLAG_SSL := true; STEAM_HTTP_REQ_FLAG_POST := true;
       STEAM_HTTP_REQ_FLAG_QUEUED := true; STEAM_HTTP_REQ_FLAG_NOFREE := false |}.

(** The relogon request. *)
Definition relogon_request (a : SteamApi) : SteamHttpReq :=
  req_set_rflags
    (steam_http_req_params_set
       (req_set_rflags (steam_http_req_new STEAM_API_HOST 443 STEAM_API_PATH_LOGON)
          rflags_ssl)
       [ ("access_token", token a); ("umqid", umqid a) ])
    {| STEAM_HTTP_REQ_FLAG_SSL := true; STEAM_HTTP_REQ_FLAG_POST := true;
       STEAM_HTTP_REQ_FLAG_QUEUED := false; STEAM_HTTP_REQ_FLAG_NOFREE := false |}.

(** A relogon whose request comes back from the transport with the error
    [e]. *)
Definition relogon_failing {ext : Externals} (e : GError) (f : option nat)
  (d : nat) : M (option SteamApiData) :=
  sata <- steam_api_relogon f d ;;
  r <- sata_req sata ;;
  steam_api_cb (req_set_rerr r (Some e)) sata.

(** ** Inputs of the further worked examples *)

(** An error of the transport, and a logon request handed back with it. *)
Definition transport_failure : GError :=
  {| err_code := TransportError 1 2; err_message := "Connection refused" |}.

Definition request_failed : SteamHttpReq :=
  req_set_rerr (fresh_request STEAM_API_HOST STEAM_API_PATH_LOGON)
    (Some transport_failure).

(** An environment whose JSON parser rejects every body. *)
Definition rejecting (estr : string) : Externals := sample_ext (fun _ => inr estr).

(** A document with a repeated name in two letter cases, inside an array
    and at two depths. *)
Definition tree_document : json_value :=
  JObject
    [ ("Token", JString "a");
      ("ids", JArray [ JInteger 1; JObject [ ("token", JBoolean true) ]; JNull ]);
      ("TOKEN", JInteger 7) ].

(** A logon response that accepts the logon but names no identity. *)
Definition logon_body_no_identity : json_value :=
  JObject [ ("error", JString "OK"); ("message", JInteger 9);
            ("utc_timestamp", JInteger 100); ("umqid", JString "U") ].

(** A summary response with two players. *)
Definition summary_first_player : json_value :=
  JObject [ ("steamid", JString "76561197960265730");
            ("personaname", JString "Ann") ].

Definition summary_body_two : json_value :=
  JObject [ ("players",
             JArray [ summary_first_player;
                      JObject [ ("steamid", JString "76561197960265731") ] ]) ].

(** A search response with a user and a group. *)
Definition search_user_entry : json_value :=
  JObject [ ("type", JString "User"); ("steamid", JString "76561197960265730");
            ("matchingtext", JString "ann") ].

Definition search_body : json_value :=
  JObject [ ("results",
             JArray [ search_user_entry;
                      JObject [ ("type", JString "group");
                                ("steamid", JString "103582791429521408") ] ]) ].

(** An environment whose transport finds a ["sessionid"] cookie in every
    response. *)
Definition cookie_env : Externals :=
  {| STEAM_API_STEAMID := 76561197960265728;
     STEAM_API_TIMEOUT := 30;
     g_ascii_strtoll := decimal_strtoll;
     json_parse_ex := fun _ => inr "unused";
     resend_flags := rflags_or_nofree;
     steam_http_cookies_parse_req := fun c _ => ("sessionid", "abc") :: c;
     steam_auth_new := sample_auth;
     steam_auth_key_mod := fun a _ => (true, a);
     steam_auth_key_exp := fun a _ => (true, a);
     bool2int := fun s => String.eqb s "true" |}.

(** The context [steam_api_auth_rdir] leaves for the redirect response. *)
Definition rdir_context : SteamApiData :=
  sata_set_flags
    (fresh_context STEAM_API_TYPE_AUTH_RDIR STEAM_COM_HOST STEAM_COM_PATH_AUTH_RDIR)
    (flags_or_nojson no_flags).

(** A friends context with the summaries of the identities "1" and "2"
    pending, stored at the addresses 0 and 1. *)
Definition pending_world : World :=
  {| api := sample_api 5 false;
     heap := [ steam_friend_summary_new (Some "1");
               steam_friend_summary_new (Some "2") ];
     trace := [] |}.

Definition pending_context : SteamApiData :=
  sata_set_sums
    (fresh_context STEAM_API_TYPE_FRIENDS STEAM_API_HOST STEAM_API_PATH_FRIENDS)
    [ 0%nat; 1%nat ].

(** A poll response with the new cursor 6 and three entries: one of the
    session's own identity, a say-text of another identity, and one of an
    unknown type. *)
Definition poll_entry_hello : json_value :=
  JObject [ ("steamid_from", JString "76561197960265730");
            ("type", JString "saytext"); ("text", JString "hello");
            ("utc_timestamp", JInteger 11) ].

Definition poll_body_three : json_value :=
  JObject
    [ ("messagelast", JInteger 6); ("sectimeout", JInteger 30);
      ("messages",
       JArray
         [ JObject [ ("steamid_from", JString "76561197960265729");
                     ("type", JString "saytext"); ("text", JString "mine") ];
           poll_entry_hello;
           JObject [ ("steamid_from", JString "76561197960265730");
                     ("type", JString "unknown") ] ]) ].


(** A typing notification for the summary at address 0. *)
Definition typing_message : SteamApiMessage :=
  {| mtype := STEAM_API_MESSAGE_TYPE_TYPING; smry := 0%nat; text := None;
     tstamp := 0 |}.

(** * Properties *)

Section Properties.

Context {ext : Externals}.

#[local] Arguments steam_json_val : simpl never.
#[local] Arguments steam_json_str : simpl never.
#[local] Arguments steam_json_int : simpl never.
#[local] Arguments steam_json_bool : simpl never.
#[local] Arguments steam_json_scmp : simpl never.
#[local] Arguments steam_json_tree : simpl never.
#[local] Arguments string_of_Z : simpl never.

(** ** Identity conversion *)

Lemma int64_in_range (z : Z) : in_int64 z -> int64 z = z.
Proof.
  unfold in_int64, INT64_MIN, INT64_MAX, int64. intros H.
  rewrite Z.mod_small; lia.
Qed.

Lemma int64_shift (a b : Z) : int64 (int64 a + b) = int64 (a + b).
Proof.
  unfold int64.
  replace ((a + 2 ^ 63) mod 2 ^ 64 - 2 ^ 63 + b + 2 ^ 63)
    with ((a + 2 ^ 63) mod 2 ^ 64 + b) by ring.
  rewrite Zplus_mod_idemp_l. f_equal. f_equal. ring.
Qed.

(** C9: the two identity conversions undo each other on every 64-bit value,
    and each is the exact offset by [STEAM_API_STEAMID] whenever that offset
    is itself a 64-bit value. *)
Theorem steamid_accountid_roundtrip (x : Z) :
  in_int64 x ->
  steam_api_steamid_int (steam_api_accountid_int x) = x /\
  steam_api_accountid_int (steam_api_steamid_int x) = x /\
  (in_int64 (x - STEAM_API_STEAMID) ->
   steam_api_accountid_int x = x - STEAM_API_STEAMID) /\
  (in_int64 (x + STEAM_API_STEAMID) ->
   steam_api_steamid_int x = x + STEAM_API_STEAMID).
Proof.
  intros Hx. unfold steam_api_steamid_int, steam_api_accountid_int.
  repeat split.
  - rewrite int64_shift. replace (x - STEAM_API_STEAMID + STEAM_API_STEAMID) with x by ring.
    now apply int64_in_range.
  - replace (int64 (x + STEAM_API_STEAMID) - STEAM_API_STEAMID)
      with (int64 (x + STEAM_API_STEAMID) + - STEAM_API_STEAMID) by ring.
    rewrite int64_shift.
    replace (x + STEAM_API_STEAMID + - STEAM_API_STEAMID) with x by ring.
    now apply int64_in_range.
  - apply int64_in_range.
  - apply int64_in_range.
Qed.

(** ** Label tables *)

Lemma array_read_none {A : Type} (arr : list A) (i : Z) :
  array_read arr i = None <-> i < 0 \/ Z.of_nat (List.length arr) <= i.
Proof.
  unfold array_read. destruct (Z.ltb_spec i 0).
  - split; auto.
  - rewrite nth_error_None. split; intros; [right|]; lia.
Qed.

(** C10: both label lookups read their table one slot past its end when
    they are given the [LAST] sentinel, and for no other value.  Every other
    value is answered from the table or with the fallback label.  The
    sentinel is what [steam_api_message_type_from_str] answers for an unknown
    type, and [steam_api_message] looks up the label of whatever type its
    message has. *)
Theorem label_lookup_reads_past_table_at_LAST :
  (forall t, steam_api_type_str t = None <-> t = STEAM_API_TYPE_LAST) /\
  (forall t, steam_api_message_type_str t = None
             <-> t = STEAM_API_MESSAGE_TYPE_LAST) /\
  (forall t, t < 0 \/ STEAM_API_TYPE_LAST < t ->
             steam_api_type_str t = Some "Generic") /\
  (forall t, t < 0 \/ STEAM_API_MESSAGE_TYPE_LAST < t ->
             steam_api_message_type_str t = Some "") /\
  steam_api_message_type_from_str (Some "unknown") = STEAM_API_MESSAGE_TYPE_LAST /\
  (forall sender txt ts f d w,
     steam_api_message
       {| mtype := STEAM_API_MESSAGE_TYPE_LAST; smry := sender; text := txt;
          tstamp := ts |} f d w = None).
Proof.
  unfold steam_api_type_str, steam_api_message_type_str,
    STEAM_API_TYPE_LAST, STEAM_API_MESSAGE_TYPE_LAST.
  repeat split.
  - destruct (Z.ltb_spec t 0); destruct (Z.gtb_spec t 16); simpl;
      try (intros; discriminate); try lia.
    rewrite array_read_none. simpl. lia.
  - intros ->. reflexivity.
  - destruct (Z.ltb_spec t 0); destruct (Z.gtb_spec t 6); simpl;
      try (intros; discriminate); try lia.
    rewrite array_read_none. simpl. lia.
  - intros ->. reflexivity.
  - intros t [H|H].
    + destruct (Z.ltb_spec t 0); [reflexivity | lia].
    + destruct (Z.gtb_spec t 16); [| lia]. now rewrite orb_true_r.
  - intros t [H|H].
    + destruct (Z.ltb_spec t 0); [reflexivity | lia].
    + destruct (Z.gtb_spec t 6); [| lia]. now rewrite orb_true_r.
Qed.

(** ** Store and monad steps *)

Lemma smry_get_fresh (s : SteamFriendSummary) (h : list SteamFriendSummary) :
  nth_error (h ++ [s]) (List.length h) = Some s.
Proof. rewrite nth_error_app2, Nat.sub_diag by lia. reflexivity. Qed.

Lemma list_set_fresh {A : Type} (h : list A) (s s' : A) :
  list_set (h ++ [s]) (List.length h) s' = (h ++ [s'])%list.
Proof. induction h; simpl; congruence. Qed.

Ltac run :=
  unfold bind, ret, emit, get_api, set_api, smry_alloc, smry_get, smry_put,
    steam_api_message_new, undefined, steam_http_queue_pause; cbn.

(** ** Polling *)

Lemma poll_loop_returns (vs : list json_value) :
  forall messages sata w,
  exists ms sata' w',
    poll_loop vs messages sata w = Some ((ms, sata'), w') /\
    err sata' = err sata /\ api w' = api w /\ trace w' = trace w.
Proof.
  induction vs as [|je rest IH]; intros messages sata w; simpl.
  - run. eauto 8.
  - run.
    destruct (steam_json_scmp (Some je) "steamid_from" (api_steamid (api w)))
      as [[|] str].
    + apply IH.
    + repeat match goal with
        | |- context [if ?c then _ else _] => destruct c
        end;
      cbn; repeat (rewrite smry_get_fresh; cbn);
      match goal with
      | |- context [poll_loop rest ?m ?s ?w0] =>
          destruct (IH m s w0) as (ms & s' & w' & E & He & Ha & Ht);
          exists ms, s', w'; rewrite E; cbn in *; repeat split; congruence
      end.
Qed.

Lemma poll_timeout_low_iff (json : option json_value) :
  poll_timeout_low json = true <->
  fst (steam_json_int json "sectimeout") = false \/
  (snd (steam_json_int json "sectimeout") < STEAM_API_TIMEOUT /\ poll_size json < 1).
Proof.
  unfold poll_timeout_low.
  destruct (steam_json_int json "sectimeout") as [ok i]; cbn.
  rewrite orb_true_iff, andb_true_iff, negb_true_iff, !Z.ltb_lt. tauto.
Qed.

(** C5 (as amended): for a poll response that passed the error-string gate,
    the timeout check sets a poll error exactly when ["sectimeout"] is not
    an integer member of the body, or it is below the minimum and no message
    was returned.  When the check passes, no error is set at all, and the
    parser returns whenever ["messages"] is an array. *)
Theorem poll_timeout_check (sata : SteamApiData) (json : option json_value)
  (w : World) :
  poll_error_gate json = None ->
  err sata = None ->
  (poll_timeout_low json = true <->
     fst (steam_json_int json "sectimeout") = false \/
     (snd (steam_json_int json "sectimeout") < STEAM_API_TIMEOUT
      /\ poll_size json < 1)) /\
  (poll_timeout_low json = true ->
     steam_api_poll_cb sata json w =
       Some (sata_set_err sata
               (Some {| err_code := STEAM_API_ERROR STEAM_API_ERROR_POLL;
                        err_message :=
                          "Timeout of "
                            ++ string_of_Z (snd (steam_json_int json "sectimeout"))
                            ++ " too low" |}), w)) /\
  (poll_timeout_low json = false ->
     forall sata' w',
       steam_api_poll_cb sata json w = Some (sata', w') -> err sata' = None) /\
  (poll_timeout_low json = false ->
     (exists vs, snd (steam_json_val json "messages" json_array) = Some (JArray vs)) ->
     exists sata' w',
       steam_api_poll_cb sata json w = Some (sata', w') /\ err sata' = None).
Proof.
  intros Hgate Herr. split; [apply poll_timeout_low_iff|].
  unfold steam_api_poll_cb. rewrite Hgate.
  split; [|split]; intros Hlow; rewrite Hlow.
  - unfold sata_error, g_set_error. rewrite Herr. reflexivity.
  - run. intros sata' w'.
    destruct (steam_json_int json "messagelast") as [ok i].
    destruct (negb ok || (i =? lmid (api w))); cbn.
    + intros [= <- <-]. exact Herr.
    + destruct (snd (steam_json_val json "messages" json_array)) as [[]|];
        try discriminate.
      match goal with
      | |- context [poll_loop ?v ?m ?s ?w0] =>
          destruct (poll_loop_returns v m s w0) as (ms & s' & w1 & E & He & _)
      end.
      rewrite E. cbn. intros [= <- <-]. cbn. congruence.
  - intros [vs Hvs]. run. rewrite Hvs.
    destruct (steam_json_int json "messagelast") as [ok i].
    destruct (negb ok || (i =? lmid (api w))); cbn.
    + eauto.
    + match goal with
      | |- context [poll_loop ?v ?m ?s ?w0] =>
          destruct (poll_loop_returns v m s w0) as (ms & s' & w1 & E & He & _)
      end.
      rewrite E. cbn. do 2 eexists. split; [reflexivity|]. cbn. congruence.
Qed.

(** C6 (as amended): a poll response that passed the error-string gate and
    repeats the session's cursor produces no message and leaves the cursor,
    the store and the pending list as they were; it leaves the context
    untouched, and so without error, exactly when it also passes the timeout
    check, and gets the timeout error otherwise. *)
Theorem poll_same_cursor_is_noop (sata : SteamApiData)
  (json : option json_value) (w : World) :
  poll_error_gate json = None ->
  err sata = None ->
  steam_json_int json "messagelast" = (true, lmid (api w)) ->
  exists sata',
    steam_api_poll_cb sata json w = Some (sata', w) /\
    rdata sata' = rdata sata /\
    sums sata' = sums sata /\
    (poll_timeout_low json = false -> sata' = sata) /\
    (poll_timeout_low json = true ->
       err sata' =
         Some {| err_code := STEAM_API_ERROR STEAM_API_ERROR_POLL;
                 err_message :=
                   "Timeout of "
                     ++ string_of_Z (snd (steam_json_int json "sectimeout"))
                     ++ " too low" |}).
Proof.
  intros Hgate Herr Hlast. unfold steam_api_poll_cb. rewrite Hgate.
  destruct (poll_timeout_low json).
  - eexists. split; [reflexivity|]. unfold sata_error, g_set_error.
    rewrite Herr. cbn. repeat split; congruence.
  - run. rewrite Hlast. cbn. rewrite Z.eqb_refl. cbn.
    exists sata. destruct w. repeat split; congruence.
Qed.

(** ** Dispatcher *)

Lemma char_code_inj (a b : ascii) : char_code a = char_code b -> a = b.
Proof.
  unfold char_code. intros H. apply Nat2Z.inj in H.
  rewrite <- (ascii_nat_embedding a), <- (ascii_nat_embedding b). now f_equal.
Qed.

Lemma strcasecmp_head (a b : ascii) (r r' : string) :
  g_ascii_strcasecmp (String a r) (String b r') = 0 ->
  g_ascii_tolower a = g_ascii_tolower b.
Proof.
  simpl. destruct (Ascii.eqb_spec (g_ascii_tolower a) (g_ascii_tolower b)); auto.
  intros H. apply char_code_inj. lia.
Qed.

Lemma strcasecmp_head_diff (a b : ascii) (r r' : string) :
  g_ascii_tolower a <> g_ascii_tolower b ->
  g_ascii_strcasecmp (String a r) (String b r') <> 0.
Proof. intros H E. now apply strcasecmp_head in E. Qed.

Lemma not_logged_on_is_no_other (str : string) :
  g_ascii_strcasecmp str "Not Logged On" = 0 ->
  g_ascii_strcasecmp str "Timeout" <> 0 /\
  g_ascii_strcasecmp str "OK" <> 0 /\
  g_ascii_strcasecmp "OK" str <> 0.
Proof.
  destruct str as [|c s]; [discriminate|].
  intros H. apply strcasecmp_head in H. change (g_ascii_tolower "N") with "n"%char in H.
  repeat split; apply strcasecmp_head_diff; rewrite H; discriminate.
Qed.

Lemma type_int_in_table (t : SteamApiType) :
  (type_int t <? 0) || (type_int t >? STEAM_API_TYPE_LAST) = false.
Proof. destruct t; reflexivity. Qed.

Ltac eval_labels :=
  repeat match goal with
    | |- context [steam_api_type_str (type_int ?t)] =>
        let v := eval vm_compute in (steam_api_type_str (type_int t)) in
        change (steam_api_type_str (type_int t)) with v
    end.

Lemma finish_run (sata : SteamApiData) (rq : SteamHttpReq) (w : World) :
  req sata = Some rq ->
  let sata' :=
    match err sata, steam_api_type_str (type_int (type sata)) with
    | Some _, Some label =>
        sata_set_err sata (g_prefix_error (err sata) (label ++ ": "))
    | _, _ => sata
    end in
  steam_api_cb_finish sata w =
    Some (if kept_alive sata rq then Some (kept_context sata') else None,
          world_add_trace w (callback_events sata' ++ release_events sata rq)).
Proof.
  intros Hr. cbv zeta. unfold steam_api_cb_finish, kept_alive, release_events, kept_alive,
    callback_events, kept_context, steam_api_data_func, sata_req, steam_api_data_free, world_add_trace.
  destruct w as [wa wh wt].
  destruct sata as [t f d [nc nf nj] rd sm e rq']. cbn in *. subst rq'.
  destruct rq as [h po pa hd pr [fs fp fq fn] bo bs re].
  destruct e, t, nc, f, fn, nf; eval_labels; cbv [negb]; run;
    rewrite <- ?app_assoc, ?app_nil_r; reflexivity.
Qed.

Lemma parse_ok_input (r : SteamHttpReq) (sata : SteamApiData) (json : json_value) :
  err sata = None ->
  STEAM_API_FLAG_NOJSON (flags sata) = false ->
  rerr r = None ->
  json_parse_ex (body r) = inl json ->
  steam_api_cb_input r sata = (Some json, sata_set_req sata (Some r)).
Proof.
  intros He Hj Hr Hp. unfold steam_api_cb_input, steam_json_new.
  rewrite Hr, Hj, Hp. cbn. destruct sata; cbn in *. now subst.
Qed.

(** C1 (as amended): when a poll or message response carries the error
    string "Not Logged On" (in any letter case), the dispatcher sets the
    logon-expired error on the triggering context, pauses the transport
    queue and hands the same request to the transport for a resend.  The
    caller's callback is called in that same dispatch, with the error under
    the label of the call type, unless the context is flagged [NOCALL]; the
    context is kept for the resend when the request or the context is
    flagged [NOFREE], and released otherwise. *)
Theorem not_logged_on_dispatch (sata : SteamApiData) (r : SteamHttpReq)
  (json : json_value) (str : string) (w : World) :
  type sata = STEAM_API_TYPE_POLL \/ type sata = STEAM_API_TYPE_MESSAGE ->
  err sata = None ->
  sums sata = [] ->
  STEAM_API_FLAG_NOJSON (flags sata) = false ->
  rerr r = None ->
  json_parse_ex (body r) = inl json ->
  steam_json_str (Some json) "error" = (true, Some str) ->
  g_ascii_strcasecmp str "Not Logged On" = 0 ->
  let label := match type sata with
               | STEAM_API_TYPE_POLL => "Polling"
               | _ => "Message"
               end in
  let r' := req_set_rflags r (resend_flags (rflags r)) in
  let expired :=
    sata_set_req
      (sata_set_err sata
         (Some {| err_code := STEAM_API_ERROR STEAM_API_ERROR_LOGON_EXPIRED;
                  err_message := label ++ ": Logon session expired" |}))
      (Some r') in
  steam_api_cb r sata w =
    Some (if kept_alive expired r' then Some (kept_context expired) else None,
          world_add_trace (world_set_paused w true)
            ([ steam_http_req_resend r ]
               ++ callback_events expired ++ release_events expired r')) /\
  (STEAM_API_FLAG_NOCALL (flags sata) = false ->
   forall f, func sata = Some f ->
     callback_events expired = [ user_callback f (data_call expired) ]).
Proof.
  intros Ht He Hs Hj Hr Hp Hstr Hcmp label r' expired.
  destruct (not_logged_on_is_no_other str Hcmp) as (Hto & Hok & Hok').
  split.
  - unfold steam_api_cb. rewrite type_int_in_table.
    rewrite (parse_ok_input r sata json He Hj Hr Hp).
    unfold steam_api_cb_parse. 
    replace (err (sata_set_req sata (Some r))) with (@None GError) by (now destruct sata).
    replace (sums (sata_set_req sata (Some r))) with (@nil addr) by (now destruct sata).
    replace (type (sata_set_req sata (Some r))) with (type sata) by (now destruct sata).
    assert (Hrun : pfuncs (type sata) (sata_set_req sata (Some r)) (Some json) w =
              Some (sata_set_req (sata_set_err sata
                      (Some {| err_code := STEAM_API_ERROR STEAM_API_ERROR_LOGON_EXPIRED;
                               err_message := "Logon session expired" |})) (Some r'),
                    world_add_trace (world_set_paused w true) [steam_http_req_resend r])).
    { destruct Ht as [Ht|Ht]; rewrite Ht; cbn [pfuncs].
      - unfold steam_api_poll_cb, poll_error_gate. rewrite Hstr.
        apply Z.eqb_neq in Hto, Hok. rewrite Hto, Hok. cbn [negb andb].
        rewrite Hcmp. cbn [Z.eqb].
        unfold steam_api_data_relogon, sata_req, sata_error, g_set_error. run.
        destruct sata; cbn in *; subst. reflexivity.
      - unfold steam_api_message_cb, steam_json_scmp. rewrite Hstr.
        apply Z.eqb_neq in Hok'. rewrite Hok'. cbn [g_ascii_strcasecmp_ptr].
        rewrite Hcmp. cbn [Z.eqb].
        unfold steam_api_data_relogon, sata_req, sata_error, g_set_error. run.
        destruct sata; cbn in *; subst. reflexivity. }
    unfold bind at 1. unfold bind at 1. rewrite Hrun.
    replace (sums _) with (@nil addr) by (now destruct sata).
    unfold ret at 1.
    rewrite (finish_run _ r') by reflexivity.
    destruct w as [wa wh wt]. destruct sata as [t f d [nc nf nj] rd sm e rq].
    cbn in *. subst.
    destruct Ht as [Ht|Ht]; subst t; subst label expired; cbn;
      unfold world_add_trace, kept_context, kept_alive, release_events, kept_alive, callback_events; cbn;
      rewrite <- ?app_assoc; reflexivity.
  - intros Hnc f Hf. unfold callback_events. subst expired.
    destruct sata; cbn in *. now rewrite Hnc, Hf.
Qed.

(** ** Relogon *)

(** The dispatcher on a response that arrives without transport error and
    parses, for a context without error and without pending summaries whose
    parser leaves no summaries pending. *)
Lemma dispatch_parsed (r : SteamHttpReq) (sata sata1 : SteamApiData)
  (json : json_value) (w w1 : World) :
  err sata = None ->
  sums sata = [] ->
  STEAM_API_FLAG_NOJSON (flags sata) = false ->
  rerr r = None ->
  json_parse_ex (body r) = inl json ->
  pfuncs (type sata) (sata_set_req sata (Some r)) (Some json) w = Some (sata1, w1) ->
  sums sata1 = [] ->
  steam_api_cb r sata w = steam_api_cb_finish sata1 w1.
Proof.
  intros He Hs Hj Hr Hp Hrun Hs1.
  unfold steam_api_cb. rewrite type_int_in_table.
  rewrite (parse_ok_input r sata json He Hj Hr Hp).
  unfold steam_api_cb_parse.
  replace (err (sata_set_req sata (Some r))) with (@None GError) by (now destruct sata).
  replace (sums (sata_set_req sata (Some r))) with (@nil addr) by (now destruct sata).
  replace (type (sata_set_req sata (Some r))) with (type sata) by (now destruct sata).
  unfold bind at 1. unfold bind at 1. rewrite Hrun, Hs1. reflexivity.
Qed.

(** The dispatcher on a response for a context with summaries pending:
    the response goes to [steam_api_summaries_cb], whatever the call type. *)
Lemma dispatch_pending_summaries (r : SteamHttpReq) (sata : SteamApiData)
  (json : json_value) (w : World) :
  err sata = None ->
  sums sata <> [] ->
  STEAM_API_FLAG_NOJSON (flags sata) = false ->
  rerr r = None ->
  json_parse_ex (body r) = inl json ->
  steam_api_cb r sata w =
    (sata' <- steam_api_summaries_cb (sata_set_req sata (Some r)) (Some json) ;;
     steam_api_cb_finish sata') w.
Proof.
  intros He Hs Hj Hr Hp.
  unfold steam_api_cb. rewrite type_int_in_table.
  rewrite (parse_ok_input r sata json He Hj Hr Hp).
  unfold steam_api_cb_parse.
  replace (err (sata_set_req sata (Some r))) with (@None GError) by (now destruct sata).
  replace (sums (sata_set_req sata (Some r))) with (sums sata) by (now destruct sata).
  destruct (sums sata); [contradiction | reflexivity].
Qed.

(** C2 (as amended): the relogon handler unpauses the transport queue on
    every response it is run on, on a failed relogon as on a successful one.
    On failure the context gets the relogon error, which the dispatcher
    hands to the relogon callback under the label "Relogon"; on success the
    callback is called without error. *)
Theorem relogon_dispatch_always_unpauses (sata : SteamApiData)
  (r : SteamHttpReq) (json : json_value) (w : World) :
  type sata = STEAM_API_TYPE_RELOGON ->
  err sata = None ->
  sums sata = [] ->
  STEAM_API_FLAG_NOJSON (flags sata) = false ->
  rerr r = None ->
  json_parse_ex (body r) = inl json ->
  let answer := steam_json_scmp (Some json) "error" (Some "OK") in
  let done :=
    sata_set_req
      (if fst answer then sata
       else sata_set_err sata
              (Some {| err_code := STEAM_API_ERROR STEAM_API_ERROR_RELOGON;
                       err_message := "Relogon: " ++ fmt_s (snd answer) |}))
      (Some r) in
  steam_api_cb r sata w =
    Some (if kept_alive done r then Some (kept_context done) else None,
          world_add_trace (world_set_paused w false)
            (callback_events done ++ release_events done r)) /\
  queue_paused (http (api (world_set_paused w false))) = false.
Proof.
  intros Ht He Hs Hj Hr Hp answer done. split; [|reflexivity].
  assert (Hrun : exists sata1,
             pfuncs (type sata) (sata_set_req sata (Some r)) (Some json) w
             = Some (sata1, world_set_paused w false) /\
             sata1 = sata_set_req
                       (if fst answer then sata
                        else sata_set_err sata
                               (Some {| err_code := STEAM_API_ERROR STEAM_API_ERROR_RELOGON;
                                        err_message := fmt_s (snd answer) |}))
                       (Some r)).
  { rewrite Ht. cbn [pfuncs]. unfold steam_api_relogon_cb. run.
    subst answer. destruct (steam_json_scmp (Some json) "error" (Some "OK")) as [[|] s];
      cbn; eexists; (split; [reflexivity|]); [reflexivity|].
    unfold sata_error, g_set_error. destruct sata; cbn in *; subst. reflexivity. }
  destruct Hrun as (sata1 & Hrun & ->).
  rewrite (dispatch_parsed r sata _ json w _ He Hs Hj Hr Hp Hrun)
    by (destruct (fst answer), sata; cbn in *; congruence).
  rewrite (finish_run _ r) by (destruct (fst answer), sata; reflexivity).
  subst done. destruct w as [wa wh wt].
  destruct sata as [t f d [nc nf nj] rd sm e rq]. cbn in *. subst.
  destruct (fst answer); eval_labels; cbn;
    unfold world_add_trace, kept_context, kept_alive, release_events, kept_alive,
      callback_events; cbn; reflexivity.
Qed.

(** ** Authentication *)

Lemma steam_json_str_shape (json : option json_value) (name : string) :
  (exists s, steam_json_str json name = (true, Some s)) \/
  steam_json_str json name = (false, None).
Proof.
  unfold steam_json_str.
  destruct (steam_json_val json name json_string) as [[|] [[]|]]; auto.
  destruct (Z.of_nat (String.length s) <? 1); eauto.
Qed.

Ltac str_cases json name :=
  let s := fresh "s" in
  let E := fresh "E" in
  destruct (steam_json_str_shape json name) as [[s E]|E]; rewrite ?E in *.






(** ** Friends *)

Lemma friends_loop_run (vs : list json_value) :
  forall friends sata w,
    friends_loop vs friends sata w =
      Some ((rev (seq (List.length (heap w)) (List.length (filter friends_kept vs)))
               ++ friends,
             sata_set_sums sata
               (rev (seq (List.length (heap w)) (List.length (filter friends_kept vs)))
                  ++ sums sata))%list,
            {| api := api w;
               heap := heap w ++ map friends_summary (filter friends_kept vs);
               trace := trace w |}).
Proof.
  induction vs as [|je rest IH]; intros friends sata w.
  - cbn. rewrite app_nil_r. destruct sata, w. reflexivity.
  - cbn [friends_loop filter].
    destruct (snd (steam_json_str (Some je) "relationship")) as [str|] eqn:Hrel.
    2:{ replace (friends_kept je) with false
          by (unfold friends_kept; now rewrite Hrel).
        apply IH. }
    destruct (friends_relation str) as [rlat|] eqn:Hr.
    2:{ replace (friends_kept je) with false
          by (unfold friends_kept; now rewrite Hrel, Hr).
        apply IH. }
    destruct (steam_json_str_shape (Some je) "steamid") as [[id E]|E].
    2:{ replace (friends_kept je) with false
          by (unfold friends_kept; now rewrite Hrel, Hr, E).
        rewrite E. apply IH. }
    replace (friends_kept je) with true
      by (unfold friends_kept; now rewrite Hrel, Hr, E).
    cbn [map length].
    replace (friends_summary je)
      with (smry_set_relation (steam_friend_summary_new (Some id)) rlat)
      by (unfold friends_summary; now rewrite Hrel, Hr, E).
    rewrite E. run. rewrite IH. cbn [heap api trace sums length map].
    rewrite length_app, Nat.add_1_r. cbn [seq rev length].
    rewrite <- !app_assoc. cbn [app]. destruct sata.
    unfold sata_set_sums. cbn. reflexivity.
Qed.

Lemma friends_kept_iff (je : json_value) :
  friends_kept je = true <->
  exists str id,
    steam_json_str (Some je) "relationship" = (true, Some str) /\
    (g_ascii_strcasecmp str "friend" = 0 \/ g_ascii_strcasecmp str "ignoredfriend" = 0) /\
    steam_json_str (Some je) "steamid" = (true, Some id).
Proof.
  unfold friends_kept, friends_relation.
  str_cases (Some je) "relationship"; cbn [snd].
  - destruct (Z.eqb_spec (g_ascii_strcasecmp s "friend") 0) as [Hf|Hf].
    + str_cases (Some je) "steamid"; cbn [fst]; split; eauto 6; try discriminate.
      intros (? & ? & _ & _ & ?). discriminate.
    + destruct (Z.eqb_spec (g_ascii_strcasecmp s "ignoredfriend") 0) as [Hi|Hi].
      * str_cases (Some je) "steamid"; cbn [fst]; split; eauto 6; try discriminate.
        intros (? & ? & _ & _ & ?). discriminate.
      * split; [discriminate|]. intros (? & ? & [= <-] & [?|?] & _); contradiction.
  - split; [discriminate|]. intros (? & ? & ? & _). discriminate.
Qed.

(** C4 (as amended): of a friends body, exactly the entries whose
    relationship string equals "friend" or "ignoredfriend" without regard to
    letter case, and that carry a steamid, are kept.  Each kept entry gets a
    summary instance of its own, which is put once on the result list and
    once on the pending-summary list, the two lists holding the same
    addresses.  Entries are not deduplicated by identity here: there are as
    many instances as kept entries. *)
Theorem friends_cb_keeps_every_entry (sata : SteamApiData)
  (json : option json_value) (vs : list json_value) (w : World) :
  steam_json_val json "friends" json_array = (true, Some (JArray vs)) ->
  let kept := filter friends_kept vs in
  let base := List.length (heap w) in
  let ps := rev (seq base (List.length kept)) in
  steam_api_friends_cb sata json w =
    Some (sata_set_rdata (sata_set_sums sata (ps ++ sums sata)) (RSummaries ps),
          {| api := api w;
             heap := heap w ++ map friends_summary kept;
             trace := trace w |}) /\
  NoDup ps /\
  List.length ps = List.length kept /\
  (forall k je, nth_error kept k = Some je ->
     nth_error (heap w ++ map friends_summary kept) (base + k)
       = Some (friends_summary je)) /\
  (forall je, In je kept <->
     In je vs /\
     exists str id,
       steam_json_str (Some je) "relationship" = (true, Some str) /\
       (g_ascii_strcasecmp str "friend" = 0
        \/ g_ascii_strcasecmp str "ignoredfriend" = 0) /\
       steam_json_str (Some je) "steamid" = (true, Some id)).
Proof.
  intros Hv kept base ps. repeat split.
  - unfold steam_api_friends_cb. rewrite Hv. unfold bind at 1.
    rewrite friends_loop_run. cbn. rewrite app_nil_r.
    destruct sata. reflexivity.
  - apply NoDup_rev, seq_NoDup.
  - subst ps. now rewrite length_rev, length_seq.
  - intros k je Hk. subst base.
    rewrite nth_error_app2 by lia.
    replace (List.length (heap w) + k - List.length (heap w))%nat with k by lia.
    now rewrite nth_error_map, Hk.
  - subst kept. rewrite filter_In, friends_kept_iff in H. tauto.
  - subst kept. rewrite filter_In, friends_kept_iff in H. tauto.
  - intros [Hin Hk]. subst kept. rewrite filter_In, friends_kept_iff. tauto.
Qed.

(** ** Chat log *)

Lemma chatlog_loop_run (accid : Z) (vs : list json_value) :
  forall messages w,
    chatlog_loop accid vs messages w =
      Some ((rev (chatlog_messages (List.length (heap w))
                    (filter (chatlog_kept accid) vs)) ++ messages)%list,
            {| api := api w;
               heap := heap w ++ map chatlog_summary (filter (chatlog_kept accid) vs);
               trace := trace w |}).
Proof.
  induction vs as [|jv rest IH]; intros messages w.
  - cbn. rewrite app_nil_r. destruct w. reflexivity.
  - cbn [chatlog_loop filter].
    destruct (steam_json_int (Some jv) "m_unAccountID") as [[|] i] eqn:Hi.
    2:{ replace (chatlog_kept accid jv) with false
          by (unfold chatlog_kept; now rewrite Hi).
        apply IH. }
    destruct (i =? accid) eqn:Hown.
    { replace (chatlog_kept accid jv) with false
        by (unfold chatlog_kept; now rewrite Hi; cbn; rewrite Hown).
      apply IH. }
    replace (chatlog_kept accid jv) with true
      by (unfold chatlog_kept; now rewrite Hi; cbn; rewrite Hown).
    cbn [map length].
    replace (chatlog_summary jv)
      with (smry_set_steamid (steam_friend_summary_new None)
              (Some (string_of_Z (steam_api_steamid_int i))))
      by (unfold chatlog_summary; now rewrite Hi).
    run. rewrite smry_get_fresh. cbn. rewrite smry_get_fresh. cbn.
    rewrite list_set_fresh, IH. cbn [heap api trace length map chatlog_messages rev].
    rewrite length_app, Nat.add_1_r. rewrite <- !app_assoc. reflexivity.
Qed.

(** C8: of a chat log, the entries whose ["m_unAccountID"] is the account
    identity of the session are left out, and every other entry that carries
    an integer ["m_unAccountID"] is returned, in the order of the log, as a
    text message from the sender's external identity.  Of an own entry and
    another entry, only the other one is returned. *)
Theorem chatlog_cb_excludes_own (sata : SteamApiData) (vs : list json_value)
  (w : World) :
  let accid := steam_api_accountid_str (api_steamid (api w)) in
  let kept := filter (chatlog_kept accid) vs in
  steam_api_chatlog_cb sata (Some (JArray vs)) w =
    Some (sata_set_rdata sata
            (RMessages (chatlog_messages (List.length (heap w)) kept)),
          {| api := api w;
             heap := heap w ++ map chatlog_summary kept;
             trace := trace w |}) /\
  (forall jv, In jv kept <->
     In jv vs /\
     fst (steam_json_int (Some jv) "m_unAccountID") = true /\
     snd (steam_json_int (Some jv) "m_unAccountID") <> accid) /\
  (forall own other,
     vs = [own; other] ->
     steam_json_int (Some own) "m_unAccountID" = (true, accid) ->
     fst (steam_json_int (Some other) "m_unAccountID") = true ->
     snd (steam_json_int (Some other) "m_unAccountID") <> accid ->
     kept = [other]).
Proof.
  intros accid kept.
  assert (Hk : forall jv, chatlog_kept accid jv = true <->
                 fst (steam_json_int (Some jv) "m_unAccountID") = true /\
                 snd (steam_json_int (Some jv) "m_unAccountID") <> accid).
  { intros jv. unfold chatlog_kept.
    rewrite andb_true_iff, negb_true_iff, Z.eqb_neq. tauto. }
  repeat split.
  - unfold steam_api_chatlog_cb. run. fold accid. rewrite chatlog_loop_run.
    cbn. rewrite app_nil_r, rev_involutive. reflexivity.
  - subst kept. rewrite filter_In in H. tauto.
  - subst kept. rewrite filter_In, Hk in H. tauto.
  - subst kept. rewrite filter_In, Hk in H. tauto.
  - intros (Hin & H1 & H2). subst kept. rewrite filter_In, Hk. tauto.
  - intros own other -> Hown Ho1 Ho2. subst kept. cbn [filter].
    assert (chatlog_kept accid own = false) as ->.
    { unfold chatlog_kept. rewrite Hown. cbn. now rewrite Z.eqb_refl. }
    assert (chatlog_kept accid other = true) as -> by (apply Hk; tauto).
    reflexivity.
Qed.

(** ** Summary batching *)

Lemma string_app_assoc (a b c : string) : (a ++ b) ++ c = a ++ b ++ c.
Proof. induction a; cbn; congruence. Qed.

Lemma string_app_nil_r (a : string) : a ++ "" = a.
Proof. induction a; cbn; congruence. Qed.

Lemma existsb_eqb_In (id : string) (l : list string) :
  existsb (String.eqb id) l = true <-> In id l.
Proof.
  rewrite existsb_exists. split.
  - intros (x & Hx & He). apply String.eqb_eq in He. now subst.
  - intros H. exists id. split; [exact H | apply String.eqb_refl].
Qed.

Lemma existsb_eqb_not_In (id : string) (l : list string) :
  existsb (String.eqb id) l = false <-> ~ In id l.
Proof.
  rewrite <- existsb_eqb_In. now destruct (existsb (String.eqb id) l).
Qed.

Lemma first_new_zero (seen ids : list string) : first_new seen 0 ids = [].
Proof. destruct ids; reflexivity. Qed.

Lemma first_new_spec (ids : list string) :
  forall seen n,
    (List.length (first_new seen n ids) <= n)%nat /\
    NoDup (first_new seen n ids) /\
    (forall x, In x (first_new seen n ids) -> In x ids /\ ~ In x seen).
Proof.
  induction ids as [|id rest IH]; intros seen n; cbn.
  - repeat split; try lia; try constructor; contradiction.
  - destruct n as [|n]; [repeat split; try lia; try constructor; contradiction|].
    destruct (existsb (String.eqb id) seen) eqn:He.
    + destruct (IH seen (S n)) as (Hl & Hn & Hi). repeat split; auto.
      * right. now apply Hi.
      * now apply Hi.
    + destruct (IH (seen ++ [id])%list n) as (Hl & Hn & Hi).
      apply existsb_eqb_not_In in He. cbn. repeat split.
      * lia.
      * constructor; [|exact Hn]. intros Hin. apply Hi in Hin.
        destruct Hin as [_ Hin]. apply Hin, in_or_app. right. now left.
      * destruct H as [<-|H]; [now left | right; now apply Hi].
      * destruct H as [<-|H]; [exact He|].
        apply Hi in H. destruct H as [_ H]. intros Hs. apply H, in_or_app. now left.
Qed.

Lemma first_new_nodup (ids : list string) :
  forall seen n,
    NoDup ids -> (forall x, In x ids -> ~ In x seen) ->
    first_new seen n ids = firstn n ids.
Proof.
  induction ids as [|id rest IH]; intros seen n Hnd Hdis; cbn.
  - now destruct n.
  - destruct n as [|n]; [reflexivity|].
    assert (existsb (String.eqb id) seen = false) as ->
      by (apply existsb_eqb_not_In, Hdis; now left).
    cbn [firstn]. f_equal. inversion Hnd as [|? ? Hnotin Hnd']; subst.
    apply IH; [exact Hnd'|].
    intros x Hx Hin. apply in_app_or in Hin. destruct Hin as [Hin|[<-|[]]].
    + apply (Hdis x); [now right | exact Hin].
    + contradiction.
Qed.

Lemma summaries_batch_nodup (ids : list string) :
  NoDup ids -> summaries_batch ids = firstn 100 ids.
Proof. intros H. apply first_new_nodup; auto. Qed.

Lemma summaries_collect_run (l : list addr) :
  forall tbl gstr i w ids,
    sums_ids (heap w) l = Some ids ->
    0 <= i < 100 ->
    summaries_collect l tbl gstr i w =
      Some (((tbl ++ first_new tbl (Z.to_nat (100 - i)) ids)%list,
             gstr ++ comma_list (first_new tbl (Z.to_nat (100 - i)) ids)), w).
Proof.
  induction l as [|p rest IH]; intros tbl gstr i w ids Hids Hi.
  - cbn in Hids. injection Hids as <-. cbn.
    now rewrite app_nil_r, string_app_nil_r.
  - cbn [sums_ids] in Hids. cbn [summaries_collect].
    unfold bind at 1, smry_get at 1.
    destruct (nth_error (heap w) p) as [s|]; [|discriminate].
    destruct (steamid s) as [id|]; [|discriminate].
    destruct (sums_ids (heap w) rest) as [ids'|] eqn:Hrest; [|discriminate].
    injection Hids as <-.
    assert (Hn : Z.to_nat (100 - i) = S (Z.to_nat (100 - (i + 1)))) by lia.
    rewrite Hn. cbn [first_new]. rewrite <- Hn.
    destruct (existsb (String.eqb id) tbl).
    + now apply IH.
    + destruct (Z.eq_dec i 99) as [->|Hne].
      * change ((99 + 1) mod 100 =? 0) with true. cbv iota.
        change (Z.to_nat (100 - (99 + 1))) with 0%nat.
        rewrite first_new_zero. reflexivity.
      * rewrite Z.mod_small by lia.
        destruct (Z.eqb_spec (i + 1) 0); [lia|].
        rewrite (IH _ _ (i + 1) w ids') by (auto; lia).
        cbn [comma_list]. rewrite <- app_assoc, !string_app_assoc. reflexivity.
Qed.

Lemma steam_api_summaries_run (sata : SteamApiData) (w : World)
  (ids : list string) :
  sums sata <> [] ->
  sums_ids (heap w) (sums sata) = Some ids ->
  steam_api_summaries sata w =
    Some (summaries_sent sata (summaries_request (token (api w)) (summaries_batch ids)),
          world_add_trace w
            [ steam_http_req_send
                (summaries_request (token (api w)) (summaries_batch ids)) ]).
Proof.
  intros Hne Hids. unfold steam_api_summaries.
  destruct (sums sata) as [|p rest] eqn:Hs; [contradiction|].
  unfold bind at 1.
  replace (sums (sata_set_flags sata (flags_or_nocall_nofree (flags sata))))
    with (p :: rest) by (destruct sata; cbn in *; congruence).
  rewrite (summaries_collect_run (p :: rest) [] "" 0 w ids Hids) by lia.
  run. destruct sata. reflexivity.
Qed.

Lemma g_strcmp0_eqb (a b : string) :
  (g_strcmp0 (Some a) (Some b) =? 0) = String.eqb a b.
Proof.
  unfold g_strcmp0. destruct (String.eqb_spec a b) as [->|Hne].
  - assert (String.compare b b = Eq) as ->.
    { pose proof (String.compare_antisym b b) as H.
      destruct (String.compare b b); [reflexivity | discriminate | discriminate]. }
    reflexivity.
  - destruct (String.compare a b) eqn:E; try reflexivity.
    apply String.compare_eq_iff in E. contradiction.
Qed.

Lemma sums_ids_view (h h' : list SteamFriendSummary) (l : list addr) :
  map steamid h = map steamid h' -> sums_ids h l = sums_ids h' l.
Proof.
  intros Hv. induction l as [|p rest IH]; cbn; [reflexivity|].
  assert (Hp : option_map steamid (nth_error h p) = option_map steamid (nth_error h' p))
    by now rewrite <- !nth_error_map, Hv.
  rewrite IH.
  destruct (nth_error h p), (nth_error h' p); cbn in Hp; try discriminate; auto.
  injection Hp as ->. reflexivity.
Qed.

Lemma list_set_view (h : list SteamFriendSummary) :
  forall p s s',
    nth_error h p = Some s -> steamid s' = steamid s ->
    map steamid (list_set h p s') = map steamid h.
Proof.
  induction h as [|x h IH]; intros [|p] s s' Hn Hs; cbn in *; try discriminate.
  - injection Hn as ->. now rewrite Hs.
  - f_equal. now apply (IH p s).
Qed.

Lemma summary_json_run (p : addr) (je : option json_value) (w : World)
  (s : SteamFriendSummary) :
  nth_error (heap w) p = Some s ->
  exists w',
    steam_friend_summary_json p je w = Some (tt, w') /\
    map steamid (heap w') = map steamid (heap w) /\
    api w' = api w /\ trace w' = trace w.
Proof.
  intros Hn. unfold steam_friend_summary_json. run. rewrite Hn. cbn. rewrite Hn.
  eexists. split; [reflexivity|]. cbn. repeat split.
  now apply (list_set_view _ _ s).
Qed.

Lemma sums_ids_cons (h : list SteamFriendSummary) (p : addr) (l : list addr)
  (id : string) (ids : list string) :
  sums_ids h [p] = Some [id] -> sums_ids h l = Some ids ->
  sums_ids h (p :: l) = Some (id :: ids).
Proof.
  cbn. intros H1 H2. rewrite H2.
  destruct (nth_error h p) as [s|]; [|discriminate].
  destruct (steamid s); [|discriminate]. now injection H1 as ->.
Qed.

Lemma summaries_fill_run (str : string) (je : json_value) (l : list addr) :
  forall w ids,
    sums_ids (heap w) l = Some ids ->
    exists l' w',
      summaries_fill str je l w = Some (l', w') /\
      sums_ids (heap w') l' = Some (filter (fun id => negb (String.eqb id str)) ids) /\
      map steamid (heap w') = map steamid (heap w) /\
      api w' = api w /\ trace w' = trace w.
Proof.
  induction l as [|p rest IH]; intros w ids Hids.
  - cbn in Hids. injection Hids as <-. exists [], w. repeat split.
  - cbn [sums_ids] in Hids. cbn [summaries_fill]. unfold bind at 1, smry_get at 1.
    destruct (nth_error (heap w) p) as [s|] eqn:Hn; [|discriminate].
    destruct (steamid s) as [id|] eqn:Hid; [|discriminate].
    destruct (sums_ids (heap w) rest) as [ids'|] eqn:Hrest; [|discriminate].
    injection Hids as <-. rewrite g_strcmp0_eqb. cbn [filter].
    destruct (String.eqb id str); cbn [negb].
    + destruct (summary_json_run p (Some je) w s Hn) as (w1 & E1 & Hv1 & Ha1 & Ht1).
      unfold bind at 1. rewrite E1.
      destruct (IH w1 ids') as (l' & w' & E & Hs & Hv & Ha & Ht).
      { now rewrite (sums_ids_view _ (heap w)). }
      exists l', w'. rewrite E. repeat split; congruence.
    + destruct (IH w ids' Hrest) as (l' & w' & E & Hs & Hv & Ha & Ht).
      unfold bind at 1. rewrite E. exists (p :: l'), w'.
      split; [reflexivity|]. split; [|auto].
      apply sums_ids_cons; [|exact Hs].
      rewrite (sums_ids_view _ (heap w)) by exact Hv.
      cbn. now rewrite Hn, Hid.
Qed.

Lemma player_of_steamid (id : string) :
  id <> "" -> steam_json_str (Some (player_of id)) "steamid" = (true, Some id).
Proof.
  intros Hne. unfold steam_json_str.
  change (steam_json_val (Some (player_of id)) "steamid" json_string)
    with (true, Some (JString id)).
  cbv beta iota.
  destruct (Z.of_nat (String.length id) <? 1) eqn:Hl; [|reflexivity].
  apply Z.ltb_lt in Hl. destruct id; [contradiction|].
  cbn [String.length] in Hl. lia.
Qed.

Lemma summaries_players_run (batch : list string) :
  forall sata w ids,
    sums_ids (heap w) (sums sata) = Some ids ->
    Forall (fun id => id <> "") batch ->
    exists sata' w',
      summaries_players (map player_of batch) sata w = Some (sata', w') /\
      sums_ids (heap w') (sums sata') = Some (remove_ids batch ids) /\
      api w' = api w /\ trace w' = trace w.
Proof.
  induction batch as [|b rest IH]; intros sata w ids Hids Hne.
  - exists sata, w. repeat split. exact Hids.
  - inversion Hne as [|? ? Hb Hrest]; subst.
    cbn [map summaries_players remove_ids]. rewrite (player_of_steamid b Hb).
    destruct (summaries_fill_run b (player_of b) (sums sata) w ids Hids)
      as (l' & w1 & E1 & Hs1 & Hv1 & Ha1 & Ht1).
    unfold bind at 1. rewrite E1.
    destruct (IH (sata_set_sums sata l') w1 _ Hs1 Hrest) as (sata' & w' & E & Hs & Ha & Ht).
    exists sata', w'. rewrite E. repeat split; congruence.
Qed.

Lemma filter_not_in (b : string) (l : list string) :
  ~ In b l -> filter (fun id => negb (String.eqb id b)) l = l.
Proof.
  induction l as [|x l IH]; cbn; [reflexivity|]. intros Hn.
  destruct (String.eqb_spec x b) as [->|Hne]; cbn.
  - exfalso. apply Hn. now left.
  - f_equal. apply IH. intros Hin. apply Hn. now right.
Qed.

Lemma remove_firstn (ids : list string) :
  forall n, NoDup ids -> remove_ids (firstn n ids) ids = skipn n ids.
Proof.
  induction ids as [|b rest IH]; intros [|n] Hnd; cbn; try reflexivity.
  inversion Hnd as [|? ? Hnotin Hnd']; subst.
  rewrite String.eqb_refl. cbn. rewrite filter_not_in by exact Hnotin.
  now apply IH.
Qed.

Lemma sums_ids_nil (h : list SteamFriendSummary) (l : list addr)
  (ids : list string) :
  sums_ids h l = Some ids -> (l = [] <-> ids = []).
Proof.
  destruct l as [|p rest]; cbn.
  - intros [= <-]. tauto.
  - destruct (nth_error h p) as [s|]; [|discriminate].
    destruct (steamid s); [|discriminate].
    destruct (sums_ids h rest); [|discriminate].
    intros [= <-]. split; discriminate.
Qed.

(** One response of the exchange: the server answers the outstanding batch,
    the answered identities leave the pending list, and the next batch is
    requested if identities remain. *)
Lemma exchange_round (sata : SteamApiData) (w : World) (ids : list string) :
  sums_ids (heap w) (sums sata) = Some ids ->
  ids <> [] ->
  NoDup ids ->
  Forall (fun id => id <> "") ids ->
  exists sata1 w1,
    (json <- summaries_response_for sata ;;
     steam_api_summaries_cb sata (Some json)) w = Some (sata1, w1) /\
    sums_ids (heap w1) (sums sata1) = Some (skipn 100 ids) /\
    api w1 = api w /\
    trace w1 =
      (trace w ++
       match skipn 100 ids with
       | [] => []
       | _ :: _ =>
           [ steam_http_req_send
               (summaries_request (token (api w)) (firstn 100 (skipn 100 ids))) ]
       end)%list.
Proof.
  intros Hids Hne Hnd Hnz.
  unfold summaries_response_for. unfold bind at 1. unfold bind at 1.
  rewrite (summaries_collect_run _ [] "" 0 w ids Hids) by lia.
  change (Z.to_nat (100 - 0)) with 100%nat.
  rewrite (first_new_nodup ids [] 100 Hnd) by auto.
  unfold ret at 1. cbn [fst app].
  unfold steam_api_summaries_cb.
  change (steam_json_val (Some (players_body (firstn 100 ids))) "players" json_array)
    with (true, Some (JArray (map player_of (firstn 100 ids)))).
  assert (Hlen : (Z.of_nat (List.length (map player_of (firstn 100 ids))) <? 1) = false).
  { destruct ids; [contradiction|]. cbn. apply Z.ltb_ge. lia. }
  cbv beta iota. rewrite Hlen.
  assert (Hfz : Forall (fun id => id <> "") (firstn 100 ids)).
  { rewrite <- (firstn_skipn 100 ids) in Hnz. now apply Forall_app in Hnz. }
  destruct (summaries_players_run (firstn 100 ids) sata w ids Hids Hfz)
    as (sata' & w' & E & Hs & Ha & Ht).
  unfold bind at 1. rewrite E. rewrite remove_firstn in Hs by exact Hnd.
  destruct (sums sata') as [|p rest] eqn:Hsums.
  - assert (skipn 100 ids = []) as Hsk.
    { apply (sums_ids_nil _ _ _ Hs). reflexivity. }
    unfold steam_api_summaries. rewrite Hsums. exists sata', w'.
    rewrite Hsk, app_nil_r, Hsums. repeat split; auto.
  - assert (Hnn : sums sata' <> []) by (rewrite Hsums; discriminate).
    rewrite <- Hsums in Hs.
    rewrite (steam_api_summaries_run sata' w' _ Hnn Hs).
    assert (NoDup (skipn 100 ids)) as Hnd'.
    { rewrite <- (firstn_skipn 100 ids) in Hnd. now apply NoDup_app_remove_l in Hnd. }
    rewrite (summaries_batch_nodup _ Hnd').
    do 2 eexists. split; [reflexivity|].
    unfold summaries_sent, world_add_trace.
    cbn [sums heap api trace sata_set_req sata_set_flags].
    rewrite Ha, Ht. split; [exact Hs|]. split; [reflexivity|].
    destruct (skipn 100 ids) as [|x xs] eqn:Hsk; [|reflexivity].
    exfalso. apply Hnn. now apply (sums_ids_nil _ _ _ Hs).
Qed.

Lemma exchange_step (n : nat) (sata : SteamApiData) (w : World) :
  sums sata <> [] ->
  summaries_exchange (S n) sata w =
    match (json <- summaries_response_for sata ;;
           steam_api_summaries_cb sata (Some json)) w with
    | Some (sata', w') => summaries_exchange n sata' w'
    | None => None
    end.
Proof.
  intros Hne. cbn [summaries_exchange].
  destruct (sums sata); [contradiction|].
  unfold bind. destruct (summaries_response_for sata w) as [[j w']|]; reflexivity.
Qed.

Lemma exchange_done (n : nat) (sata : SteamApiData) (w : World) :
  sums sata = [] -> summaries_exchange n sata w = Some (sata, w).
Proof. intros H. destruct n; cbn; [|rewrite H]; reflexivity. Qed.

Lemma string_drop_last_app (s1 s2 : string) :
  s2 <> "" -> string_drop_last (s1 ++ s2) = s1 ++ string_drop_last s2.
Proof.
  intros Hne. induction s1 as [|c s1 IH]; [reflexivity|].
  cbn [append string_drop_last]. rewrite IH.
  destruct (s1 ++ s2) eqn:E; [|reflexivity].
  destruct s1; [cbn in E; contradiction | discriminate].
Qed.

Lemma comma_list_joined (batch : list string) :
  batch <> [] -> string_drop_last (comma_list batch) = String.concat "," batch.
Proof.
  induction batch as [|a rest IH]; [contradiction|]. intros _.
  destruct rest as [|b rest].
  - cbn. rewrite string_drop_last_app by discriminate. cbn.
    now rewrite string_app_nil_r.
  - cbn [comma_list String.concat] in *.
    rewrite string_drop_last_app.
    + rewrite string_drop_last_app.
      * now rewrite IH.
      * destruct b; discriminate.
    + discriminate.
Qed.

Lemma nonempty_of_length {A : Type} (l : list A) :
  (0 < List.length l)%nat -> exists x xs, l = x :: xs.
Proof. destruct l; cbn; [lia | eauto]. Qed.

Lemma match_nonempty {A B : Type} (l : list A) (a b : B) :
  l <> [] -> match l with [] => a | _ :: _ => b end = b.
Proof. destruct l; [contradiction | reflexivity]. Qed.

(** C3: a summaries request lists at most 100 identities, none of them
    twice, all of them pending, joined by commas.  With 250 distinct
    identities pending, and a server that answers every identity it is asked
    for, the response to each request sends the next one until nothing is
    pending: exactly three requests, for the first 100, the next 100 and the
    last 50 identities, however many further responses are allowed for. *)
Theorem summaries_batching (sata : SteamApiData) (w : World)
  (ids : list string) :
  sums_ids (heap w) (sums sata) = Some ids ->
  ids <> [] ->
  let tok := token (api w) in
  let request batch := steam_http_req_send (summaries_request tok batch) in
  steam_api_summaries sata w =
    Some (summaries_sent sata (summaries_request tok (summaries_batch ids)),
          world_add_trace w [ request (summaries_batch ids) ]) /\
  (List.length (summaries_batch ids) <= 100)%nat /\
  NoDup (summaries_batch ids) /\
  incl (summaries_batch ids) ids /\
  string_drop_last (comma_list (summaries_batch ids))
    = String.concat "," (summaries_batch ids) /\
  (List.length ids = 250%nat ->
   NoDup ids ->
   Forall (fun id => id <> "") ids ->
   forall rounds, (3 <= rounds)%nat ->
     exists sata' w',
       (sata1 <- steam_api_summaries sata ;; summaries_exchange rounds sata1) w
         = Some (sata', w') /\
       sums sata' = [] /\
       trace w' =
         (trace w ++ [ request (firstn 100 ids);
                       request (firstn 100 (skipn 100 ids));
                       request (skipn 200 ids) ])%list /\
       List.length (firstn 100 ids) = 100%nat /\
       List.length (firstn 100 (skipn 100 ids)) = 100%nat /\
       List.length (skipn 200 ids) = 50%nat).
Proof.
  intros Hids Hne tok request.
  assert (Hnn : sums sata <> []).
  { intros H. apply Hne. now apply (sums_ids_nil _ _ _ Hids). }
  destruct (first_new_spec ids [] 100) as (Hlen & Hnd & Hin).
  split; [now apply steam_api_summaries_run|].
  split; [exact Hlen|]. split; [exact Hnd|].
  split; [intros x Hx; now apply Hin|].
  split.
  { apply comma_list_joined. unfold summaries_batch.
    destruct ids as [|a rest]; [contradiction|]. discriminate. }
  intros H250 Hnodup Hnz rounds Hrounds.
  destruct rounds as [|[|[|k]]]; try lia.
  unfold bind at 1. rewrite (steam_api_summaries_run sata w ids Hnn Hids).
  rewrite (summaries_batch_nodup ids Hnodup).
  set (sata1 := summaries_sent sata _). set (w1 := world_add_trace w _).
  assert (Hids1 : sums_ids (heap w1) (sums sata1) = Some ids)
    by (destruct sata; exact Hids).
  assert (Hnn1 : sums sata1 <> []) by (destruct sata; exact Hnn).
  (* first response *)
  rewrite (exchange_step _ sata1 w1 Hnn1).
  destruct (exchange_round sata1 w1 ids Hids1 Hne Hnodup Hnz)
    as (sata2 & w2 & E2 & Hids2 & Ha2 & Ht2).
  rewrite E2.
  set (ids1 := skipn 100 ids) in *.
  assert (Hl1 : List.length ids1 = 150%nat) by (subst ids1; rewrite length_skipn; lia).
  assert (Hnd1 : NoDup ids1).
  { rewrite <- (firstn_skipn 100 ids) in Hnodup. now apply NoDup_app_remove_l in Hnodup. }
  assert (Hnz1 : Forall (fun id => id <> "") ids1).
  { rewrite <- (firstn_skipn 100 ids) in Hnz. now apply Forall_app in Hnz. }
  destruct (nonempty_of_length ids1) as (x1 & xs1 & Hx1); [lia|].
  assert (Hne1 : ids1 <> []) by (rewrite Hx1; discriminate).
  assert (Hnn2 : sums sata2 <> []).
  { intros H. apply Hne1. now apply (sums_ids_nil _ _ _ Hids2). }
  (* second response *)
  rewrite (exchange_step _ sata2 w2 Hnn2).
  destruct (exchange_round sata2 w2 ids1 Hids2 Hne1 Hnd1 Hnz1)
    as (sata3 & w3 & E3 & Hids3 & Ha3 & Ht3).
  rewrite E3.
  assert (Hsk2 : skipn 100 ids1 = skipn 200 ids)
    by (subst ids1; now rewrite skipn_skipn).
  rewrite Hsk2 in Hids3, Ht3.
  set (ids2 := skipn 200 ids) in *.
  assert (Hl2 : List.length ids2 = 50%nat) by (subst ids2; rewrite length_skipn; lia).
  assert (Hnd2 : NoDup ids2).
  { rewrite <- (firstn_skipn 200 ids) in Hnodup. now apply NoDup_app_remove_l in Hnodup. }
  assert (Hnz2 : Forall (fun id => id <> "") ids2).
  { rewrite <- (firstn_skipn 200 ids) in Hnz. now apply Forall_app in Hnz. }
  destruct (nonempty_of_length ids2) as (x2 & xs2 & Hx2); [lia|].
  assert (Hne2 : ids2 <> []) by (rewrite Hx2; discriminate).
  assert (Hnn3 : sums sata3 <> []).
  { intros H. apply Hne2. now apply (sums_ids_nil _ _ _ Hids3). }
  (* third response *)
  rewrite (exchange_step _ sata3 w3 Hnn3).
  destruct (exchange_round sata3 w3 ids2 Hids3 Hne2 Hnd2 Hnz2)
    as (sata4 & w4 & E4 & Hids4 & Ha4 & Ht4).
  rewrite E4.
  assert (Hsk3 : skipn 100 ids2 = []) by (apply skipn_all2; lia).
  rewrite Hsk3 in Hids4, Ht4.
  assert (Hs4 : sums sata4 = []) by now apply (sums_ids_nil _ _ _ Hids4).
  rewrite (exchange_done k sata4 w4 Hs4).
  exists sata4, w4. split; [reflexivity|]. split; [exact Hs4|].
  split.
  - rewrite (match_nonempty ids1) in Ht2 by exact Hne1.
    rewrite (match_nonempty ids2) in Ht3 by exact Hne2.
    rewrite Ht4, app_nil_r, Ht3, Ht2.
    rewrite (firstn_all2 (n := 100) ids2) by lia.
    rewrite Ha2. subst w1. unfold world_add_trace. cbn [trace api].
    rewrite <- !app_assoc. reflexivity.
  - rewrite !length_firstn. lia.
Qed.

End Properties.

(** * Worked examples *)

Lemma steamid_accountid_roundtrip_witness :
  steam_api_steamid_int (ext := sample_env)
    (steam_api_accountid_int (ext := sample_env) 76561197960287930)
  = 76561197960287930.
Proof.
  apply (steamid_accountid_roundtrip (ext := sample_env) 76561197960287930).
  unfold in_int64, INT64_MIN, INT64_MAX. lia.
Defined.

(** The claim C5 requires a body with at least one message never to fail on
    the timeout check; this one does. *)
Lemma poll_timeout_counterexample :
  poll_error_gate (Some poll_body_no_sectimeout) = None /\
  poll_size (Some poll_body_no_sectimeout) = 1 /\
  steam_api_poll_cb (ext := sample_env)
    (fresh_context STEAM_API_TYPE_POLL STEAM_API_HOST STEAM_API_PATH_POLL)
    (Some poll_body_no_sectimeout) (sample_world 0 false)
  = Some (sata_set_err
            (fresh_context STEAM_API_TYPE_POLL STEAM_API_HOST STEAM_API_PATH_POLL)
            (Some {| err_code := STEAM_API_ERROR STEAM_API_ERROR_POLL;
                     err_message := "Timeout of 0 too low" |}),
          sample_world 0 false).
Proof. repeat split. Qed.

Lemma poll_timeout_check_witness :
  poll_timeout_low (ext := sample_env) (Some poll_body_same_cursor_ok) = true <->
  fst (steam_json_int (Some poll_body_same_cursor_ok) "sectimeout") = false \/
  (snd (steam_json_int (Some poll_body_same_cursor_ok) "sectimeout") < 30
   /\ poll_size (Some poll_body_same_cursor_ok) < 1).
Proof.
  apply (poll_timeout_check (ext := sample_env)
           (fresh_context STEAM_API_TYPE_POLL STEAM_API_HOST STEAM_API_PATH_POLL)
           (Some poll_body_same_cursor_ok) (sample_world 5 false));
    reflexivity.
Defined.

(** The claim C6 requires every error-less poll body that repeats the cursor
    to set no error; these two repeat the cursor 5 and get an error, the
    first for want of a ["sectimeout"], the second for a ["sectimeout"] below
    the minimum of 30 with no message. *)
Lemma poll_same_cursor_counterexample :
  poll_error_gate (Some poll_body_same_cursor) = None /\
  steam_json_int (Some poll_body_same_cursor) "messagelast"
    = (true, lmid (api (sample_world 5 false))) /\
  steam_api_poll_cb (ext := sample_env)
    (fresh_context STEAM_API_TYPE_POLL STEAM_API_HOST STEAM_API_PATH_POLL)
    (Some poll_body_same_cursor) (sample_world 5 false)
  = Some (sata_set_err
            (fresh_context STEAM_API_TYPE_POLL STEAM_API_HOST STEAM_API_PATH_POLL)
            (Some {| err_code := STEAM_API_ERROR STEAM_API_ERROR_POLL;
                     err_message := "Timeout of 0 too low" |}),
          sample_world 5 false) /\
  poll_error_gate (Some poll_body_same_cursor_low) = None /\
  steam_json_int (Some poll_body_same_cursor_low) "messagelast"
    = (true, lmid (api (sample_world 5 false))) /\
  steam_api_poll_cb (ext := sample_env)
    (fresh_context STEAM_API_TYPE_POLL STEAM_API_HOST STEAM_API_PATH_POLL)
    (Some poll_body_same_cursor_low) (sample_world 5 false)
  = Some (sata_set_err
            (fresh_context STEAM_API_TYPE_POLL STEAM_API_HOST STEAM_API_PATH_POLL)
            (Some {| err_code := STEAM_API_ERROR STEAM_API_ERROR_POLL;
                     err_message := "Timeout of 20 too low" |}),
          sample_world 5 false).
Proof. repeat split. Qed.

Lemma poll_same_cursor_is_noop_witness :
  exists sata',
    steam_api_poll_cb (ext := sample_env)
      (fresh_context STEAM_API_TYPE_POLL STEAM_API_HOST STEAM_API_PATH_POLL)
      (Some poll_body_same_cursor_ok) (sample_world 5 false)
    = Some (sata', sample_world 5 false) /\
    rdata sata' = RNull.
Proof.
  destruct (poll_same_cursor_is_noop (ext := sample_env)
              (fresh_context STEAM_API_TYPE_POLL STEAM_API_HOST STEAM_API_PATH_POLL)
              (Some poll_body_same_cursor_ok) (sample_world 5 false))
    as (sata' & E & Hr & _); [reflexivity | reflexivity | reflexivity |].
  exists sata'. split; [exact E | exact Hr].
Defined.

(** The claim C2 requires the queue to stay paused after a failed relogon;
    here the queue was paused, the relogon fails, and the handler leaves the
    queue running. *)
Lemma relogon_failure_counterexample :
  queue_paused (http (api (sample_world 5 true))) = true /\
  exists sata' w',
    steam_api_relogon_cb
      (fresh_context STEAM_API_TYPE_RELOGON STEAM_API_HOST STEAM_API_PATH_LOGON)
      (Some relogon_body_failed) (sample_world 5 true)
    = Some (sata', w') /\
    err sata' = Some {| err_code := STEAM_API_ERROR STEAM_API_ERROR_RELOGON;
                        err_message := "Failed" |} /\
    queue_paused (http (api w')) = false.
Proof. split; [reflexivity|]. do 2 eexists. repeat split. Qed.

Lemma relogon_dispatch_always_unpauses_witness :
  exists res w',
    steam_api_cb (ext := parsing_to relogon_body_failed)
      (fresh_request STEAM_API_HOST STEAM_API_PATH_LOGON)
      (fresh_context STEAM_API_TYPE_RELOGON STEAM_API_HOST STEAM_API_PATH_LOGON)
      (sample_world 5 true)
    = Some (res, w') /\
    queue_paused (http (api w')) = false /\
    In (user_callback 7
          (SteamApiFunc
             (Some {| err_code := STEAM_API_ERROR STEAM_API_ERROR_RELOGON;
                      err_message := "Relogon: Failed" |}) 0%nat))
       (trace w').
Proof.
  destruct (relogon_dispatch_always_unpauses (ext := parsing_to relogon_body_failed)
              (fresh_context STEAM_API_TYPE_RELOGON STEAM_API_HOST STEAM_API_PATH_LOGON)
              (fresh_request STEAM_API_HOST STEAM_API_PATH_LOGON)
              relogon_body_failed (sample_world 5 true))
    as [E _]; try reflexivity.
  do 2 eexists. split; [exact E|]. split; [reflexivity|].
  cbn. left. reflexivity.
Defined.

(** The claim C1 requires the caller's callback not to be called before the
    resend completes; the dispatch of the "Not Logged On" response itself
    calls it, with the logon-expired error, and keeps the context. *)
Lemma not_logged_on_callback_counterexample :
  exists kept w',
    poll_round_trip (ext := parsing_to poll_body_not_logged_on) (Some 7%nat) 0%nat
      (sample_world 5 false)
    = Some (Some kept, w') /\
    queue_paused (http (api w')) = true /\
    In (user_callback 7
          (SteamApiListFunc RNull
             (Some {| err_code := STEAM_API_ERROR STEAM_API_ERROR_LOGON_EXPIRED;
                      err_message := "Polling: Logon session expired" |}) 0%nat))
       (trace w').
Proof.
  do 2 eexists. split; [vm_compute; reflexivity|]. split; [reflexivity|].
  cbn. right. right. left. reflexivity.
Qed.

Lemma not_logged_on_dispatch_witness :
  exists res w',
    steam_api_cb (ext := parsing_to poll_body_not_logged_on)
      (fresh_request STEAM_API_HOST STEAM_API_PATH_POLL)
      (fresh_context STEAM_API_TYPE_POLL STEAM_API_HOST STEAM_API_PATH_POLL)
      (sample_world 5 false)
    = Some (res, w') /\
    queue_paused (http (api w')) = true.
Proof.
  destruct (not_logged_on_dispatch (ext := parsing_to poll_body_not_logged_on)
              (fresh_context STEAM_API_TYPE_POLL STEAM_API_HOST STEAM_API_PATH_POLL)
              (fresh_request STEAM_API_HOST STEAM_API_PATH_POLL)
              poll_body_not_logged_on "Not Logged On" (sample_world 5 false))
    as [E _]; try reflexivity; [left; reflexivity|].
  do 2 eexists. split; [exact E | reflexivity].
Defined.


(** The claim C4 has an identity that is listed twice registered once; here
    it is on the result list twice and pending twice, as two instances. *)
Lemma friends_duplicate_counterexample :
  steam_api_friends_cb
    (fresh_context STEAM_API_TYPE_FRIENDS STEAM_API_HOST STEAM_API_PATH_FRIENDS)
    (Some friends_body_twice) (sample_world 5 false)
  = Some (sata_set_rdata
            (sata_set_sums
               (fresh_context STEAM_API_TYPE_FRIENDS STEAM_API_HOST STEAM_API_PATH_FRIENDS)
               [1%nat; 0%nat])
            (RSummaries [1%nat; 0%nat]),
          {| api := sample_api 5 false;
             heap :=
               [ smry_set_relation
                   (steam_friend_summary_new (Some "76561197960287930"))
                   STEAM_FRIEND_RELATION_FRIEND;
                 smry_set_relation
                   (steam_friend_summary_new (Some "76561197960287930"))
                   STEAM_FRIEND_RELATION_FRIEND ];
             trace := [] |}).
Proof. reflexivity. Qed.

Lemma friends_cb_keeps_every_entry_witness :
  steam_api_friends_cb
    (fresh_context STEAM_API_TYPE_FRIENDS STEAM_API_HOST STEAM_API_PATH_FRIENDS)
    (Some friends_body_twice) (sample_world 5 false)
  = Some (sata_set_rdata
            (sata_set_sums
               (fresh_context STEAM_API_TYPE_FRIENDS STEAM_API_HOST STEAM_API_PATH_FRIENDS)
               [1%nat; 0%nat])
            (RSummaries [1%nat; 0%nat]),
          {| api := sample_api 5 false;
             heap :=
               [ friends_summary
                   (JObject [ ("steamid", JString "76561197960287930");
                              ("relationship", JString "friend") ]);
                 friends_summary
                   (JObject [ ("steamid", JString "76561197960287930");
                              ("relationship", JString "Friend") ]) ];
             trace := [] |}).
Proof.
  apply (friends_cb_keeps_every_entry
           (fresh_context STEAM_API_TYPE_FRIENDS STEAM_API_HOST STEAM_API_PATH_FRIENDS)
           (Some friends_body_twice)
           [ JObject [ ("steamid", JString "76561197960287930");
                       ("relationship", JString "friend") ];
             JObject [ ("steamid", JString "76561197960287930");
                       ("relationship", JString "Friend") ] ]
           (sample_world 5 false)).
  reflexivity.
Defined.

Lemma chatlog_cb_excludes_own_witness :
  steam_api_chatlog_cb (ext := sample_env)
    (fresh_context STEAM_API_TYPE_CHATLOG STEAM_COM_HOST (STEAM_COM_PATH_CHATLOG 2))
    (Some (JArray [chatlog_own_entry; chatlog_other_entry])) (sample_world 5 false)
  = Some (sata_set_rdata
            (fresh_context STEAM_API_TYPE_CHATLOG STEAM_COM_HOST (STEAM_COM_PATH_CHATLOG 2))
            (RMessages [ chatlog_message 0%nat chatlog_other_entry ]),
          {| api := sample_api 5 false;
             heap := [ smry_set_steamid (steam_friend_summary_new None)
                         (Some "76561197960265730") ];
             trace := [] |}).
Proof.
  destruct (chatlog_cb_excludes_own (ext := sample_env)
           (fresh_context STEAM_API_TYPE_CHATLOG STEAM_COM_HOST (STEAM_COM_PATH_CHATLOG 2))
           [chatlog_own_entry; chatlog_other_entry] (sample_world 5 false)) as [H _].
  rewrite H. reflexivity.
Defined.

Lemma distinctb_NoDup (l : list string) : distinctb l = true -> NoDup l.
Proof.
  induction l as [|x rest IH]; cbn; [constructor|].
  intros H. apply andb_true_iff in H. destruct H as [Hx Hr].
  constructor; [|now apply IH].
  intros Hin. apply negb_true_iff in Hx.
  assert (existsb (String.eqb x) rest = true); [|congruence].
  apply existsb_exists. exists x. split; [exact Hin | apply String.eqb_refl].
Qed.

Lemma summaries_batching_witness :
  exists sata' w',
    (sata1 <- steam_api_summaries context250 ;; summaries_exchange 5 sata1) world250
      = Some (sata', w') /\
    sums sata' = [] /\
    List.length (trace w') = 3%nat.
Proof.
  destruct (summaries_batching context250 world250 ids250)
    as (_ & _ & _ & _ & _ & H).
  - vm_compute. reflexivity.
  - discriminate.
  - destruct (H eq_refl) with (rounds := 5%nat) as (sata' & w' & E & Hs & Ht & _).
    + apply distinctb_NoDup. vm_compute. reflexivity.
    + apply Forall_forall. intros id Hin ->.
      assert (existsb (String.eqb "") ids250 = true) as Hex.
      { apply existsb_exists. exists "". split; [exact Hin | reflexivity]. }
      vm_compute in Hex. discriminate.
    + lia.
    + exists sata', w'. split; [exact E|]. split; [exact Hs|].
      rewrite Ht. reflexivity.
Defined.


(** * Further properties *)

Section Further.

Context {ext : Externals}.

#[local] Arguments steam_json_val : simpl never.
#[local] Arguments steam_json_str : simpl never.
#[local] Arguments steam_json_int : simpl never.
#[local] Arguments steam_json_bool : simpl never.
#[local] Arguments steam_json_scmp : simpl never.
#[local] Arguments steam_json_tree : simpl never.
#[local] Arguments string_of_Z : simpl never.

Ltac step :=
  unfold bind, ret, emit, get_api, set_api, smry_alloc, smry_get, smry_put,
    steam_api_message_new, undefined, steam_http_queue_pause; cbn.

(** ** The dispatcher's last part, with the label written out *)

Lemma finish_labelled (sata : SteamApiData) (rq : SteamHttpReq) (w : World) :
  req sata = Some rq ->
  steam_api_cb_finish sata w =
    Some (if kept_alive sata rq then Some (kept_context (labelled sata)) else None,
          world_add_trace w
            (callback_events (labelled sata) ++ release_events sata rq)).
Proof.
  intros Hr. rewrite (finish_run sata rq w Hr). unfold labelled, type_label.
  destruct sata as [t f d fl rd sm [e|] rq']; cbn [err type].
  - destruct t; reflexivity.
  - destruct (steam_api_type_str (type_int t)); reflexivity.
Qed.

(** ** Identity conversion *)

(** X1: [steam_api_accountid_int] maps different 64-bit identities to
    different account numbers: the subtraction wraps around but never
    merges two identities. *)
Theorem accountid_int_injective (x y : Z) :
  in_int64 x -> in_int64 y -> x <> y ->
  steam_api_accountid_int x <> steam_api_accountid_int y.
Proof.
  intros Hx Hy Hne H. apply Hne.
  assert (Hb : forall z, in_int64 z ->
             int64 (steam_api_accountid_int z + STEAM_API_STEAMID) = z).
  { intros z Hz. unfold steam_api_accountid_int. rewrite int64_shift.
    replace (z - STEAM_API_STEAMID + STEAM_API_STEAMID) with z by ring.
    now apply int64_in_range. }
  rewrite <- (Hb x Hx), <- (Hb y Hy), H. reflexivity.
Qed.

(** ** Message types *)

Lemma strcasecmp_cons (a b : ascii) (r r' : string) :
  g_ascii_strcasecmp (String a r) (String b r') = 0 ->
  g_ascii_tolower a = g_ascii_tolower b /\ g_ascii_strcasecmp r r' = 0.
Proof.
  intros H. pose proof (strcasecmp_head a b r r' H) as Hh. split; [exact Hh|].
  cbn [g_ascii_strcasecmp] in H. cbv zeta in H.
  rewrite Hh, Ascii.eqb_refl in H. exact H.
Qed.

Lemma strcasecmp_nil_l (b : ascii) (r : string) :
  g_ascii_strcasecmp "" (String b r) = 0 -> b = nul.
Proof.
  cbn. intros H. apply char_code_inj. unfold nul. cbn. lia.
Qed.

Lemma message_type_scan_step (type : string) (i : Z) (n : nat) (s : string) :
  steam_api_message_type_str i = Some s ->
  message_type_scan type i (S n) =
    if g_ascii_strcasecmp type s =? 0 then i else message_type_scan type (i + 1) n.
Proof. intros H. cbn [message_type_scan]. now rewrite H. Qed.

Ltac lower_const H :=
  match type of H with
  | _ = ?rhs => let v := eval vm_compute in rhs in change rhs with v in H
  end.

Ltac two_labels H1 H2 s :=
  repeat (destruct s as [|? s];
          [ first [ discriminate H1 | discriminate H2 ]
          | apply strcasecmp_cons in H1; apply strcasecmp_cons in H2;
            let A := fresh "A" in
            let B := fresh "B" in
            destruct H1 as [A H1]; destruct H2 as [B H2];
            lower_const A; lower_const B; try congruence ]).

(** X2: [steam_api_message_type_from_str] undoes
    [steam_api_message_type_str] with the letter case ignored: a string equal
    to the label of a type, letter case apart, is read as that type; a
    result other than [LAST] is a type whose label equals the string, letter
    case apart; and the result is always between [0] and [LAST]. *)
Theorem message_type_from_str_spec (s : string) :
  (forall t label,
     0 <= t < STEAM_API_MESSAGE_TYPE_LAST ->
     steam_api_message_type_str t = Some label ->
     g_ascii_strcasecmp s label = 0 ->
     steam_api_message_type_from_str (Some s) = t) /\
  (steam_api_message_type_from_str (Some s) <> STEAM_API_MESSAGE_TYPE_LAST ->
   exists label,
     steam_api_message_type_str (steam_api_message_type_from_str (Some s)) = Some label
     /\ g_ascii_strcasecmp s label = 0) /\
  0 <= steam_api_message_type_from_str (Some s) <= STEAM_API_MESSAGE_TYPE_LAST.
Proof.
  unfold steam_api_message_type_from_str, STEAM_API_MESSAGE_TYPE_LAST.
  change (Z.to_nat 6) with 6%nat.
  rewrite (message_type_scan_step s 0 5 "saytext" eq_refl).
  rewrite (message_type_scan_step s (0 + 1) 4 "emote" eq_refl).
  rewrite (message_type_scan_step s (0 + 1 + 1) 3 "leftconversation" eq_refl).
  rewrite (message_type_scan_step s (0 + 1 + 1 + 1) 2 "personarelationship" eq_refl).
  rewrite (message_type_scan_step s (0 + 1 + 1 + 1 + 1) 1 "personastate" eq_refl).
  rewrite (message_type_scan_step s (0 + 1 + 1 + 1 + 1 + 1) 0 "typing" eq_refl).
  cbn [message_type_scan Z.add Pos.add Pos.succ].
  unfold STEAM_API_MESSAGE_TYPE_LAST.
  destruct (Z.eqb_spec (g_ascii_strcasecmp s "saytext") 0) as [H0|H0];
  [|destruct (Z.eqb_spec (g_ascii_strcasecmp s "emote") 0) as [H1|H1];
  [|destruct (Z.eqb_spec (g_ascii_strcasecmp s "leftconversation") 0) as [H2|H2];
  [|destruct (Z.eqb_spec (g_ascii_strcasecmp s "personarelationship") 0) as [H3|H3];
  [|destruct (Z.eqb_spec (g_ascii_strcasecmp s "personastate") 0) as [H4|H4];
  [|destruct (Z.eqb_spec (g_ascii_strcasecmp s "typing") 0) as [H5|H5]]]]]].
  all: (split; [|split; [|lia]]).
  all: try (intros _; eexists; split; [reflexivity | assumption]).
  all: try (intros Hc; exfalso; now apply Hc).
  all: intros t label Ht Hl Hs;
    assert (Hcase : t = 0 \/ t = 1 \/ t = 2 \/ t = 3 \/ t = 4 \/ t = 5) by lia;
    destruct Hcase as [ -> | [ -> | [ -> | [ -> | [ -> | -> ]]]]];
    injection Hl as <-; try reflexivity; try contradiction.
  all: exfalso.
  all: match goal with
       | Ha : g_ascii_strcasecmp ?x ?l1 = 0, Hb : g_ascii_strcasecmp ?x ?l2 = 0 |- _ =>
           two_labels Ha Hb x
       end.
Qed.

(** ** Parsers that answer with an error text *)

Lemma steam_json_str_nonempty (json : option json_value) (name s : string) :
  steam_json_str json name = (true, Some s) -> s <> "".
Proof.
  unfold steam_json_str.
  destruct (steam_json_val json name json_string) as [[|] [[]|]]; try discriminate.
  destruct (Z.of_nat (String.length s0) <? 1) eqn:Hl; [discriminate|].
  intros [= <-] ->. discriminate.
Qed.

(** X3: [steam_api_friend_accept_cb] compares ["error_text"] with the
    empty string and [steam_json_str] refuses an empty string, so for every
    response whose error text does not begin with a NUL character the parser
    sets no error and changes nothing, whatever the text says. *)
Theorem friend_accept_cb_reports_nothing (sata : SteamApiData)
  (json : option json_value) (w : World) :
  (forall r, steam_json_str json "error_text" <> (true, Some (String nul r))) ->
  steam_api_friend_accept_cb sata json w = Some (sata, w).
Proof.
  intros Hnul. unfold steam_api_friend_accept_cb, steam_json_scmp.
  destruct (steam_json_str_shape json "error_text") as [[s E]|E]; rewrite E;
    [|reflexivity].
  destruct s as [|c r]; [now apply steam_json_str_nonempty in E|].
  destruct (Z.eqb_spec (g_ascii_strcasecmp "" (String c r)) 0) as [H|H];
    [|reflexivity].
  apply strcasecmp_nil_l in H. subst c. now apply Hnul in E.
Qed.

(** ** The dispatcher when no parser runs *)

Lemma transport_error_run (r : SteamHttpReq) (sata : SteamApiData)
  (e : GError) (w : World) :
  err sata = None ->
  rerr r = Some e ->
  let r' := req_set_rerr r None in
  let failed := sata_set_req (sata_set_err sata (Some e)) (Some r') in
  steam_api_cb r sata w =
    Some (if kept_alive failed r' then Some (kept_context (labelled failed)) else None,
          world_add_trace w
            (callback_events (labelled failed) ++ release_events failed r')).
Proof.
  intros He Hr r' failed.
  unfold steam_api_cb. rewrite type_int_in_table.
  unfold steam_api_cb_input. rewrite Hr. unfold g_propagate_error. rewrite He.
  unfold steam_api_cb_parse. cbn [err sata_set_req sata_set_err].
  unfold bind at 1. unfold ret at 1.
  apply (finish_labelled _ r'). reflexivity.
Qed.

(** X4: when the transport hands back a request with an error, the
    dispatcher adopts that error, runs no parser and leaves the session as
    it is; the callback gets the error with its code unchanged and the label
    of the call type put before its message. *)
Theorem dispatch_transport_error (r : SteamHttpReq) (sata : SteamApiData)
  (e : GError) (w : World) :
  err sata = None ->
  rerr r = Some e ->
  let r' := req_set_rerr r None in
  let failed := sata_set_req (sata_set_err sata (Some e)) (Some r') in
  steam_api_cb r sata w =
    Some (if kept_alive failed r' then Some (kept_context (labelled failed)) else None,
          world_add_trace w
            (callback_events (labelled failed) ++ release_events failed r')) /\
  err (labelled failed) =
    Some {| err_code := err_code e;
            err_message := type_label (type sata) ++ ": " ++ err_message e |}.
Proof.
  intros He Hr r' failed. split.
  - now apply transport_error_run.
  - subst failed. unfold labelled. destruct sata. cbn.
    now rewrite string_app_assoc.
Qed.

(** X5: when the body of a response is not valid JSON, the dispatcher runs
    no parser and leaves the session as it is; the callback gets a parser
    error whose message is the label of the call type, ["Parser: "] and the
    text of the JSON parser. *)
Theorem dispatch_parse_failure (r : SteamHttpReq) (sata : SteamApiData)
  (estr : string) (w : World) :
  err sata = None ->
  rerr r = None ->
  STEAM_API_FLAG_NOJSON (flags sata) = false ->
  json_parse_ex (body r) = inr estr ->
  let failed :=
    sata_set_req
      (sata_set_err sata
         (Some {| err_code := STEAM_JSON_ERROR_PARSER;
                  err_message := "Parser: " ++ estr |}))
      (Some r) in
  steam_api_cb r sata w =
    Some (if kept_alive failed r then Some (kept_context (labelled failed)) else None,
          world_add_trace w
            (callback_events (labelled failed) ++ release_events failed r)) /\
  err (labelled failed) =
    Some {| err_code := STEAM_JSON_ERROR_PARSER;
            err_message := type_label (type sata) ++ ": Parser: " ++ estr |}.
Proof.
  intros He Hr Hj Hp failed. split.
  - unfold steam_api_cb. rewrite type_int_in_table.
    unfold steam_api_cb_input, steam_json_new. rewrite Hr, Hj, Hp. cbn [negb].
    unfold g_set_error. rewrite He.
    unfold steam_api_cb_parse. cbn [err sata_set_req sata_set_err].
    unfold bind at 1. unfold ret at 1.
    apply (finish_labelled _ r). reflexivity.
  - subst failed. unfold labelled. destruct sata. cbn.
    now rewrite string_app_assoc.
Qed.

(** X6: a context that already carries an error when a response arrives
    keeps it: the body is parsed but no parser of the call type runs, the
    session is left as it is, and the error is prefixed with the label once
    more. *)
Theorem dispatch_keeps_first_error (r : SteamHttpReq) (sata : SteamApiData)
  (e : GError) (w : World) :
  err sata = Some e ->
  let r' := match rerr r with Some _ => req_set_rerr r None | None => r end in
  let stale := sata_set_req sata (Some r') in
  steam_api_cb r sata w =
    Some (if kept_alive stale r' then Some (kept_context (labelled stale)) else None,
          world_add_trace w
            (callback_events (labelled stale) ++ release_events stale r')) /\
  err (labelled stale) =
    Some {| err_code := err_code e;
            err_message := type_label (type sata) ++ ": " ++ err_message e |}.
Proof.
  intros He r' stale.
  assert (Hin : exists json, steam_api_cb_input r sata = (json, stale)).
  { unfold steam_api_cb_input, steam_json_new, g_propagate_error, g_set_error.
    subst stale r'. rewrite He.
    destruct (rerr r).
    - eexists. destruct sata; cbn in *; subst; reflexivity.
    - destruct (negb (STEAM_API_FLAG_NOJSON (flags sata)));
        [destruct (json_parse_ex (body r))|];
        eexists; destruct sata; cbn in *; subst; reflexivity. }
  destruct Hin as [json Hin]. split.
  - unfold steam_api_cb. rewrite type_int_in_table, Hin.
    unfold steam_api_cb_parse.
    replace (err stale) with (Some e) by (subst stale; now destruct sata).
    unfold bind at 1. unfold ret at 1.
    apply (finish_labelled _ r'). reflexivity.
  - subst stale. unfold labelled. destruct sata; cbn in *. subst. cbn.
    now rewrite string_app_assoc.
Qed.

(** ** Error strings of message and poll responses *)

(** X7: [steam_api_message_cb] treats a response without an ["error"]
    string like ["Not Logged On"]: [g_ascii_strcasecmp] answers [0] for the
    [NULL] pointer, so the dispatcher pauses the queue, re-sends the request
    and reports an expired session. *)
Theorem message_without_error_is_expiry (sata : SteamApiData)
  (r : SteamHttpReq) (json : json_value) (w : World) :
  type sata = STEAM_API_TYPE_MESSAGE ->
  err sata = None ->
  sums sata = [] ->
  STEAM_API_FLAG_NOJSON (flags sata) = false ->
  rerr r = None ->
  json_parse_ex (body r) = inl json ->
  fst (steam_json_str (Some json) "error") = false ->
  let r' := req_set_rflags r (resend_flags (rflags r)) in
  let expired :=
    sata_set_req
      (sata_set_err sata
         (Some {| err_code := STEAM_API_ERROR STEAM_API_ERROR_LOGON_EXPIRED;
                  err_message := "Logon session expired" |}))
      (Some r') in
  steam_api_cb r sata w =
    Some (if kept_alive expired r' then Some (kept_context (labelled expired)) else None,
          world_add_trace (world_set_paused w true)
            ([ steam_http_req_resend r ]
               ++ callback_events (labelled expired) ++ release_events expired r')).
Proof.
  intros Ht He Hs Hj Hr Hp Herr r' expired.
  assert (Hrun : pfuncs (type sata) (sata_set_req sata (Some r)) (Some json) w
                 = Some (expired, world_add_trace (world_set_paused w true)
                                    [ steam_http_req_resend r ])).
  { rewrite Ht. cbn [pfuncs]. unfold steam_api_message_cb, steam_json_scmp.
    destruct (steam_json_str_shape (Some json) "error") as [[s E]|E];
      rewrite E in *; [discriminate|].
    cbn [g_ascii_strcasecmp_ptr Z.eqb].
    unfold steam_api_data_relogon, sata_req, sata_error, g_set_error. step.
    subst expired r'. destruct sata; cbn in *; subst. reflexivity. }
  rewrite (dispatch_parsed r sata _ json w _ He Hs Hj Hr Hp Hrun)
    by (subst expired; now destruct sata).
  rewrite (finish_labelled _ r') by reflexivity.
  destruct w. unfold world_add_trace. cbn. now rewrite <- app_assoc.
Qed.

(** X8: the error string of a poll response.  ["Timeout"] and ["OK"], in
    any letter case, pass the first test of [steam_api_poll_cb]; any other
    string than ["Not Logged On"] becomes the message of a poll error, the
    session is left as it is and nothing is re-sent. *)
Theorem poll_error_string_outcomes (sata : SteamApiData) (r : SteamHttpReq)
  (json : json_value) (str : string) (w : World) :
  type sata = STEAM_API_TYPE_POLL ->
  err sata = None ->
  sums sata = [] ->
  STEAM_API_FLAG_NOJSON (flags sata) = false ->
  rerr r = None ->
  json_parse_ex (body r) = inl json ->
  steam_json_str (Some json) "error" = (true, Some str) ->
  (g_ascii_strcasecmp str "Timeout" = 0 \/ g_ascii_strcasecmp str "OK" = 0 ->
   poll_error_gate (Some json) = None) /\
  (g_ascii_strcasecmp str "Timeout" <> 0 ->
   g_ascii_strcasecmp str "OK" <> 0 ->
   g_ascii_strcasecmp str "Not Logged On" <> 0 ->
   let failed :=
     sata_set_req
       (sata_set_err sata
          (Some {| err_code := STEAM_API_ERROR STEAM_API_ERROR_POLL;
                   err_message := str |}))
       (Some r) in
   steam_api_cb r sata w =
     Some (if kept_alive failed r then Some (kept_context (labelled failed)) else None,
           world_add_trace w
             (callback_events (labelled failed) ++ release_events failed r))).
Proof.
  intros Ht He Hs Hj Hr Hp Hstr. split.
  - unfold poll_error_gate. rewrite Hstr. intros [H|H]; rewrite H; cbn.
    + reflexivity.
    + now destruct (g_ascii_strcasecmp str "Timeout" =? 0).
  - intros H1 H2 H3 failed.
    assert (Hrun : pfuncs (type sata) (sata_set_req sata (Some r)) (Some json) w
                   = Some (failed, w)).
    { rewrite Ht. cbn [pfuncs]. unfold steam_api_poll_cb, poll_error_gate.
      rewrite Hstr. apply Z.eqb_neq in H1, H2, H3. rewrite H1, H2. cbn [negb andb].
      rewrite H3. unfold ret, sata_error, g_set_error.
      subst failed. destruct sata; cbn in *; subst. reflexivity. }
    rewrite (dispatch_parsed r sata _ json w _ He Hs Hj Hr Hp Hrun)
      by (subst failed; now destruct sata).
    now rewrite (finish_labelled _ r) by reflexivity.
Qed.

(** ** The parameter tree *)

Lemma json_value_nested_ind (P : json_value -> Prop)
  (Hobj : forall es, Forall (fun kv => P (snd kv)) es -> P (JObject es))
  (Harr : forall vs, Forall P vs -> P (JArray vs))
  (Hint : forall i, P (JInteger i))
  (Hdbl : forall d, P (JDouble d))
  (Hstr : forall s, P (JString s))
  (Hbool : forall b, P (JBoolean b))
  (Hnull : P JNull) :
  forall j, P j.
Proof.
  fix IH 1. intros [es|vs|i|d|s|b|].
  - apply Hobj. induction es as [|[k jv] r IHr]; constructor; [apply IH|exact IHr].
  - apply Harr. induction vs as [|jv r IHr]; constructor; [apply IH|exact IHr].
  - apply Hint.
  - apply Hdbl.
  - apply Hstr.
  - apply Hbool.
  - apply Hnull.
Qed.

Lemma tree_prop_is_fold (json : json_value) :
  forall tree key,
    steam_json_tree_prop tree key json
    = fold_left add_leaf (json_leaves key json) tree.
Proof.
  induction json using json_value_nested_ind; intros tree key; try reflexivity.
  - cbn [steam_json_tree_prop json_leaves]. clear key. revert tree.
    induction H as [|[k jv] r Hjv Hr IHr]; intros tree; [reflexivity|].
    rewrite fold_left_app. cbn [snd] in Hjv. rewrite <- Hjv. apply IHr.
  - cbn [steam_json_tree_prop json_leaves]. revert tree.
    induction H as [|jv r Hjv Hr IHr]; intros tree; [reflexivity|].
    rewrite fold_left_app. rewrite <- Hjv. apply IHr.
Qed.


Lemma tolower_not_nul (a : ascii) : a <> nul -> g_ascii_tolower a <> nul.
Proof.
  intros Ha H. apply Ha. clear Ha. revert H.
  destruct a as [[] [] [] [] [] [] [] []]; vm_compute; congruence.
Qed.

Lemma c_string_cons (a : ascii) (r : string) :
  c_string (String a r) = true -> a <> nul /\ c_string r = true.
Proof.
  unfold c_string. cbn [list_ascii_of_string existsb].
  rewrite negb_orb, andb_true_iff, negb_true_iff.
  intros [H1 H2]. split; [|exact H2].
  intros ->. now rewrite Ascii.eqb_refl in H1.
Qed.

Lemma char_code_nul (a : ascii) : a <> nul -> char_code a <> 0.
Proof.
  intros Ha H. apply Ha. apply char_code_inj. rewrite H. reflexivity.
Qed.

Lemma strcasecmp_zero_iff (a : string) :
  forall b, c_string a = true -> c_string b = true ->
    (g_ascii_strcasecmp a b = 0 <-> casefold a = casefold b).
Proof.
  induction a as [|x r IH]; intros [|y r'] Ha Hb.
  - split; reflexivity.
  - apply c_string_cons in Hb as [Hy _]. cbn. split; [|discriminate].
    intros H. apply char_code_nul in Hy. lia.
  - apply c_string_cons in Ha as [Hx _]. cbn. split; [|discriminate].
    intros H. now apply char_code_nul in Hx.
  - apply c_string_cons in Ha as [Hx Hr]. apply c_string_cons in Hb as [Hy Hr'].
    unfold casefold. cbn [g_ascii_strcasecmp list_ascii_of_string map].
    destruct (Ascii.eqb_spec (g_ascii_tolower x) (g_ascii_tolower y)) as [E|E].
    + rewrite (IH r' Hr Hr'). unfold casefold. rewrite E. split.
      * now intros ->.
      * now intros [= ->].
    + split.
      * intros H. exfalso. apply E. apply char_code_inj. lia.
      * intros [= H _]. contradiction.
Qed.

Lemma strcasecmp_refl (a : string) : g_ascii_strcasecmp a a = 0.
Proof.
  induction a as [|x r IH]; [reflexivity|].
  cbn. now rewrite Ascii.eqb_refl.
Qed.

Lemma strcasecmp_eqb_trans (a b c : string) :
  c_string a = true -> c_string b = true -> c_string c = true ->
  g_ascii_strcasecmp a b = 0 ->
  (g_ascii_strcasecmp c a =? 0) = (g_ascii_strcasecmp c b =? 0).
Proof.
  intros Ha Hb Hc H. apply (strcasecmp_zero_iff _ _ Ha Hb) in H.
  destruct (Z.eqb_spec (g_ascii_strcasecmp c a) 0) as [E|E];
    destruct (Z.eqb_spec (g_ascii_strcasecmp c b) 0) as [E'|E']; try reflexivity.
  - exfalso. apply E'. apply (strcasecmp_zero_iff _ _ Hc Hb).
    apply (strcasecmp_zero_iff _ _ Hc Ha) in E. congruence.
  - exfalso. apply E. apply (strcasecmp_zero_iff _ _ Hc Ha).
    apply (strcasecmp_zero_iff _ _ Hc Hb) in E'. congruence.
Qed.

Lemma c_keys_replace (t : list (string * string)) (k v : string) :
  c_keys t = true -> c_string k = true -> c_keys (g_tree_replace t k v) = true.
Proof.
  unfold c_keys. induction t as [|[k' v'] r IH]; intros Ht Hk.
  - cbn. now rewrite Hk.
  - cbn in Ht. apply andb_true_iff in Ht as [Hk' Hr].
    cbn [g_tree_replace].
    destruct (g_ascii_strcasecmp k k' =? 0); [cbn; now rewrite Hk, Hr|].
    destruct (g_ascii_strcasecmp k k' <? 0); cbn.
    + now rewrite Hk, Hk', Hr.
    + rewrite Hk'. now apply IH.
Qed.

Lemma lookup_replace (t : list (string * string)) (k v q : string) :
  c_keys t = true -> c_string k = true -> c_string q = true ->
  g_tree_lookup (g_tree_replace t k v) q
  = if g_ascii_strcasecmp q k =? 0 then Some v else g_tree_lookup t q.
Proof.
  intros Ht Hk Hq. induction t as [|[k' v'] r IH].
  - reflexivity.
  - cbn in Ht. apply andb_true_iff in Ht as [Hk' Hr]. cbn [fst] in Hk'.
    cbn [g_tree_replace].
    destruct (Z.eqb_spec (g_ascii_strcasecmp k k') 0) as [E|E].
    + cbn [g_tree_lookup].
      rewrite <- (strcasecmp_eqb_trans k k' q Hk Hk' Hq E).
      now destruct (g_ascii_strcasecmp q k =? 0).
    + destruct (g_ascii_strcasecmp k k' <? 0); [reflexivity|].
      cbn [g_tree_lookup]. rewrite (IH Hr).
      destruct (Z.eqb_spec (g_ascii_strcasecmp q k') 0) as [E1|E1]; [|reflexivity].
      destruct (Z.eqb_spec (g_ascii_strcasecmp q k) 0) as [E2|E2]; [|reflexivity].
      exfalso. apply E.
      apply (strcasecmp_zero_iff _ _ Hk Hk').
      apply (strcasecmp_zero_iff _ _ Hq Hk') in E1.
      apply (strcasecmp_zero_iff _ _ Hq Hk) in E2. congruence.
Qed.

Lemma lookup_same_name (t : list (string * string)) (k q : string) :
  c_keys t = true -> c_string k = true -> c_string q = true ->
  g_ascii_strcasecmp q k = 0 ->
  g_tree_lookup t k = g_tree_lookup t q.
Proof.
  intros Ht Hk Hq E. induction t as [|[k' v'] r IH]; [reflexivity|].
  cbn in Ht. apply andb_true_iff in Ht as [Hk' Hr]. cbn [fst] in Hk'.
  cbn [g_tree_lookup]. rewrite (IH Hr).
  apply (strcasecmp_zero_iff _ _ Hq Hk) in E.
  destruct (Z.eqb_spec (g_ascii_strcasecmp k k') 0) as [E1|E1];
    destruct (Z.eqb_spec (g_ascii_strcasecmp q k') 0) as [E2|E2]; try reflexivity;
    exfalso.
  - apply E2. apply (strcasecmp_zero_iff _ _ Hq Hk').
    apply (strcasecmp_zero_iff _ _ Hk Hk') in E1. congruence.
  - apply E1. apply (strcasecmp_zero_iff _ _ Hk Hk').
    apply (strcasecmp_zero_iff _ _ Hq Hk') in E2. congruence.
Qed.

Lemma c_keys_add_leaf (t : list (string * string)) (kv : option string * string) :
  c_keys t = true ->
  match fst kv with Some k => c_string k | None => true end = true ->
  c_keys (add_leaf t kv) = true.
Proof.
  destruct kv as [[k|] v]; unfold add_leaf, tree_prop_leaf; cbn [fst snd];
    intros Ht Hk; [|exact Ht].
  destruct (g_tree_lookup t k); now apply c_keys_replace.
Qed.

Lemma lookup_fold_leaves (l : list (option string * string)) (q : string) :
  forall t, c_keys t = true -> c_names l = true -> c_string q = true ->
    g_tree_lookup (fold_left add_leaf l t) q
    = comma_joined (g_tree_lookup t q) (leaves_under q l).
Proof.
  induction l as [|[[k|] v] r IH]; intros t Ht Hl Hq.
  - reflexivity.
  - cbn in Hl. apply andb_true_iff in Hl as [Hk Hr].
    cbn [fold_left leaves_under].
    rewrite IH; [|now apply c_keys_add_leaf|exact Hr|exact Hq].
    unfold add_leaf, tree_prop_leaf. cbn [fst snd].
    destruct (Z.eqb_spec (g_ascii_strcasecmp q k) 0) as [E|E].
    + rewrite (lookup_same_name t k q Ht Hk Hq E).
      destruct (g_tree_lookup t q) as [c|];
        rewrite (lookup_replace _ _ _ _ Ht Hk Hq), E; reflexivity.
    + apply Z.eqb_neq in E.
      destruct (g_tree_lookup t k);
        rewrite (lookup_replace _ _ _ _ Ht Hk Hq), E; reflexivity.
  - cbn in Hl. cbn [fold_left leaves_under]. now apply IH.
Qed.

(** X9: what [steam_json_tree] stores under a name.  For a document whose
    member names are C strings, looking a C string up in the tree gives the
    texts of all scalars whose closest enclosing member has that name, letter
    case ignored, in document order and joined by commas; nothing when there
    is no such scalar or the document is not an object. *)
Theorem tree_lookup_joins_leaves (json : json_value) (q : string) :
  c_names (json_leaves None json) = true ->
  c_string q = true ->
  g_tree_lookup (steam_json_tree json) q
  = match json with
    | JObject _ => comma_joined None (leaves_under q (json_leaves None json))
    | _ => None
    end.
Proof.
  intros Hl Hq. destruct json; try reflexivity.
  unfold steam_json_tree. rewrite tree_prop_is_fold.
  now rewrite lookup_fold_leaves.
Qed.


(** ** Single parsers *)

Lemma labelled_no_error (sata : SteamApiData) :
  err sata = None -> labelled sata = sata.
Proof. intros H. unfold labelled. destruct sata. cbn in *. now subst. Qed.

(** X10: [steam_api_logon_cb].  A response whose ["error"] is not ["OK"]
    sets the logon error with that text and leaves the session as it is.  A
    response with ["OK"] stores the message cursor and the time stamp, and
    leaves the session with the identity and the queue identifier of the
    response, letter case apart; a response that lacks one of the two
    erases the one the session had.  Credentials, transport, session
    identifier and token are not touched. *)
Theorem logon_cb_outcomes (sata : SteamApiData) (json : option json_value)
  (w : World) :
  (fst (steam_json_scmp json "error" (Some "OK")) = false ->
   steam_api_logon_cb sata json w =
     Some (sata_error sata STEAM_API_ERROR_LOGON
             (fmt_s (snd (steam_json_str json "error"))), w)) /\
  (fst (steam_json_scmp json "error" (Some "OK")) = true ->
   exists a',
     steam_api_logon_cb sata json w = Some (sata, world_set_api w a') /\
     lmid a' = snd (steam_json_int json "message") /\
     api_tstamp a' = snd (steam_json_int json "utc_timestamp") /\
     (fst (steam_json_str json "steamid") = false -> api_steamid a' = None) /\
     (forall s, steam_json_str json "steamid" = (true, Some s) ->
        exists s', api_steamid a' = Some s' /\ g_ascii_strcasecmp s' s = 0) /\
     (fst (steam_json_str json "umqid") = false -> umqid a' = None) /\
     (forall s, steam_json_str json "umqid" = (true, Some s) ->
        exists s', umqid a' = Some s' /\ g_ascii_strcasecmp s' s = 0) /\
     auth a' = auth (api w) /\ http a' = http (api w) /\
     sessid a' = sessid (api w) /\ token a' = token (api w)).
Proof.
  split; intros Herr.
  - unfold steam_api_logon_cb.
    assert (Hs : snd (steam_json_scmp json "error" (Some "OK"))
                 = snd (steam_json_str json "error")).
    { unfold steam_json_scmp.
      destruct (steam_json_str_shape json "error") as [[s E]|E]; now rewrite E. }
    destruct (steam_json_scmp json "error" (Some "OK")) as [[|] str];
      [discriminate|]. cbn in Hs. now subst str.
  - unfold steam_api_logon_cb.
    destruct (steam_json_scmp json "error" (Some "OK")) as [[|] str];
      [|discriminate].
    step. eexists. split; [reflexivity|].
    destruct w as [[au ht se tk uq sid lm ts] h t]. cbn [api api_steamid umqid].
    assert (Hid : forall name cur,
              let r := match steam_json_scmp json name cur with
                       | (false, str) => str
                       | (true, _) => cur
                       end in
              (fst (steam_json_str json name) = false -> r = None) /\
              (forall s, steam_json_str json name = (true, Some s) ->
                 exists s', r = Some s' /\ g_ascii_strcasecmp s' s = 0)).
    { intros name cur. unfold steam_json_scmp.
      destruct (steam_json_str_shape json name) as [[s E]|E]; rewrite E; cbn.
      - split; [discriminate|]. intros s0 [= <-].
        destruct cur as [m|]; [|eexists; split; [reflexivity|apply strcasecmp_refl]].
        destruct (Z.eqb_spec (g_ascii_strcasecmp m s) 0) as [H|H];
          eexists; (split; [reflexivity|]); [exact H|apply strcasecmp_refl].
      - split; [reflexivity|discriminate]. }
    destruct (Hid "steamid" sid) as [S1 S2].
    destruct (Hid "umqid" uq) as [U1 U2].
    cbn.
    destruct (steam_json_scmp json "steamid" sid) as [[|] x1]; cbn in *;
      destruct (steam_json_scmp json "umqid" uq) as [[|] x2];
      cbn in *; repeat split; first [assumption | reflexivity].
Qed.

(** X11: [steam_api_summary_cb] reads the first player only: when it has a
    ["steamid"], the result is one new summary filled from it, whatever
    follows in the array; when it has none, or the array is empty or
    missing, there is neither a result nor an error. *)
Theorem summary_cb_reads_first_player (sata : SteamApiData)
  (json : option json_value) (w : World) :
  (forall jv rest,
     steam_json_val json "players" json_array = (true, Some (JArray (jv :: rest))) ->
     fst (steam_json_str (Some jv) "steamid") = true ->
     steam_api_summary_cb sata json w =
       Some (sata_set_rdata sata (RSummary (List.length (heap w))),
             world_add_heap w [ player_summary jv ])) /\
  (forall jv rest,
     steam_json_val json "players" json_array = (true, Some (JArray (jv :: rest))) ->
     fst (steam_json_str (Some jv) "steamid") = false ->
     steam_api_summary_cb sata json w = Some (sata, w)) /\
  (steam_json_val json "players" json_array = (true, Some (JArray [])) ->
   steam_api_summary_cb sata json w = Some (sata, w)) /\
  (fst (steam_json_val json "players" json_array) = false ->
   steam_api_summary_cb sata json w = Some (sata, w)).
Proof.
  unfold steam_api_summary_cb. repeat split.
  - intros jv rest -> Hid.
    destruct (steam_json_str_shape (Some jv) "steamid") as [[s E]|E];
      rewrite E in Hid; [|discriminate].
    rewrite E. unfold steam_friend_summary_json. step.
    rewrite smry_get_fresh. cbn. rewrite smry_get_fresh. cbn.
    rewrite list_set_fresh. unfold world_add_heap, player_summary. rewrite E.
    reflexivity.
  - intros jv rest -> Hid.
    destruct (steam_json_str_shape (Some jv) "steamid") as [[s E]|E];
      rewrite E in Hid; [discriminate|]. now rewrite E.
  - now intros ->.
  - intros H. destruct (steam_json_val json "players" json_array) as [[|] v];
      [discriminate|reflexivity].
Qed.

Lemma friend_search_loop_run (vs : list json_value) :
  forall results w,
    friend_search_loop vs results w =
      Some ((rev (seq (List.length (heap w)) (List.length (filter search_kept vs)))
               ++ results)%list,
            world_add_heap w (map search_summary (filter search_kept vs))).
Proof.
  induction vs as [|je rest IH]; intros results w.
  - cbn. unfold ret, world_add_heap. rewrite app_nil_r. now destruct w.
  - cbn [friend_search_loop filter].
    assert (Hk : search_kept je
                 = fst (steam_json_scmp (Some je) "type" (Some "user"))
                   && fst (steam_json_str (Some je) "steamid")) by reflexivity.
    destruct (steam_json_scmp (Some je) "type" (Some "user")) as [[|] t];
      cbn [fst andb] in Hk; [|rewrite Hk; apply IH].
    destruct (steam_json_str_shape (Some je) "steamid") as [[s E]|E];
      rewrite E in *; cbn [fst] in Hk; rewrite Hk; [|apply IH].
    step. rewrite IH. unfold world_add_heap. cbn [heap api trace map length seq rev].
    rewrite length_app. cbn [length]. rewrite Nat.add_1_r.
    unfold search_summary at 2. rewrite E. cbn [snd].
    rewrite <- !app_assoc. reflexivity.
Qed.

(** X12: [steam_api_friend_search_cb] returns one new summary for every
    entry of ["results"] whose type is ["user"], letter case apart, and that
    has a ["steamid"], in response order, with the matching text as nick;
    nothing is left pending.  Without a ["results"] array nothing
    changes. *)
Theorem friend_search_cb_results (sata : SteamApiData)
  (json : option json_value) (w : World) :
  (forall vs,
     steam_json_val json "results" json_array = (true, Some (JArray vs)) ->
     steam_api_friend_search_cb sata json w =
       Some (sata_set_rdata sata
               (RSummaries (seq (List.length (heap w))
                              (List.length (filter search_kept vs)))),
             world_add_heap w (map search_summary (filter search_kept vs)))) /\
  (fst (steam_json_val json "results" json_array) = false ->
   steam_api_friend_search_cb sata json w = Some (sata, w)).
Proof.
  unfold steam_api_friend_search_cb. split.
  - intros vs ->. unfold bind. rewrite friend_search_loop_run. unfold ret.
    now rewrite app_nil_r, rev_involutive.
  - intros H. destruct (steam_json_val json "results" json_array) as [[|] v];
      [discriminate|reflexivity].
Qed.

(** X13: the response to the redirect request of an authentication.  The
    body is not parsed; the cookies of the response are stored, and the
    session identifier becomes the ["sessionid"] cookie.  Without that
    cookie the callback gets an authentication error and the session
    identifier stays as it was. *)
Theorem auth_rdir_dispatch (r : SteamHttpReq) (sata : SteamApiData) (w : World) :
  type sata = STEAM_API_TYPE_AUTH_RDIR ->
  STEAM_API_FLAG_NOJSON (flags sata) = true ->
  err sata = None ->
  sums sata = [] ->
  rerr r = None ->
  let c := steam_http_cookies_parse_req (cookies (http (api w))) r in
  let a := api_with_cookies (api w) c in
  let sata1 := sata_set_req sata (Some r) in
  let failed :=
    sata_error sata1 STEAM_API_ERROR_AUTH "Failed to obtain OAuth session ID" in
  steam_api_cb r sata w =
    match cookies_lookup c "sessionid" with
    | Some sid =>
        Some (if kept_alive sata1 r then Some (kept_context sata1) else None,
              world_add_trace (world_set_api w (api_set_sessid a (Some sid)))
                (callback_events sata1 ++ release_events sata1 r))
    | None =>
        Some (if kept_alive failed r then Some (kept_context (labelled failed)) else None,
              world_add_trace (world_set_api w a)
                (callback_events (labelled failed) ++ release_events failed r))
    end.
Proof.
  intros Ht Hj He Hs Hr c a sata1 failed.
  unfold steam_api_cb. rewrite type_int_in_table.
  unfold steam_api_cb_input. rewrite Hr, Hj. cbn [negb].
  unfold steam_api_cb_parse.
  replace (err (sata_set_req sata (Some r))) with (@None GError)
    by (now destruct sata).
  replace (sums (sata_set_req sata (Some r))) with (@nil addr)
    by (now destruct sata).
  replace (type (sata_set_req sata (Some r))) with STEAM_API_TYPE_AUTH_RDIR
    by (now destruct sata).
  cbn [pfuncs]. fold sata1.
  assert (Hrun : steam_api_auth_rdir_cb sata1 None w =
                 match cookies_lookup c "sessionid" with
                 | Some sid =>
                     Some (sata1, world_set_api w (api_set_sessid a (Some sid)))
                 | None => Some (failed, world_set_api w a)
                 end).
  { unfold steam_api_auth_rdir_cb, sata_req.
    replace (req sata1) with (Some r) by (subst sata1; now destruct sata).
    step. fold c. destruct (cookies_lookup c "sessionid"); reflexivity. }
  unfold bind at 1. unfold bind at 1. rewrite Hrun.
  destruct (cookies_lookup c "sessionid") as [sid|].
  - replace (sums sata1) with (@nil addr) by (subst sata1; now destruct sata).
    unfold ret at 1. rewrite (finish_labelled sata1 r)
      by (subst sata1; now destruct sata).
    rewrite labelled_no_error by (subst sata1; now destruct sata).
    reflexivity.
  - replace (sums failed) with (@nil addr) by (subst failed sata1; now destruct sata).
    unfold ret at 1. rewrite (finish_labelled failed r)
      by (subst failed sata1; now destruct sata).
    reflexivity.
Qed.

(** ** Enrichment through the dispatcher *)

Lemma sums_ids_app (h : list SteamFriendSummary) (l1 l2 : list addr)
  (i1 i2 : list string) :
  sums_ids h l1 = Some i1 -> sums_ids h l2 = Some i2 ->
  sums_ids h (l1 ++ l2) = Some (i1 ++ i2)%list.
Proof.
  revert i1. induction l1 as [|p l1 IH]; intros i1 H1 H2.
  - cbn in H1. injection H1 as <-. exact H2.
  - cbn [sums_ids app] in *.
    destruct (nth_error h p) as [s|]; [|discriminate].
    destruct (steamid s) as [id|]; [|discriminate].
    destruct (sums_ids h l1) as [ids|]; [|discriminate].
    injection H1 as <-. now rewrite (IH ids eq_refl H2).
Qed.

Lemma sums_ids_extend (h : list SteamFriendSummary) (x : SteamFriendSummary)
  (l : list addr) (ids : list string) :
  sums_ids h l = Some ids -> sums_ids (h ++ [x]) l = Some ids.
Proof.
  revert ids. induction l as [|p l IH]; intros ids H; [exact H|].
  cbn [sums_ids] in *.
  destruct (nth_error h p) as [s|] eqn:Hn; [|discriminate].
  rewrite nth_error_app1 by (apply nth_error_Some; congruence). rewrite Hn.
  destruct (steamid s) as [id|]; [|discriminate].
  destruct (sums_ids h l) as [ids'|]; [|discriminate].
  now rewrite (IH ids' eq_refl).
Qed.

Lemma friends_kept_steamid (je : json_value) :
  friends_kept je = true ->
  steamid (friends_summary je) = Some (friends_id je).
Proof.
  unfold friends_kept, friends_summary, friends_id.
  destruct (snd (steam_json_str (Some je) "relationship")) as [str|];
    [|discriminate].
  destruct (friends_relation str) as [rlat|]; [|discriminate].
  destruct (steam_json_str_shape (Some je) "steamid") as [[sid E]|E]; rewrite E;
    [reflexivity|discriminate].
Qed.

Lemma sums_ids_fresh (kept : list json_value) :
  forall h,
    Forall (fun je => friends_kept je = true) kept ->
    sums_ids (h ++ map friends_summary kept)
      (rev (seq (List.length h) (List.length kept)))
    = Some (rev (map friends_id kept)).
Proof.
  induction kept as [|je rest IH] using rev_ind; intros h Hk; [reflexivity|].
  apply Forall_app in Hk as [Hrest Hje]. inversion Hje as [|? ? Hj _]; subst.
  rewrite length_app, map_app, map_app, rev_app_distr. cbn [length map rev app].
  rewrite Nat.add_1_r, seq_S, rev_app_distr. cbn [rev app].
  rewrite app_assoc. cbn [sums_ids].
  rewrite nth_error_app2 by (rewrite length_app, length_map; lia).
  rewrite length_app, length_map, Nat.sub_diag. cbn [nth_error].
  rewrite (friends_kept_steamid je Hj).
  rewrite (sums_ids_extend _ _ _ _ (IH h Hrest)). reflexivity.
Qed.

(** X14: a friends response with at least one kept entry does not reach
    the user's callback in that dispatch: the dispatcher sends one summaries
    request for the identities of the kept entries, latest first and without
    repetitions, and keeps the context, with the new summaries as its result
    and as its pending list. *)
Theorem friends_dispatch_requests_summaries (r : SteamHttpReq)
  (sata : SteamApiData) (json : json_value) (vs : list json_value) (w : World) :
  type sata = STEAM_API_TYPE_FRIENDS ->
  err sata = None ->
  sums sata = [] ->
  STEAM_API_FLAG_NOJSON (flags sata) = false ->
  rerr r = None ->
  json_parse_ex (body r) = inl json ->
  steam_json_val (Some json) "friends" json_array = (true, Some (JArray vs)) ->
  filter friends_kept vs <> [] ->
  let kept := filter friends_kept vs in
  let ps := rev (seq (List.length (heap w)) (List.length kept)) in
  let rq := summaries_request (token (api w))
              (summaries_batch (rev (map friends_id kept))) in
  let pending :=
    sata_set_rdata (sata_set_sums (sata_set_req sata (Some r)) ps) (RSummaries ps) in
  steam_api_cb r sata w =
    Some (Some (kept_context (summaries_sent pending rq)),
          {| api := api w;
             heap := heap w ++ map friends_summary kept;
             trace := trace w ++ [ steam_http_req_send rq ] |}).
Proof.
  intros Ht He Hs Hj Hr Hp Hv Hne kept ps rq pending.
  unfold steam_api_cb. rewrite type_int_in_table.
  rewrite (parse_ok_input r sata json He Hj Hr Hp).
  unfold steam_api_cb_parse.
  replace (err (sata_set_req sata (Some r))) with (@None GError) by (now destruct sata).
  replace (sums (sata_set_req sata (Some r))) with (@nil addr) by (now destruct sata).
  replace (type (sata_set_req sata (Some r))) with STEAM_API_TYPE_FRIENDS
    by (now destruct sata).
  cbn [pfuncs]. unfold steam_api_friends_cb. rewrite Hv.
  unfold bind at 1. unfold bind at 1. unfold bind at 1.
  rewrite friends_loop_run. fold kept. cbn [fst snd]. rewrite !app_nil_r.
  fold ps. unfold ret at 1.
  replace (sums (sata_set_req sata (Some r))) with (@nil addr) by (now destruct sata).
  rewrite app_nil_r. fold pending.
  assert (Hps : sums pending = ps) by (subst pending; now destruct sata).
  assert (Hpn : sums pending <> []).
  { rewrite Hps. subst ps. intros H. apply (f_equal (@List.length _)) in H.
    rewrite length_rev, length_seq in H. apply Hne.
    now apply length_zero_iff_nil. }
  rewrite (match_nonempty _ _ _ Hpn).
  set (w1 := {| api := api w; heap := heap w ++ map friends_summary kept;
                trace := trace w |}).
  assert (Hids : sums_ids (heap w1) (sums pending) = Some (rev (map friends_id kept))).
  { rewrite Hps. subst ps w1. cbn [heap]. apply sums_ids_fresh.
    apply Forall_forall. intros je Hin. subst kept.
    now apply filter_In in Hin. }
  rewrite (steam_api_summaries_run pending w1 _ Hpn Hids).
  cbn [api w1]. fold rq.
  rewrite (finish_labelled (summaries_sent pending rq) rq)
    by (unfold summaries_sent; now destruct pending).
  rewrite labelled_no_error
    by (subst pending; unfold summaries_sent; now destruct sata).
  unfold kept_alive, callback_events, release_events, kept_alive, summaries_sent.
  cbn [flags sata_set_req sata_set_flags flags_or_nocall_nofree
       STEAM_API_FLAG_NOFREE STEAM_API_FLAG_NOCALL].
  rewrite orb_true_r. unfold world_add_trace. cbn. rewrite app_nil_r.
  reflexivity.
Qed.

Lemma sata_set_sums_same (sata : SteamApiData) :
  sata_set_sums sata (sums sata) = sata.
Proof. now destruct sata. Qed.

Lemma summaries_players_any (vs : list json_value) :
  forall sata w ids,
    sums_ids (heap w) (sums sata) = Some ids ->
    exists l' w',
      summaries_players vs sata w = Some (sata_set_sums sata l', w') /\
      sums_ids (heap w') l' = Some (remove_ids (answered vs) ids) /\
      map steamid (heap w') = map steamid (heap w) /\
      api w' = api w /\ trace w' = trace w.
Proof.
  induction vs as [|je rest IH]; intros sata w ids Hids.
  - exists (sums sata), w. cbn. unfold ret. rewrite sata_set_sums_same. auto.
  - cbn [summaries_players answered].
    destruct (steam_json_str_shape (Some je) "steamid") as [[str E]|E]; rewrite E.
    + destruct (summaries_fill_run str je (sums sata) w ids Hids)
        as (l1 & w1 & E1 & Hs1 & Hv1 & Ha1 & Ht1).
      unfold bind at 1. rewrite E1.
      destruct (IH (sata_set_sums sata l1) w1 _
                  ltac:(destruct sata; exact Hs1))
        as (l' & w' & E' & Hs' & Hv' & Ha' & Ht').
      exists l', w'. rewrite E'. cbn [remove_ids].
      repeat split; congruence.
    + apply IH. exact Hids.
Qed.

Lemma remove_ids_nil (batch : list string) : remove_ids batch [] = [].
Proof. induction batch; cbn; auto. Qed.

Lemma remove_ids_incl (batch : list string) :
  forall ids, incl ids batch -> remove_ids batch ids = [].
Proof.
  induction batch as [|b rest IH]; intros ids Hin; cbn.
  - destruct ids as [|x ids]; [reflexivity|]. destruct (Hin x); now left.
  - apply IH. intros x Hx. apply filter_In in Hx as [Hx Hb].
    destruct (Hin x Hx) as [<-|H]; [|exact H].
    now rewrite String.eqb_refl in Hb.
Qed.

Lemma remove_ids_disjoint (batch : list string) :
  forall ids, (forall x, In x batch -> ~ In x ids) -> remove_ids batch ids = ids.
Proof.
  induction batch as [|b rest IH]; intros ids Hd; cbn; [reflexivity|].
  rewrite filter_not_in by (apply Hd; now left).
  apply IH. intros x Hx. apply Hd. now right.
Qed.

(** X15: a summaries response for a context with summaries pending.  The
    identities it answers leave the pending list.  If none is left, the
    user's callback is called in that dispatch and the context is released;
    otherwise the callback is withheld, the context is kept and the next
    summaries request is sent.  A response that answers every pending
    identity leaves none; one that answers none of them leaves them all, so
    the same request is sent again. *)
Theorem summaries_response_dispatch (r : SteamHttpReq) (sata : SteamApiData)
  (json : json_value) (vs : list json_value) (w : World) (ids : list string) :
  err sata = None ->
  STEAM_API_FLAG_NOJSON (flags sata) = false ->
  rerr r = None ->
  json_parse_ex (body r) = inl json ->
  steam_json_val (Some json) "players" json_array = (true, Some (JArray vs)) ->
  vs <> [] ->
  sums_ids (heap w) (sums sata) = Some ids ->
  ids <> [] ->
  let left := remove_ids (answered vs) ids in
  (incl ids (answered vs) -> left = []) /\
  ((forall id, In id (answered vs) -> ~ In id ids) -> left = ids) /\
  exists l' h',
    sums_ids h' l' = Some left /\
    map steamid h' = map steamid (heap w) /\
    let sata2 := sata_set_sums (sata_set_req sata (Some r)) l' in
    steam_api_cb r sata w =
      match left with
      | [] =>
          Some (if kept_alive sata2 r then Some (kept_context sata2) else None,
                {| api := api w; heap := h';
                   trace := trace w ++ callback_events sata2 ++ release_events sata2 r |})
      | _ :: _ =>
          let rq := summaries_request (token (api w)) (summaries_batch left) in
          Some (Some (kept_context (summaries_sent sata2 rq)),
                {| api := api w; heap := h';
                   trace := trace w ++ [ steam_http_req_send rq ] |})
      end.
Proof.
  intros He Hj Hr Hp Hv Hvs Hids Hne left.
  split; [apply remove_ids_incl|]. split; [apply remove_ids_disjoint|].
  assert (Hsn : sums sata <> []).
  { intros H. apply Hne. now apply (sums_ids_nil _ _ _ Hids). }
  rewrite (dispatch_pending_summaries r sata json w He Hsn Hj Hr Hp).
  set (sata1 := sata_set_req sata (Some r)).
  assert (Hids1 : sums_ids (heap w) (sums sata1) = Some ids)
    by (subst sata1; now destruct sata).
  destruct (summaries_players_any vs sata1 w ids Hids1)
    as (l' & w' & E & Hs' & Hv' & Ha' & Ht').
  exists l', (heap w'). split; [exact Hs'|]. split; [exact Hv'|].
  cbv zeta. unfold steam_api_summaries_cb. rewrite Hv.
  assert (Hlen : (Z.of_nat (List.length vs) <? 1) = false).
  { destruct vs; [contradiction|]. cbn [List.length]. apply Z.ltb_ge. lia. }
  rewrite Hlen. unfold bind at 1. unfold bind at 1. rewrite E.
  set (sata2 := sata_set_sums sata1 l').
  fold left in Hs'.
  destruct left as [|x xs] eqn:Hleft.
  - assert (Hl : l' = []) by now apply (sums_ids_nil _ _ _ Hs').
    unfold steam_api_summaries.
    replace (sums sata2) with (@nil addr) by (subst sata2 sata1; now destruct sata).
    unfold ret at 1.
    rewrite (finish_labelled sata2 r) by (subst sata2 sata1; now destruct sata).
    rewrite labelled_no_error by (subst sata2 sata1; now destruct sata).
    unfold world_add_trace. rewrite Ha', Ht'. reflexivity.
  - assert (Hl : sums sata2 <> []).
    { replace (sums sata2) with l' by (subst sata2 sata1; now destruct sata).
      intros H. apply (sums_ids_nil _ _ _ Hs') in H. discriminate. }
    assert (Hs2 : sums_ids (heap w') (sums sata2) = Some (x :: xs))
      by (subst sata2 sata1; now destruct sata).
    rewrite (steam_api_summaries_run sata2 w' _ Hl Hs2). rewrite Ha'.
    set (rq := summaries_request (token (api w)) (summaries_batch (x :: xs))).
    rewrite (finish_labelled (summaries_sent sata2 rq) rq)
      by (unfold summaries_sent; now destruct sata2).
    rewrite labelled_no_error
      by (subst sata2 sata1; unfold summaries_sent; now destruct sata).
    unfold kept_alive, callback_events, release_events, kept_alive, summaries_sent.
    cbn [flags sata_set_req sata_set_flags flags_or_nocall_nofree
         STEAM_API_FLAG_NOFREE STEAM_API_FLAG_NOCALL].
    rewrite orb_true_r. unfold world_add_trace. cbn. rewrite app_nil_r, Ha', Ht'.
    reflexivity.
Qed.

(** X16: a summaries response without a ["players"] array, or with an
    empty one, ends the enrichment: nothing is filled in, no error is set,
    no request is sent, and the user's callback is called while the
    summaries are still pending. *)
Theorem summaries_response_without_players (r : SteamHttpReq)
  (sata : SteamApiData) (json : json_value) (w : World) :
  err sata = None ->
  sums sata <> [] ->
  STEAM_API_FLAG_NOJSON (flags sata) = false ->
  rerr r = None ->
  json_parse_ex (body r) = inl json ->
  fst (steam_json_val (Some json) "players" json_array) = false
  \/ steam_json_val (Some json) "players" json_array = (true, Some (JArray [])) ->
  let sata1 := sata_set_req sata (Some r) in
  steam_api_cb r sata w =
    Some (if kept_alive sata1 r then Some (kept_context sata1) else None,
          world_add_trace w (callback_events sata1 ++ release_events sata1 r)) /\
  sums sata1 = sums sata.
Proof.
  intros He Hs Hj Hr Hp Hv sata1. split; [|subst sata1; now destruct sata].
  rewrite (dispatch_pending_summaries r sata json w He Hs Hj Hr Hp).
  fold sata1.
  assert (Hrun : steam_api_summaries_cb sata1 (Some json) w = Some (sata1, w)).
  { unfold steam_api_summaries_cb. destruct Hv as [Hv|Hv].
    - destruct (steam_json_val (Some json) "players" json_array) as [[|] v];
        [discriminate|reflexivity].
    - rewrite Hv. reflexivity. }
  unfold bind. rewrite Hrun.
  rewrite (finish_labelled sata1 r) by (subst sata1; now destruct sata).
  rewrite labelled_no_error by (subst sata1; now destruct sata).
  reflexivity.
Qed.

(** ** Polling *)

Lemma scmp_snd (json : option json_value) (name : string) (m : option string) :
  snd (steam_json_scmp json name m) = snd (steam_json_str json name).
Proof.
  unfold steam_json_scmp.
  destruct (steam_json_str_shape json name) as [[s E]|E]; now rewrite E.
Qed.

Lemma poll_summary_eq (je : json_value) :
  poll_summary je =
    let ty := poll_type je in
    let s := steam_friend_summary_new (snd (steam_json_str (Some je) "steamid_from")) in
    if (ty =? STEAM_API_MESSAGE_TYPE_SAYTEXT) || (ty =? STEAM_API_MESSAGE_TYPE_EMOTE)
    then s
    else if ty =? STEAM_API_MESSAGE_TYPE_STATE
    then smry_set_nick s (snd (steam_json_str (Some je) "persona_name"))
    else if ty =? STEAM_API_MESSAGE_TYPE_RELATIONSHIP
    then smry_set_action s (snd (steam_json_int (Some je) "persona_state"))
    else s.
Proof. reflexivity. Qed.

Lemma needs_summary_eq (m : SteamApiMessage) :
  needs_summary m =
    (mtype m =? STEAM_API_MESSAGE_TYPE_STATE)
    || (mtype m =? STEAM_API_MESSAGE_TYPE_RELATIONSHIP).
Proof. reflexivity. Qed.

Ltac type_consts :=
  change (STEAM_API_MESSAGE_TYPE_SAYTEXT) with 0;
  change (STEAM_API_MESSAGE_TYPE_EMOTE) with 1;
  change (STEAM_API_MESSAGE_TYPE_LEFT_CONV) with 2;
  change (STEAM_API_MESSAGE_TYPE_RELATIONSHIP) with 3;
  change (STEAM_API_MESSAGE_TYPE_STATE) with 4;
  change (STEAM_API_MESSAGE_TYPE_TYPING) with 5.

Lemma poll_loop_run (vs : list json_value) :
  forall messages sata w,
    let foreign := filter (poll_foreign (api_steamid (api w))) vs in
    let ms := poll_messages (List.length (heap w)) foreign in
    poll_loop vs messages sata w =
      Some ((rev ms ++ messages,
             sata_set_sums sata (rev (map smry (filter needs_summary ms)) ++ sums sata))%list,
            world_add_heap w (map poll_summary foreign)).
Proof.
  induction vs as [|je rest IH]; intros messages sata w.
  - cbn. unfold ret, world_add_heap. rewrite app_nil_r.
    destruct sata, w. reflexivity.
  - cbv zeta. cbn [poll_loop filter]. unfold bind at 1. unfold get_api at 1.
    assert (Hf : poll_foreign (api_steamid (api w)) je
                 = negb (fst (steam_json_scmp (Some je) "steamid_from"
                                (api_steamid (api w))))) by reflexivity.
    pose proof (scmp_snd (Some je) "steamid_from" (api_steamid (api w))) as Hsnd.
    destruct (steam_json_scmp (Some je) "steamid_from" (api_steamid (api w)))
      as [[|] str]; cbn [fst snd negb] in Hf, Hsnd; rewrite Hf; [apply IH|].
    subst str. cbn [poll_messages map].
    unfold bind at 1. unfold steam_api_message_new at 1. unfold bind at 1.
    unfold smry_alloc at 1. unfold ret at 1. cbn [smry text].
    fold (poll_type je).
    assert (Hlen : forall x, List.length (heap w ++ [x]) = S (List.length (heap w)))
      by (intros x; rewrite length_app; cbn; lia).
    unfold poll_delivered, poll_message. rewrite poll_summary_eq. cbv zeta.
    unfold world_add_heap.
    assert (Hty : poll_type je = STEAM_API_MESSAGE_TYPE_SAYTEXT
                  \/ poll_type je = STEAM_API_MESSAGE_TYPE_EMOTE
                  \/ poll_type je = STEAM_API_MESSAGE_TYPE_STATE
                  \/ poll_type je = STEAM_API_MESSAGE_TYPE_RELATIONSHIP
                  \/ poll_type je = STEAM_API_MESSAGE_TYPE_TYPING
                  \/ poll_type je = STEAM_API_MESSAGE_TYPE_LEFT_CONV
                  \/ (poll_type je <> STEAM_API_MESSAGE_TYPE_SAYTEXT
                      /\ poll_type je <> STEAM_API_MESSAGE_TYPE_EMOTE
                      /\ poll_type je <> STEAM_API_MESSAGE_TYPE_STATE
                      /\ poll_type je <> STEAM_API_MESSAGE_TYPE_RELATIONSHIP
                      /\ poll_type je <> STEAM_API_MESSAGE_TYPE_TYPING
                      /\ poll_type je <> STEAM_API_MESSAGE_TYPE_LEFT_CONV)) by lia.
    destruct Hty as [H|[H|[H|[H|[H|[H|(N0 & N1 & N4 & N3 & N5 & N2)]]]]]].
    1, 2, 3, 4, 5, 6:
      rewrite H; type_consts; cbn [Z.eqb Pos.eqb orb];
      repeat (unfold bind at 1; first [unfold smry_get at 1 | unfold smry_put at 1];
              cbn [heap]; rewrite smry_get_fresh; rewrite ?list_set_fresh);
      rewrite IH; unfold world_add_heap; cbn [api heap trace]; rewrite Hlen;
      cbn [rev map filter]; rewrite needs_summary_eq; cbn [mtype smry];
      type_consts;
      cbn [Z.eqb Pos.eqb orb rev map filter sums sata_set_sums];
      rewrite <- !app_assoc; cbn [app]; destruct sata; reflexivity.
    apply Z.eqb_neq in N0, N1, N2, N3, N4, N5.
    rewrite N0, N1, N2, N3, N4, N5. cbn [orb].
    rewrite IH. unfold world_add_heap. cbn [api heap trace]. rewrite Hlen.
    rewrite <- !app_assoc. reflexivity.
Qed.

Lemma poll_cb_run (sata : SteamApiData) (json : option json_value)
  (vs : list json_value) (i : Z) (w : World) :
  poll_error_gate json = None ->
  poll_timeout_low json = false ->
  steam_json_int json "messagelast" = (true, i) ->
  i <> lmid (api w) ->
  steam_json_val json "messages" json_array = (true, Some (JArray vs)) ->
  let foreign := filter (poll_foreign (api_steamid (api w))) vs in
  let ms := poll_messages (List.length (heap w)) foreign in
  steam_api_poll_cb sata json w =
    Some (sata_set_rdata (sata_set_sums sata (poll_pending ms ++ sums sata))
            (RMessages ms),
          world_add_heap (world_set_api w (api_set_lmid (api w) i))
            (map poll_summary foreign)).
Proof.
  intros Hg Ht Hm Hi Hv foreign ms.
  unfold steam_api_poll_cb. rewrite Hg, Ht, Hm, Hv. cbn [snd negb orb].
  unfold bind at 1. unfold get_api at 1.
  apply Z.eqb_neq in Hi. rewrite Hi.
  unfold bind at 1. unfold set_api at 1. unfold bind at 1.
  rewrite poll_loop_run. cbn [api heap api_steamid api_set_lmid fst snd].
  unfold ret. rewrite app_nil_r, rev_involutive.
  destruct w as [[au ht se tk uq sid lm ts] h t]. reflexivity.
Qed.

Lemma poll_messages_senders (foreign : list json_value) :
  forall base,
    Forall (fun m => (base <= smry m)%nat) (poll_messages base foreign)
    /\ NoDup (map smry (poll_messages base foreign))
    /\ Forall (fun m => 0 <= mtype m < STEAM_API_MESSAGE_TYPE_LAST)
         (poll_messages base foreign)
    /\ (List.length (poll_messages base foreign) <= List.length foreign)%nat.
Proof.
  induction foreign as [|je rest IH]; intros base.
  - cbn. repeat split; constructor.
  - destruct (IH (S base)) as (Hb & Hn & Hk & Hl). cbn [poll_messages].
    assert (Hb' : Forall (fun m => (base <= smry m)%nat) (poll_messages (S base) rest)).
    { eapply Forall_impl; [|exact Hb]. cbn. intros; lia. }
    destruct (poll_delivered je) eqn:Hd.
    + repeat split.
      * constructor; [cbn; lia | exact Hb'].
      * cbn [map]. constructor; [|exact Hn]. cbn [smry poll_message].
        intros Hin. apply in_map_iff in Hin as (m & Hm & Hin).
        rewrite Forall_forall in Hb. specialize (Hb m Hin). lia.
      * constructor; [|exact Hk]. cbn [mtype poll_message].
        unfold poll_delivered in Hd. cbv zeta in Hd.
        rewrite !orb_true_iff, !Z.eqb_eq in Hd.
        unfold STEAM_API_MESSAGE_TYPE_SAYTEXT, STEAM_API_MESSAGE_TYPE_EMOTE,
          STEAM_API_MESSAGE_TYPE_STATE, STEAM_API_MESSAGE_TYPE_RELATIONSHIP,
          STEAM_API_MESSAGE_TYPE_TYPING, STEAM_API_MESSAGE_TYPE_LEFT_CONV,
          STEAM_API_MESSAGE_TYPE_LAST in *. lia.
      * cbn [List.length]. lia.
    + repeat split; [exact Hb' | exact Hn | exact Hk | cbn [List.length]; lia].
Qed.

(** X17: a poll response that passed the checks and brings a new cursor.
    The cursor is stored; a sender summary is made for every entry that does
    not come from the session's own identity; of these, the entries of a
    known message type are delivered in response order.  Every delivered
    message has a type below [LAST] and a sender summary of its own, and the
    senders left pending are senders of delivered messages. *)
Theorem poll_cb_delivers (sata : SteamApiData) (json : option json_value)
  (vs : list json_value) (i : Z) (w : World) :
  poll_error_gate json = None ->
  poll_timeout_low json = false ->
  steam_json_int json "messagelast" = (true, i) ->
  i <> lmid (api w) ->
  steam_json_val json "messages" json_array = (true, Some (JArray vs)) ->
  let own := api_steamid (api w) in
  let foreign := filter (poll_foreign own) vs in
  let ms := poll_messages (List.length (heap w)) foreign in
  steam_api_poll_cb sata json w =
    Some (sata_set_rdata (sata_set_sums sata (poll_pending ms ++ sums sata))
            (RMessages ms),
          world_add_heap (world_set_api w (api_set_lmid (api w) i))
            (map poll_summary foreign)) /\
  (forall je, In je foreign <->
     In je vs /\ fst (steam_json_scmp (Some je) "steamid_from" own) = false) /\
  Forall (fun m => 0 <= mtype m < STEAM_API_MESSAGE_TYPE_LAST) ms /\
  NoDup (map smry ms) /\
  incl (poll_pending ms) (map smry ms) /\
  (List.length ms <= List.length vs)%nat.
Proof.
  intros Hg Ht Hm Hi Hv own foreign ms.
  destruct (poll_messages_senders foreign (List.length (heap w)))
    as (_ & Hn & Hk & Hl).
  split; [now apply poll_cb_run|].
  split.
  { intros je. subst foreign. rewrite filter_In. unfold poll_foreign.
    now rewrite negb_true_iff. }
  split; [exact Hk|]. split; [exact Hn|]. split.
  - intros p Hp. unfold poll_pending in Hp. apply in_rev in Hp.
    apply in_map_iff in Hp as (m & <- & Hin). apply filter_In in Hin as [Hin _].
    now apply in_map.
  - etransitivity; [exact Hl|]. subst foreign. apply filter_length_le.
Qed.


Lemma steam_api_poll_run (f : option nat) (d : nat) (w : World) :
  steam_api_poll f d w =
    Some (sata_set_req (steam_api_data_new STEAM_API_TYPE_POLL f d)
            (Some (poll_request (api w) (lmid (api w)))),
          world_add_trace w
            [ steam_http_req_send (poll_request (api w) (lmid (api w))) ]).
Proof. reflexivity. Qed.

(** X19: the cursor goes round.  After a poll response that passed the
    checks, the next [steam_api_poll] asks for the messages after the
    ["messagelast"] of that response, and after the cursor the session had
    when the response has none. *)
Theorem poll_cursor_carried (sata : SteamApiData) (json : option json_value)
  (f : option nat) (d : nat) (w : World) :
  poll_error_gate json = None ->
  poll_timeout_low json = false ->
  (exists vs, steam_json_val json "messages" json_array = (true, Some (JArray vs))) ->
  let cursor :=
    if fst (steam_json_int json "messagelast")
    then snd (steam_json_int json "messagelast")
    else lmid (api w) in
  exists sata' w',
    steam_api_poll_cb sata json w = Some (sata', w') /\
    lmid (api w') = cursor /\
    steam_api_poll f d w' =
      Some (sata_set_req (steam_api_data_new STEAM_API_TYPE_POLL f d)
              (Some (poll_request (api w) cursor)),
            world_add_trace w'
              [ steam_http_req_send (poll_request (api w) cursor) ]).
Proof.
  intros Hg Ht [vs Hv] cursor.
  destruct (steam_json_int json "messagelast") as [ok i] eqn:Hm.
  destruct ok; cbn [fst snd] in cursor.
  - destruct (Z.eq_dec i (lmid (api w))) as [E|E].
    + exists sata, w. subst cursor. rewrite E. split.
      * unfold steam_api_poll_cb. rewrite Hg, Ht, Hm. cbn [negb orb].
        unfold bind at 1. unfold get_api at 1. rewrite E, Z.eqb_refl.
        reflexivity.
      * split; [reflexivity|]. apply steam_api_poll_run.
    + do 2 eexists. rewrite (poll_cb_run sata json vs i w Hg Ht Hm E Hv).
      split; [reflexivity|]. split; [reflexivity|].
      rewrite steam_api_poll_run. destruct w as [[au ht se tk uq sid lm ts] h t].
      reflexivity.
  - exists sata, w. subst cursor. split.
    + unfold steam_api_poll_cb. rewrite Hg, Ht, Hm. reflexivity.
    + split; [reflexivity|]. apply steam_api_poll_run.
Qed.

(** ** Sending *)

(** X20: [steam_api_message] for a message of a known type.  The label it
    sends as ["type"] is read back as that type by
    [steam_api_message_type_from_str].  Say-text, emote and typing messages
    are sent, queued and by POST, with the text only for the first two; for
    the other types nothing is sent. *)
Theorem message_send_outcomes (mesg : SteamApiMessage) (f : option nat)
  (d : nat) (s : SteamFriendSummary) (w : World) :
  nth_error (heap w) (smry mesg) = Some s ->
  0 <= mtype mesg < STEAM_API_MESSAGE_TYPE_LAST ->
  exists label,
    steam_api_message_type_str (mtype mesg) = Some label /\
    steam_api_message_type_from_str (Some label) = mtype mesg /\
    steam_api_message mesg f d w =
      if message_sent (mtype mesg)
      then
        Some (Some (sata_set_req (steam_api_data_new STEAM_API_TYPE_MESSAGE f d)
                      (Some (message_request (api w) s mesg label))),
              world_add_trace w
                [ steam_http_req_send (message_request (api w) s mesg label) ])
      else Some (None, w).
Proof.
  intros Hs Hty. unfold STEAM_API_MESSAGE_TYPE_LAST in Hty.
  destruct mesg as [ty p tx ts]. cbn [mtype smry] in *.
  assert (Hc : ty = 0 \/ ty = 1 \/ ty = 2 \/ ty = 3 \/ ty = 4 \/ ty = 5) by lia.
  unfold steam_api_message. unfold bind at 1. unfold get_api at 1.
  cbn [mtype smry text].
  destruct Hc as [ -> | [ -> | [ -> | [ -> | [ -> | -> ]]]]];
    (eexists; split; [reflexivity|]; split; [reflexivity|]);
    match goal with
    | |- context [steam_api_message_type_str ?k] =>
        let v := eval vm_compute in (steam_api_message_type_str k) in
        change (steam_api_message_type_str k) with v
    end;
    cbn; unfold bind, smry_get, sata_req, ret, emit; cbn; rewrite Hs; cbn;
    destruct w; reflexivity.
Qed.

(** X21: a message-send response with an error string other than ["OK"]
    and ["Not Logged On"] is reported under the error code of a logoff, with
    the string as message under the label ["Message"]; the session is left as
    it is. *)
Theorem message_error_uses_logoff_code (sata : SteamApiData) (r : SteamHttpReq)
  (json : json_value) (str : string) (w : World) :
  type sata = STEAM_API_TYPE_MESSAGE ->
  err sata = None ->
  sums sata = [] ->
  STEAM_API_FLAG_NOJSON (flags sata) = false ->
  rerr r = None ->
  json_parse_ex (body r) = inl json ->
  steam_json_str (Some json) "error" = (true, Some str) ->
  g_ascii_strcasecmp "OK" str <> 0 ->
  g_ascii_strcasecmp str "Not Logged On" <> 0 ->
  let failed :=
    sata_set_req
      (sata_set_err sata
         (Some {| err_code := STEAM_API_ERROR STEAM_API_ERROR_LOGOFF;
                  err_message := str |}))
      (Some r) in
  steam_api_cb r sata w =
    Some (if kept_alive failed r then Some (kept_context (labelled failed)) else None,
          world_add_trace w
            (callback_events (labelled failed) ++ release_events failed r)) /\
  err (labelled failed) =
    Some {| err_code := STEAM_API_ERROR STEAM_API_ERROR_LOGOFF;
            err_message := "Message: " ++ str |}.
Proof.
  intros Ht He Hs Hj Hr Hp Hstr H1 H2 failed. split.
  - assert (Hrun : pfuncs (type sata) (sata_set_req sata (Some r)) (Some json) w
                   = Some (failed, w)).
    { rewrite Ht. cbn [pfuncs]. unfold steam_api_message_cb, steam_json_scmp.
      rewrite Hstr. apply Z.eqb_neq in H1, H2. rewrite H1.
      cbn [g_ascii_strcasecmp_ptr]. rewrite H2.
      unfold ret, sata_error, g_set_error, fmt_s.
      subst failed. destruct sata; cbn in *; subst. reflexivity. }
    rewrite (dispatch_parsed r sata _ json w _ He Hs Hj Hr Hp Hrun)
      by (subst failed; now destruct sata).
    now rewrite (finish_labelled _ r) by reflexivity.
  - subst failed. unfold labelled. destruct sata. cbn in *. subst.
    reflexivity.
Qed.

(** X22: [steam_api_relogon] pauses the queue before it sends, and only
    [steam_api_relogon_cb] lifts the pause.  When the relogon request comes
    back from the transport with an error, no parser runs: the callback gets
    the error under the label ["Relogon"], the context is released, and the
    queue stays paused. *)
Theorem relogon_transport_failure_stays_paused (e : GError) (f : option nat)
  (d : nat) (w : World) :
  relogon_failing e f d w =
    Some (None,
          world_add_trace (world_set_paused w true)
            ([ steam_http_req_send (relogon_request (api w)) ]
               ++ match f with
                  | Some n =>
                      [ user_callback n
                          (SteamApiFunc
                             (Some {| err_code := err_code e;
                                      err_message := "Relogon: " ++ err_message e |})
                             d) ]
                  | None => []
                  end
               ++ [ steam_api_data_free_ev ])).
Proof.
  unfold relogon_failing. unfold bind at 1.
  assert (Hsend : steam_api_relogon f d w =
                  Some (sata_set_req (steam_api_data_new STEAM_API_TYPE_RELOGON f d)
                          (Some (relogon_request (api w))),
                        world_add_trace (world_set_paused w true)
                          [ steam_http_req_send (relogon_request (api w)) ])).
  { destruct w as [[au [ck qp] se tk uq sid lm ts] h t]. reflexivity. }
  rewrite Hsend. unfold bind at 1. cbn [sata_req req sata_set_req]. unfold ret at 1.
  rewrite (transport_error_run _ _ e) by reflexivity.
  change (type_label STEAM_API_TYPE_RELOGON) with "Relogon".
  destruct w as [[au [ck qp] se tk uq sid lm ts] h t], e as [c m], f as [n|];
    unfold world_add_trace, world_set_paused; cbn; rewrite <- ?app_assoc;
    reflexivity.
Qed.

End Further.

(** * Further worked examples *)

Lemma accountid_int_injective_witness :
  steam_api_accountid_int (ext := sample_env) 76561197960265729
  <> steam_api_accountid_int (ext := sample_env) 76561197960265730.
Proof.
  apply (accountid_int_injective (ext := sample_env)).
  - unfold in_int64, INT64_MIN, INT64_MAX. lia.
  - unfold in_int64, INT64_MIN, INT64_MAX. lia.
  - lia.
Defined.

Lemma message_type_from_str_spec_witness :
  steam_api_message_type_from_str (Some "PersonaState") = STEAM_API_MESSAGE_TYPE_STATE.
Proof.
  apply (proj1 (message_type_from_str_spec "PersonaState")
           STEAM_API_MESSAGE_TYPE_STATE "personastate").
  - unfold STEAM_API_MESSAGE_TYPE_STATE, STEAM_API_MESSAGE_TYPE_LAST. lia.
  - reflexivity.
  - reflexivity.
Defined.

Lemma friend_accept_cb_reports_nothing_witness :
  steam_api_friend_accept_cb
    (fresh_context STEAM_API_TYPE_FRIEND_ACCEPT STEAM_COM_HOST STEAM_COM_PATH_AUTH_RDIR)
    (Some accept_body_failed) (sample_world 5 false)
  = Some (fresh_context STEAM_API_TYPE_FRIEND_ACCEPT STEAM_COM_HOST STEAM_COM_PATH_AUTH_RDIR,
          sample_world 5 false).
Proof.
  apply friend_accept_cb_reports_nothing.
  intros r H. vm_compute in H. discriminate.
Defined.

Lemma dispatch_transport_error_witness :
  steam_api_cb (ext := sample_env) request_failed
    (fresh_context STEAM_API_TYPE_LOGON STEAM_API_HOST STEAM_API_PATH_LOGON)
    (sample_world 5 false)
  = Some (None,
          world_add_trace (sample_world 5 false)
            [ user_callback 7
                (SteamApiFunc
                   (Some {| err_code := TransportError 1 2;
                            err_message := "Logon: Connection refused" |}) 0%nat);
              steam_api_data_free_ev ]).
Proof.
  destruct (dispatch_transport_error (ext := sample_env) request_failed
              (fresh_context STEAM_API_TYPE_LOGON STEAM_API_HOST STEAM_API_PATH_LOGON)
              transport_failure (sample_world 5 false) eq_refl eq_refl) as [H _].
  rewrite H. reflexivity.
Defined.

Lemma dispatch_parse_failure_witness :
  steam_api_cb (ext := rejecting "Unexpected end of input")
    (fresh_request STEAM_API_HOST STEAM_API_PATH_FRIENDS)
    (fresh_context STEAM_API_TYPE_FRIENDS STEAM_API_HOST STEAM_API_PATH_FRIENDS)
    (sample_world 5 false)
  = Some (None,
          world_add_trace (sample_world 5 false)
            [ user_callback 7
                (SteamApiListFunc RNull
                   (Some {| err_code := STEAM_JSON_ERROR_PARSER;
                            err_message := "Friends: Parser: Unexpected end of input" |})
                   0%nat);
              steam_api_data_free_ev ]).
Proof.
  destruct (dispatch_parse_failure (ext := rejecting "Unexpected end of input")
              (fresh_request STEAM_API_HOST STEAM_API_PATH_FRIENDS)
              (fresh_context STEAM_API_TYPE_FRIENDS STEAM_API_HOST STEAM_API_PATH_FRIENDS)
              "Unexpected end of input" (sample_world 5 false)
              eq_refl eq_refl eq_refl eq_refl) as [H _].
  rewrite H. reflexivity.
Defined.

Lemma dispatch_keeps_first_error_witness :
  steam_api_cb (ext := parsing_to poll_body_same_cursor_ok)
    (fresh_request STEAM_API_HOST STEAM_API_PATH_POLL)
    (sata_set_err
       (fresh_context STEAM_API_TYPE_POLL STEAM_API_HOST STEAM_API_PATH_POLL)
       (Some {| err_code := STEAM_API_ERROR STEAM_API_ERROR_LOGON_EXPIRED;
                err_message := "Polling: Logon session expired" |}))
    (sample_world 5 false)
  = Some (None,
          world_add_trace (sample_world 5 false)
            [ user_callback 7
                (SteamApiListFunc RNull
                   (Some {| err_code := STEAM_API_ERROR STEAM_API_ERROR_LOGON_EXPIRED;
                            err_message := "Polling: Polling: Logon session expired" |})
                   0%nat);
              steam_api_data_free_ev ]).
Proof.
  destruct (dispatch_keeps_first_error (ext := parsing_to poll_body_same_cursor_ok)
              (fresh_request STEAM_API_HOST STEAM_API_PATH_POLL)
              (sata_set_err
                 (fresh_context STEAM_API_TYPE_POLL STEAM_API_HOST STEAM_API_PATH_POLL)
                 (Some {| err_code := STEAM_API_ERROR STEAM_API_ERROR_LOGON_EXPIRED;
                          err_message := "Polling: Logon session expired" |}))
              {| err_code := STEAM_API_ERROR STEAM_API_ERROR_LOGON_EXPIRED;
                 err_message := "Polling: Logon session expired" |}
              (sample_world 5 false) eq_refl) as [H _].
  rewrite H. reflexivity.
Defined.

Lemma message_without_error_is_expiry_witness :
  exists res w',
    steam_api_cb (ext := parsing_to message_body_no_error)
      (fresh_request STEAM_API_HOST STEAM_API_PATH_MESSAGE)
      (fresh_context STEAM_API_TYPE_MESSAGE STEAM_API_HOST STEAM_API_PATH_MESSAGE)
      (sample_world 5 false)
    = Some (res, w') /\
    queue_paused (http (api w')) = true /\
    trace w' =
      [ steam_http_req_resend (fresh_request STEAM_API_HOST STEAM_API_PATH_MESSAGE);
        user_callback 7
          (SteamApiFunc
             (Some {| err_code := STEAM_API_ERROR STEAM_API_ERROR_LOGON_EXPIRED;
                      err_message := "Message: Logon session expired" |}) 0%nat) ].
Proof.
  do 2 eexists.
  rewrite (message_without_error_is_expiry (ext := parsing_to message_body_no_error)
             (fresh_context STEAM_API_TYPE_MESSAGE STEAM_API_HOST STEAM_API_PATH_MESSAGE)
             (fresh_request STEAM_API_HOST STEAM_API_PATH_MESSAGE)
             message_body_no_error (sample_world 5 false)
             eq_refl eq_refl eq_refl eq_refl eq_refl eq_refl eq_refl).
  split; [reflexivity|]. split; reflexivity.
Defined.

Lemma poll_error_string_outcomes_witness :
  steam_api_cb (ext := parsing_to poll_body_other_error)
    (fresh_request STEAM_API_HOST STEAM_API_PATH_POLL)
    (fresh_context STEAM_API_TYPE_POLL STEAM_API_HOST STEAM_API_PATH_POLL)
    (sample_world 5 false)
  = Some (None,
          world_add_trace (sample_world 5 false)
            [ user_callback 7
                (SteamApiListFunc RNull
                   (Some {| err_code := STEAM_API_ERROR STEAM_API_ERROR_POLL;
                            err_message := "Polling: Internal Server Error" |})
                   0%nat);
              steam_api_data_free_ev ]).
Proof.
  destruct (poll_error_string_outcomes (ext := parsing_to poll_body_other_error)
              (fresh_context STEAM_API_TYPE_POLL STEAM_API_HOST STEAM_API_PATH_POLL)
              (fresh_request STEAM_API_HOST STEAM_API_PATH_POLL)
              poll_body_other_error "Internal Server Error" (sample_world 5 false)
              eq_refl eq_refl eq_refl eq_refl eq_refl eq_refl eq_refl) as [_ H].
  rewrite H; [reflexivity| | |]; vm_compute; discriminate.
Defined.

Lemma tree_lookup_joins_leaves_witness :
  g_tree_lookup (steam_json_tree tree_document) "token" = Some "a,true,7".
Proof.
  rewrite tree_lookup_joins_leaves; reflexivity.
Defined.

Lemma logon_cb_outcomes_witness :
  exists a',
    steam_api_logon_cb
      (fresh_context STEAM_API_TYPE_LOGON STEAM_API_HOST STEAM_API_PATH_LOGON)
      (Some logon_body_no_identity) (sample_world 5 false)
    = Some (fresh_context STEAM_API_TYPE_LOGON STEAM_API_HOST STEAM_API_PATH_LOGON,
            world_set_api (sample_world 5 false) a') /\
    api_steamid a' = None /\ lmid a' = 9.
Proof.
  destruct (proj2 (logon_cb_outcomes
                     (fresh_context STEAM_API_TYPE_LOGON STEAM_API_HOST
                        STEAM_API_PATH_LOGON)
                     (Some logon_body_no_identity) (sample_world 5 false)) eq_refl)
    as (a' & E & Hl & _ & Hs & _).
  exists a'. split; [exact E|]. split; [apply Hs; reflexivity | exact Hl].
Defined.

Lemma summary_cb_reads_first_player_witness :
  steam_api_summary_cb
    (fresh_context STEAM_API_TYPE_SUMMARY STEAM_API_HOST STEAM_API_PATH_SUMMARIES)
    (Some summary_body_two) (sample_world 5 false)
  = Some (sata_set_rdata
            (fresh_context STEAM_API_TYPE_SUMMARY STEAM_API_HOST
               STEAM_API_PATH_SUMMARIES)
            (RSummary 0%nat),
          world_add_heap (sample_world 5 false)
            [ player_summary summary_first_player ]).
Proof.
  destruct (summary_cb_reads_first_player
              (fresh_context STEAM_API_TYPE_SUMMARY STEAM_API_HOST
                 STEAM_API_PATH_SUMMARIES)
              (Some summary_body_two) (sample_world 5 false)) as [H _].
  rewrite (H summary_first_player
             [ JObject [ ("steamid", JString "76561197960265731") ] ]
             eq_refl eq_refl).
  reflexivity.
Defined.

Lemma friend_search_cb_results_witness :
  steam_api_friend_search_cb
    (fresh_context STEAM_API_TYPE_FRIEND_SEARCH STEAM_API_HOST STEAM_API_PATH_FRIENDS)
    (Some search_body) (sample_world 5 false)
  = Some (sata_set_rdata
            (fresh_context STEAM_API_TYPE_FRIEND_SEARCH STEAM_API_HOST
               STEAM_API_PATH_FRIENDS)
            (RSummaries [ 0%nat ]),
          world_add_heap (sample_world 5 false) [ search_summary search_user_entry ]).
Proof.
  destruct (friend_search_cb_results
              (fresh_context STEAM_API_TYPE_FRIEND_SEARCH STEAM_API_HOST
                 STEAM_API_PATH_FRIENDS)
              (Some search_body) (sample_world 5 false)) as [H _].
  rewrite (H _ eq_refl). reflexivity.
Defined.

Lemma auth_rdir_dispatch_witness :
  exists w',
    steam_api_cb (ext := cookie_env)
      (fresh_request STEAM_COM_HOST STEAM_COM_PATH_AUTH_RDIR) rdir_context
      (sample_world 5 false)
    = Some (None, w') /\
    sessid (api w') = Some "abc" /\
    trace w' = [ user_callback 7 (SteamApiFunc None 0%nat); steam_api_data_free_ev ].
Proof.
  eexists.
  rewrite (auth_rdir_dispatch (ext := cookie_env)
             (fresh_request STEAM_COM_HOST STEAM_COM_PATH_AUTH_RDIR) rdir_context
             (sample_world 5 false) eq_refl eq_refl eq_refl eq_refl eq_refl).
  split; [reflexivity|]. split; reflexivity.
Defined.

Lemma friends_dispatch_requests_summaries_witness :
  exists ctx w',
    steam_api_cb (ext := parsing_to friends_body_twice)
      (fresh_request STEAM_API_HOST STEAM_API_PATH_FRIENDS)
      (fresh_context STEAM_API_TYPE_FRIENDS STEAM_API_HOST STEAM_API_PATH_FRIENDS)
      (sample_world 5 false)
    = Some (Some ctx, w') /\
    trace w' =
      [ steam_http_req_send (summaries_request (Some "t") [ "76561197960287930" ]) ].
Proof.
  do 2 eexists.
  rewrite (friends_dispatch_requests_summaries (ext := parsing_to friends_body_twice)
             (fresh_request STEAM_API_HOST STEAM_API_PATH_FRIENDS)
             (fresh_context STEAM_API_TYPE_FRIENDS STEAM_API_HOST STEAM_API_PATH_FRIENDS)
             friends_body_twice _ (sample_world 5 false)
             eq_refl eq_refl eq_refl eq_refl eq_refl eq_refl eq_refl)
    by (vm_compute; discriminate).
  split; reflexivity.
Defined.

Lemma summaries_response_dispatch_witness :
  exists res w',
    steam_api_cb (ext := parsing_to (players_body [ "1" ]))
      (fresh_request STEAM_API_HOST STEAM_API_PATH_SUMMARIES)
      pending_context pending_world
    = Some (res, w') /\
    trace w' = [ steam_http_req_send (summaries_request (Some "t") [ "2" ]) ].
Proof.
  destruct (summaries_response_dispatch (ext := parsing_to (players_body [ "1" ]))
              (fresh_request STEAM_API_HOST STEAM_API_PATH_SUMMARIES)
              pending_context (players_body [ "1" ]) [ player_of "1" ]
              pending_world [ "1"; "2" ]
              eq_refl eq_refl eq_refl eq_refl eq_refl)
    as (_ & _ & l' & h' & _ & _ & E); try discriminate; [reflexivity|].
  rewrite E. do 2 eexists. split; reflexivity.
Defined.

Lemma summaries_response_without_players_witness :
  steam_api_cb (ext := parsing_to (JObject []))
    (fresh_request STEAM_API_HOST STEAM_API_PATH_SUMMARIES)
    pending_context pending_world
  = Some (None,
          world_add_trace pending_world
            [ user_callback 7 (SteamApiListFunc RNull None 0%nat);
              steam_api_data_free_ev ]).
Proof.
  destruct (summaries_response_without_players (ext := parsing_to (JObject []))
              (fresh_request STEAM_API_HOST STEAM_API_PATH_SUMMARIES)
              pending_context (JObject []) pending_world eq_refl
              ltac:(discriminate) eq_refl eq_refl eq_refl (or_introl eq_refl))
    as [E _].
  rewrite E. reflexivity.
Defined.

Lemma poll_cb_delivers_witness :
  exists sata' w',
    steam_api_poll_cb (ext := sample_env)
      (fresh_context STEAM_API_TYPE_POLL STEAM_API_HOST STEAM_API_PATH_POLL)
      (Some poll_body_three) (sample_world 5 false)
    = Some (sata', w') /\
    rdata sata' = RMessages [ poll_message 0%nat poll_entry_hello ] /\
    lmid (api w') = 6 /\
    List.length (heap w') = 2%nat.
Proof.
  destruct (poll_cb_delivers (ext := sample_env)
              (fresh_context STEAM_API_TYPE_POLL STEAM_API_HOST STEAM_API_PATH_POLL)
              (Some poll_body_three) _ 6 (sample_world 5 false)
              eq_refl eq_refl eq_refl ltac:(vm_compute; discriminate) eq_refl)
    as [E _].
  rewrite E. do 2 eexists. split; [reflexivity|]. repeat split.
Defined.


Lemma poll_cursor_carried_witness :
  exists sata' w',
    steam_api_poll_cb (ext := sample_env)
      (fresh_context STEAM_API_TYPE_POLL STEAM_API_HOST STEAM_API_PATH_POLL)
      (Some poll_body_three) (sample_world 5 false)
    = Some (sata', w') /\
    steam_api_poll (ext := sample_env) (Some 7%nat) 0%nat w' =
      Some (sata_set_req (steam_api_data_new STEAM_API_TYPE_POLL (Some 7%nat) 0%nat)
              (Some (poll_request (ext := sample_env) (sample_api 5 false) 6)),
            world_add_trace w'
              [ steam_http_req_send
                  (poll_request (ext := sample_env) (sample_api 5 false) 6) ]).
Proof.
  destruct (poll_cursor_carried (ext := sample_env)
              (fresh_context STEAM_API_TYPE_POLL STEAM_API_HOST STEAM_API_PATH_POLL)
              (Some poll_body_three) (Some 7%nat) 0%nat (sample_world 5 false)
              eq_refl eq_refl)
    as (sata' & w' & E & _ & H).
  - eexists. reflexivity.
  - exists sata', w'. split; [exact E | exact H].
Defined.

Lemma message_send_outcomes_witness :
  exists res w',
    steam_api_message typing_message (Some 7%nat) 0%nat pending_world
    = Some (Some res, w') /\
    trace w' =
      [ steam_http_req_send
          (message_request (sample_api 5 false) (steam_friend_summary_new (Some "1"))
             typing_message "typing") ].
Proof.
  destruct (message_send_outcomes typing_message (Some 7%nat) 0%nat
              (steam_friend_summary_new (Some "1")) pending_world eq_refl)
    as (label & Hl & _ & E).
  - vm_compute. split; [discriminate | reflexivity].
  - vm_compute in Hl. injection Hl as <-. rewrite E.
    do 2 eexists. split; reflexivity.
Defined.

Lemma message_error_uses_logoff_code_witness :
  steam_api_cb (ext := parsing_to poll_body_other_error)
    (fresh_request STEAM_API_HOST STEAM_API_PATH_MESSAGE)
    (fresh_context STEAM_API_TYPE_MESSAGE STEAM_API_HOST STEAM_API_PATH_MESSAGE)
    (sample_world 5 false)
  = Some (None,
          world_add_trace (sample_world 5 false)
            [ user_callback 7
                (SteamApiFunc
                   (Some {| err_code := STEAM_API_ERROR STEAM_API_ERROR_LOGOFF;
                            err_message := "Message: Internal Server Error" |})
                   0%nat);
              steam_api_data_free_ev ]).
Proof.
  destruct (message_error_uses_logoff_code (ext := parsing_to poll_body_other_error)
              (fresh_context STEAM_API_TYPE_MESSAGE STEAM_API_HOST STEAM_API_PATH_MESSAGE)
              (fresh_request STEAM_API_HOST STEAM_API_PATH_MESSAGE)
              poll_body_other_error "Internal Server Error" (sample_world 5 false)
              eq_refl eq_refl eq_refl eq_refl eq_refl eq_refl eq_refl)
    as [E _]; try (vm_compute; discriminate).
  rewrite E. reflexivity.
Defined.
